(** * Chemical Equipment Visualizer: the CSV ingestion core

    A shallow embedding of [backend/equipment/dynamic_csv_handler.py] and of
    the upload views of [backend/equipment/views.py], with the properties
    the specification states about them.

    Conventions of the embedding.
    - A pandas cell is a [cell]: the missing marker, a float or a string.
    - A string is the UTF-8 encoding of a text.  Whitespace, letter case and
      digits follow Python on ASCII text; the properties of the normalizer
      that depend on them are stated for ASCII text.
    - A finite Python float is the rational it is, in lowest terms; the
      float [nan] is the separate value [None] of [option Q] / [FNaN].
      [float(text)] rounds to binary64.  The reductions of a series (mean,
      standard deviation, median) are computed exactly; they are the floats
      pandas returns where its sums are exact.
    - numpy's global random generator is the tape of the draws it will
      produce; every behaviour of [Series.sample] arises from some tape.
    - Data frames are objects on a heap, reached through references, so
      that writes into the caller's frame are visible.
    - Of the database only the [Dataset] table is kept; the [Equipment] and
      [DynamicData] rows written with a dataset are left out, as are the
      file and the user of a dataset.  A row that the [Equipment] table
      refuses still makes the view fail.
    - The accounts and the password reset of [backend/equipment/auth_views.py]
      and [backend/equipment/models.py] run on a state of their own, [site],
      with the conventions given where it is defined. *)

From Stdlib Require Import ZArith QArith Lia List Ascii String Bool DecimalString Sorted.
From stdpp Require Import base list.
Import ListNotations.

Local Open Scope Z_scope.

(** ** Strings *)

Abbreviation chars := (list ascii) (only parsing).

Definition lit (s : string) : chars := list_ascii_of_string s.

Definition is_digit (c : ascii) : bool :=
  let n := nat_of_ascii c in (48 <=? n)%nat && (n <=? 57)%nat.

(** [str.isspace] on the ASCII range: TAB..CR, FS..US and the blank. *)
Definition is_space (c : ascii) : bool :=
  let n := nat_of_ascii c in
  ((9 <=? n)%nat && (n <=? 13)%nat) || ((28 <=? n)%nat && (n <=? 32)%nat).

Definition upper_char (c : ascii) : ascii :=
  let n := nat_of_ascii c in
  if (97 <=? n)%nat && (n <=? 122)%nat then ascii_of_nat (n - 32) else c.

Definition lower_char (c : ascii) : ascii :=
  let n := nat_of_ascii c in
  if (65 <=? n)%nat && (n <=? 90)%nat then ascii_of_nat (n + 32) else c.

Definition str_upper (s : chars) : chars := map upper_char s.
Definition str_lower (s : chars) : chars := map lower_char s.

Fixpoint lstrip (s : chars) : chars :=
  match s with
  | c :: s' => if is_space c then lstrip s' else s
  | [] => []
  end.

Definition rstrip (s : chars) : chars := rev (lstrip (rev s)).
Definition str_strip (s : chars) : chars := rstrip (lstrip s).

Definition ascii_eqb (a b : ascii) : bool := Ascii.eqb a b.

Fixpoint chars_eqb (a b : chars) : bool :=
  match a, b with
  | [], [] => true
  | x :: a', y :: b' => ascii_eqb x y && chars_eqb a' b'
  | _, _ => false
  end.

Fixpoint starts_with (p s : chars) : bool :=
  match p, s with
  | [], _ => true
  | x :: p', y :: s' => ascii_eqb x y && starts_with p' s'
  | _ :: _, [] => false
  end.

(** Python's [p in s] on strings. *)
Fixpoint str_in (p s : chars) : bool :=
  starts_with p s ||
  match s with
  | [] => false
  | _ :: s' => str_in p s'
  end.

(** Python's [x in xs] for a list of strings. *)
Definition mem_chars (x : chars) (xs : list chars) : bool :=
  existsb (chars_eqb x) xs.

(** ** Numbers *)

Definition digit_val (c : ascii) : Z := Z.of_nat (nat_of_ascii c - 48).

Definition digits_to_Z (ds : chars) : Z :=
  fold_left (fun acc c => 10 * acc + digit_val c) ds 0.

Fixpoint span_digits (s : chars) : chars * chars :=
  match s with
  | c :: s' =>
      if is_digit c then let '(ds, r) := span_digits s' in (c :: ds, r)
      else ([], s)
  | [] => ([], [])
  end.

(** Nearest integer, ties to the even one. *)
Definition round_half_even (q : Q) : Z :=
  let n := Qnum q in
  let d := Zpos (Qden q) in
  let f := n / d in
  let r2 := 2 * (n mod d) in
  if r2 <? d then f
  else if d <? r2 then f + 1
  else if Z.even f then f else f + 1.

(** *** Binary64

    A Python float is an IEEE 754 binary64 number.  The finite ones are
    kept as the rationals they are, in lowest terms. *)

Definition pow2 (k : Z) : Q :=
  if 0 <=? k then inject_Z (2 ^ k) else (1 # Z.to_pos (2 ^ (- k))).

(** The binary exponent [e] of a positive rational: [2^e <= q < 2^(e+1)]. *)
Definition binade (q : Q) : Z :=
  let e0 := Z.log2 (Qnum q) - Z.log2 (Zpos (Qden q)) in
  if Qle_bool (pow2 e0) q then e0 else e0 - 1.

(** Rounding of a rational in lowest terms to binary64: 53 significant
    bits, to the nearest, ties to the even significand; below [2^-1022] the
    spacing is that of the subnormals, [2^-1074]. *)
Definition b64_round (q : Q) : Q :=
  if Qeq_bool q 0 then 0%Q
  else
    let negative := negb (Qle_bool 0 q) in
    let a := if negative then Qopp q else q in
    let u := Z.max (binade a - 52) (-1074) in
    let m := round_half_even (a / pow2 u) in
    let v := Qred (inject_Z m * pow2 u) in
    if negative then Qopp v else v.

(** The binary64 number nearest to [q].  (Where the nearest one would be
    beyond the largest finite float, [2^1024 - 2^971], Python has [inf];
    the model has no infinities and such [q] are outside it.) *)
Definition nearest_double (q : Q) : Q := b64_round (Qred q).

Definition largest_double : Q := inject_Z (2 ^ 1024 - 2 ^ 971).

(** [q] is a finite binary64 number. *)
Definition is_double (q : Q) : bool :=
  Qeq_bool (nearest_double q) q
  && Qle_bool (Qopp largest_double) q && Qle_bool q largest_double.

(** [float(m)] for a text [m] of the shape the pattern below matches:
    an optional minus, digits, an optional point, digits. *)
Definition py_float (m : chars) : Q :=
  let '(neg, body) :=
    match m with
    | c :: t => if ascii_eqb c "-" then (true, t) else (false, m)
    | [] => (false, m)
    end in
  let '(ip, r) := span_digits body in
  let fp := match r with
            | c :: r' => if ascii_eqb c "." then fst (span_digits r') else []
            | [] => []
            end in
  let v := nearest_double (digits_to_Z (ip ++ fp) # Z.to_pos (10 ^ Z.of_nat (length fp))) in
  if neg then Qopp v else v.

(** ** The value normalizer *)

Inductive cell : Type :=
| NaN
| Num (q : Q)
| Str (s : string).

(** [re.search(r'-?\d+\.?\d*', s)]: the backtracking matcher tried at each
    start position from the left; [re_match_here] is one attempt. *)
Definition re_unsigned (t : chars) : option chars :=
  let '(ds, r) := span_digits t in
  match ds with
  | [] => None
  | _ :: _ =>
      match r with
      | c :: r' =>
          if ascii_eqb c "." then Some (ds ++ c :: fst (span_digits r'))
          else Some (ds ++ fst (span_digits r))
      | [] => Some (ds ++ fst (span_digits r))
      end
  end.

Definition re_match_here (s : chars) : option chars :=
  match s with
  | c :: t =>
      if ascii_eqb c "-" then
        match re_unsigned t with
        | Some m => Some (c :: m)
        | None => re_unsigned s
        end
      else re_unsigned s
  | [] => re_unsigned s
  end.

Fixpoint re_search (s : chars) : option chars :=
  match re_match_here s with
  | Some m => Some m
  | None =>
      match s with
      | [] => None
      | _ :: s' => re_search s'
      end
  end.

Definition non_numeric_indicators : list chars :=
  map lit ["N/A"; "NA"; "NONE"; "NULL"; ""; "AMBIENT"; "ROOM TEMP"; "ATMOSPHERIC"]%string.

(** [extract_numeric_value], the same text in [dynamic_csv_handler.py] and
    in [views.py]. *)
Definition extract_numeric_value (value : cell) : option Q :=
  match value with
  | NaN => None
  | Num q => Some q
  | Str s =>
      let value_str := str_strip (lit s) in
      if mem_chars (str_upper value_str) non_numeric_indicators then None
      else
        match re_search value_str with
        | Some m => Some (py_float m)
        | None => None
        end
  end.

(** ** Data frames *)

(** A [DataFrame] is its columns in order, each a name and the cells of the
    column; all columns have the number of rows of the frame. *)
Definition Series : Type := list cell.
Definition DataFrame : Type := list (string * Series).

Definition isna (c : cell) : bool :=
  match c with
  | NaN => true
  | _ => false
  end.

Definition df_columns (df : DataFrame) : list string := map fst df.

(** [len(df)] *)
Definition df_len (df : DataFrame) : nat :=
  match df with
  | [] => 0%nat
  | (_, v) :: _ => length v
  end.

(** [df.empty]: no column or no row. *)
Definition df_empty (df : DataFrame) : bool :=
  (length df =? 0)%nat || (df_len df =? 0)%nat.

(** [df[col]] and [df[col] = v] *)
Fixpoint df_get (df : DataFrame) (col : string) : option Series :=
  match df with
  | [] => None
  | (c, v) :: df' => if String.eqb c col then Some v else df_get df' col
  end.

Fixpoint df_set (df : DataFrame) (col : string) (v : Series) : DataFrame :=
  match df with
  | [] => [(col, v)]
  | (c, w) :: df' =>
      if String.eqb c col then (c, v) :: df' else (c, w) :: df_set df' col v
  end.

(** [s.isna().sum()] *)
Definition na_count (s : Series) : Z := Z.of_nat (length (List.filter isna s)).

(** [s.dropna()] *)
Definition dropna (s : Series) : Series := List.filter (fun c => negb (isna c)) s.

(** The numbers of a float series, [nan] skipped.  The reductions below are
    applied by the program to float series only. *)
Definition present (s : Series) : list Q :=
  omap (fun c => match c with Num q => Some q | _ => None end) s.

(** Which rows hold a value in at least one of the given columns. *)
Fixpoint row_mask (cols : list Series) (n : nat) : list bool :=
  match cols with
  | [] => repeat false n
  | v :: cols' =>
      let m := row_mask cols' n in
      map (fun i => negb (isna (nth i v NaN)) || nth i m false) (seq 0 n)
  end.

Fixpoint keep_rows {A} (mask : list bool) (v : list A) : list A :=
  match mask, v with
  | b :: mask', x :: v' => if b then x :: keep_rows mask' v' else keep_rows mask' v'
  | _, _ => []
  end.

(** [df.dropna(how='all')] and [df.dropna(subset=cols, how='all')] *)
Definition dropna_all (df : DataFrame) : DataFrame :=
  let mask := row_mask (map snd df) (df_len df) in
  map (fun '(c, v) => (c, keep_rows mask v)) df.

Definition dropna_subset_all (df : DataFrame) (subset : list string) : DataFrame :=
  let mask := row_mask (omap (df_get df) subset) (df_len df) in
  map (fun '(c, v) => (c, keep_rows mask v)) df.

(** ** Floats that may be [nan], and the reductions of a series *)

(** [FSqrt v] is the non-negative square root of [v], kept symbolic. *)
Inductive pyfloat : Type :=
| FNaN
| FNum (q : Q)
| FSqrt (v : Q).

Definition cell_of_float (x : option Q) : cell :=
  match x with
  | Some q => Num q
  | None => NaN
  end.

Definition Qsum (xs : list Q) : Q := Qred (fold_left Qplus xs 0%Q).

Definition Qlen (xs : list Q) : Q := inject_Z (Z.of_nat (length xs)).

Definition Qlt_bool (x y : Q) : bool := negb (Qle_bool y x).

Definition series_mean (s : Series) : pyfloat :=
  match present s with
  | [] => FNaN
  | xs => FNum (Qred (Qsum xs / Qlen xs)%Q)
  end.

Definition series_min (s : Series) : pyfloat :=
  match present s with
  | [] => FNaN
  | x :: xs => FNum (fold_left (fun m y => if Qlt_bool y m then y else m) xs x)
  end.

Definition series_max (s : Series) : pyfloat :=
  match present s with
  | [] => FNaN
  | x :: xs => FNum (fold_left (fun m y => if Qlt_bool m y then y else m) xs x)
  end.

(** [s.std()]: pandas' default [ddof=1]; with no more values than [ddof]
    the divisor is undefined and the result is [nan]. *)
Definition series_std (s : Series) : pyfloat :=
  let xs := present s in
  let ddof := 1%nat in
  if (length xs <=? ddof)%nat then FNaN
  else
    let m := (Qsum xs / Qlen xs)%Q in
    let sq := Qsum (map (fun x => (x - m) * (x - m))%Q xs) in
    FSqrt (Qred (sq / inject_Z (Z.of_nat (length xs - ddof)))%Q).

Fixpoint Qinsert (x : Q) (xs : list Q) : list Q :=
  match xs with
  | [] => [x]
  | y :: ys => if Qle_bool x y then x :: xs else y :: Qinsert x ys
  end.

Definition Qsort (xs : list Q) : list Q := fold_right Qinsert [] xs.

Definition series_median (s : Series) : pyfloat :=
  let xs := Qsort (present s) in
  let n := length xs in
  match xs with
  | [] => FNaN
  | _ :: _ =>
      if Nat.even n
      then FNum (Qred ((nth (n / 2 - 1) xs 0 + nth (n / 2) xs 0) / 2)%Q)
      else FNum (nth (n / 2) xs 0%Q)
  end.

(** [s.fillna(x)] *)
Definition fillna (x : pyfloat) (s : Series) : Series :=
  match x with
  | FNum q => map (fun c => if isna c then Num q else c) s
  | _ => s
  end.

(** ** Text of numbers *)

Definition str_of_Z (z : Z) : string := NilZero.string_of_int (Z.to_int z).

(** [f"{q:.2f}"] *)
Definition format_2f (q : Q) : string :=
  let h := Z.abs (round_half_even (q * 100)%Q) in
  let whole := str_of_Z (h / 100) in
  let frac := str_of_Z (h mod 100) in
  let sign := if Qlt_bool q 0%Q then "-"%string else ""%string in
  let pad := if h mod 100 <? 10 then "0"%string else ""%string in
  (sign ++ whole ++ "." ++ pad ++ frac)%string.

(** ** The schema detector's result and the database rows *)

Record column_types : Type := ColumnTypes {
  id_column : option string;
  category_columns : list string;
  numeric_columns : list string
}.

Record ColumnStats : Type := {
  stat_mean : pyfloat;
  stat_min : pyfloat;
  stat_max : pyfloat;
  stat_std_dev : pyfloat;
  stat_median : pyfloat;
  stat_count : Z
}.

(** A row of the [Dataset] model; [uploaded_at] is set by the database clock
    when the row is created ([auto_now_add]). *)
Record Dataset : Type := {
  pk : nat;
  name : string;
  uploaded_at : Z;
  total_count : Z;
  column_structure : option column_types;
  statistics : list (string * ColumnStats);
  avg_flowrate : option pyfloat;
  avg_pressure : option pyfloat;
  avg_temperature : option pyfloat
}.

(** ** The world a request runs in *)

Definition ref : Type := nat.

(** Python objects are reached through references: [heap] holds the data
    frames, [rng] is numpy's global generator, [datasets] the rows of the
    [Dataset] table in the order they were created. *)
Record world : Type := World {
  heap : list DataFrame;
  rng : list nat;
  datasets : list Dataset;
  next_pk : nat;
  clock : Z
}.

Inductive exn : Type :=
| KeyError (key : string)
| TypeError (what : string)
| ValueError (what : string)
| IntegrityError (what : string).

Inductive outcome (A : Type) : Type :=
| Ok (a : A)
| Raise (e : exn).
Arguments Ok {A} a.
Arguments Raise {A} e.

Definition M (A : Type) : Type := world -> outcome A * world.

Definition ret {A} (a : A) : M A := fun w => (Ok a, w).

Definition bind {A B} (m : M A) (k : A -> M B) : M B :=
  fun w =>
    match m w with
    | (Ok a, w') => k a w'
    | (Raise e, w') => (Raise e, w')
    end.

Definition raise {A} (e : exn) : M A := fun w => (Raise e, w).

(** [try: m  except Exception as e: h e] *)
Definition try_except {A} (m : M A) (h : exn -> M A) : M A :=
  fun w =>
    match m w with
    | (Ok a, w') => (Ok a, w')
    | (Raise e, w') => h e w'
    end.

Declare Scope py_scope.
Delimit Scope py_scope with py.
Notation "x <- c1 ;; c2" := (bind c1 (fun x => c2))
  (at level 100, c1 at next level, right associativity) : py_scope.
Notation "c1 ;;; c2" := (bind c1 (fun _ => c2))
  (at level 100, right associativity) : py_scope.
Local Open Scope py_scope.

Fixpoint for_each {A} (xs : list A) (body : A -> M unit) : M unit :=
  match xs with
  | [] => ret tt
  | x :: xs' => body x ;;; for_each xs' body
  end.

(** *** The heap *)

Definition alloc (df : DataFrame) : M ref :=
  fun w => (Ok (length (heap w)),
            World (heap w ++ [df]) (rng w) (datasets w) (next_pk w) (clock w)).

Definition deref (r : ref) : M DataFrame :=
  fun w =>
    match heap w !! r with
    | Some df => (Ok df, w)
    | None => (Raise (TypeError "dangling reference"), w)
    end.

Definition assign (r : ref) (df : DataFrame) : M unit :=
  fun w => (Ok tt, World (<[r := df]> (heap w)) (rng w) (datasets w) (next_pk w) (clock w)).

(** [df[col]] raises [KeyError] for an unknown column. *)
Definition getitem (r : ref) (col : string) : M Series :=
  df <- deref r ;;
  match df_get df col with
  | Some v => ret v
  | None => raise (KeyError col)
  end.

(** [df[col] = v] writes into the frame [r] refers to. *)
Definition setitem (r : ref) (col : string) (v : Series) : M unit :=
  df <- deref r ;;
  assign r (df_set df col v).

(** *** The random generator *)

Definition draw : M nat :=
  fun w =>
    match rng w with
    | [] => (Ok 0%nat, w)
    | r :: g => (Ok r, World (heap w) g (datasets w) (next_pk w) (clock w))
    end.

(** [s.sample(n)]: [n] cells drawn without replacement, in the order drawn. *)
Fixpoint sample {A} (n : nat) (xs : list A) : M (list A) :=
  match n with
  | O => ret []
  | S n' =>
      match xs with
      | [] => ret []
      | x0 :: _ =>
          r <- draw ;;
          let i := (r mod length xs)%nat in
          rest <- sample n' (delete i xs) ;;
          ret (nth i xs x0 :: rest)
      end
  end.

Fixpoint foldM {A S} (f : S -> A -> M S) (xs : list A) (s : S) : M S :=
  match xs with
  | [] => ret s
  | x :: xs' => s' <- f s x ;; foldM f xs' s'
  end.

(** ** [dynamic_csv_handler.py] *)

Definition id_keywords : list chars := map lit ["id"; "name"; "code"; "serial"]%string.

Definition is_numeric_text (v : cell) : bool :=
  match extract_numeric_value v with
  | Some _ => true
  | None => false
  end.

(** The body of the loop of [detect_column_types] for the column [col] of
    the frame [d]. *)
Definition detect_column (d : DataFrame) (ct : column_types) (col : string)
  : M column_types :=
  match df_get d col with
  | None => raise (KeyError col)
  | Some s =>
      if forallb isna s then ret ct
      else if match id_column ct with None => true | Some _ => false end
              && existsb (fun keyword => str_in keyword (str_lower (lit col))) id_keywords
      then ret (ColumnTypes (Some col) (category_columns ct) (numeric_columns ct))
      else
        let non_null_values := dropna s in
        if (length non_null_values =? 0)%nat then ret ct
        else
          smp <- sample (Nat.min 5 (length non_null_values)) non_null_values ;;
          let numeric_count := length (List.filter is_numeric_text smp) in
          if Qlt_bool (1 # 2)
               (inject_Z (Z.of_nat numeric_count) / inject_Z (Z.of_nat (length smp)))%Q
          then ret (ColumnTypes (id_column ct) (category_columns ct)
                      (numeric_columns ct ++ [col]))
          else ret (ColumnTypes (id_column ct) (category_columns ct ++ [col])
                      (numeric_columns ct))
  end.

Definition detect_column_types (df : ref) : M column_types :=
  d <- deref df ;;
  ct <- foldM (detect_column d) (df_columns d) (ColumnTypes None [] []) ;;
  match id_column ct, df_columns d with
  | None, first :: _ => ret (ColumnTypes (Some first) (category_columns ct) (numeric_columns ct))
  | _, _ => ret ct
  end.

Record metadata : Type := {
  md_column_types : column_types;
  md_validation_warnings : list string;
  md_total_rows : Z;
  md_total_columns : Z
}.

(** The body of the loop of [process_dynamic_csv]: the column [col] of the
    frame [df] is normalised and imputed in place; the warnings are
    appended to [validation_warnings]. *)
Definition process_column (df : ref) (validation_warnings : list string) (col : string)
  : M (list string) :=
  original_col <- getitem df col ;;
  parsed <- getitem df col ;;
  setitem df col (map (fun v => cell_of_float (extract_numeric_value v)) parsed) ;;;
  now <- getitem df col ;;
  let failed_count := na_count now - na_count original_col in
  let validation_warnings :=
    if 0 <? failed_count
    then validation_warnings
           ++ [(col ++ ": " ++ str_of_Z failed_count ++ " values could not be parsed")%string]
    else validation_warnings in
  now <- getitem df col ;;
  if existsb isna now then
    match series_mean now with
    | FNum mean_val =>
        setitem df col (fillna (FNum mean_val) now) ;;;
        ret (validation_warnings
               ++ [(col ++ ": Missing values filled with mean (" ++ format_2f mean_val ++ ")")%string])
    | _ => ret validation_warnings
    end
  else ret validation_warnings.

Definition process_dynamic_csv (df : ref) : M (ref * metadata) :=
  column_types <- detect_column_types df ;;
  validation_warnings <- foldM (process_column df) (numeric_columns column_types) [] ;;
  d <- deref df ;;
  df' <- alloc (dropna_all d) ;;
  d' <- deref df' ;;
  ret (df', {| md_column_types := column_types;
               md_validation_warnings := validation_warnings;
               md_total_rows := Z.of_nat (df_len d');
               md_total_columns := Z.of_nat (length (df_columns d')) |}).

(** [stats[col] = v] on a dict kept in insertion order. *)
Fixpoint dict_set {V} (d : list (string * V)) (k : string) (v : V) : list (string * V) :=
  match d with
  | [] => [(k, v)]
  | (k', v') :: d' => if String.eqb k' k then (k', v) :: d' else (k', v') :: dict_set d' k v
  end.

(** The dict built for one column of [calculate_dynamic_statistics]. *)
Definition column_statistics (col_data : Series) : ColumnStats :=
  {| stat_mean := series_mean col_data;
     stat_min := series_min col_data;
     stat_max := series_max col_data;
     stat_std_dev := if (1 <? length col_data)%nat then series_std col_data else FNum 0;
     stat_median := series_median col_data;
     stat_count := Z.of_nat (length col_data) |}.

Definition calculate_dynamic_statistics (df : ref) (numeric_columns : list string)
  : M (list (string * ColumnStats)) :=
  d <- deref df ;;
  foldM (fun stats col =>
           match df_get d col with
           | Some s =>
               let col_data := dropna s in
               if (0 <? length col_data)%nat
               then ret (dict_set stats col (column_statistics col_data))
               else ret stats
           | None => ret stats
           end)
        numeric_columns [].

Inductive chart : Type :=
| Bar (title : string) (columns : list string) (description : string)
| Pie (title : string) (column : string) (description : string)
| Scatter (title : string) (x_column y_column : string) (description : string).

(** [create_visualizations_config]; its second parameter, the sample rows,
    is not read by the function. *)
Definition create_visualizations_config (ct : column_types) : list chart :=
  let visualizations := [] in
  let visualizations :=
    match numeric_columns ct with
    | [] => visualizations
    | _ :: _ => visualizations ++
        [Bar "Average Values Comparison" (firstn 6 (numeric_columns ct))
             "Comparison of average values across numeric fields"]
    end in
  let visualizations :=
    match category_columns ct with
    | [] => visualizations
    | main_category :: _ => visualizations ++
        [Pie (main_category ++ " Distribution") main_category
             ("Distribution of records by " ++ main_category)]
    end in
  match numeric_columns ct with
  | x :: y :: _ => visualizations ++
      [Scatter "Correlation Analysis" x y "Relationship between key numeric variables"]
  | _ => visualizations
  end.

(** ** The [Dataset] table *)

(** [Dataset.objects.create(...)]: the row gets the next key and the time
    of the database clock; the clock has moved on by the next creation. *)
Definition Dataset_objects_create (name : string) (total_count : Z)
    (column_structure : option column_types) (statistics : list (string * ColumnStats))
    (avg_flowrate avg_pressure avg_temperature : option pyfloat) : M Dataset :=
  fun w =>
    let d := {| pk := next_pk w; name := name; uploaded_at := clock w;
                total_count := total_count; column_structure := column_structure;
                statistics := statistics; avg_flowrate := avg_flowrate;
                avg_pressure := avg_pressure; avg_temperature := avg_temperature |} in
    (Ok d, World (heap w) (rng w) (datasets w ++ [d]) (S (next_pk w)) (clock w + 1)).

(** [Meta.ordering = ['-uploaded_at']]: newest first. *)
Fixpoint insert_by_uploaded_at (d : Dataset) (ds : list Dataset) : list Dataset :=
  match ds with
  | [] => [d]
  | e :: ds' =>
      if uploaded_at e <? uploaded_at d then d :: ds
      else e :: insert_by_uploaded_at d ds'
  end.

Definition order_by_uploaded_at_desc (ds : list Dataset) : list Dataset :=
  fold_right insert_by_uploaded_at [] ds.

(** [Dataset.objects.all()] *)
Definition Dataset_objects_all : M (list Dataset) :=
  fun w => (Ok (order_by_uploaded_at_desc (datasets w)), w).

(** [old_dataset.delete()] *)
Definition Dataset_delete (old_dataset : Dataset) : M unit :=
  fun w =>
    (Ok tt, World (heap w) (rng w)
              (List.filter (fun d => negb (pk d =? pk old_dataset)%nat) (datasets w))
              (next_pk w) (clock w)).

(** ** [views.py] *)

Inductive decoded : Type :=
| Table (df : DataFrame)
| EmptyDataError
| UnicodeDecodeError.

(** An uploaded file: its name, its size in bytes and what
    [pd.read_csv] makes of its content. *)
Record csv_file : Type := {
  file_name : string;
  file_size : Z;
  file_read_csv : decoded
}.

Record Stats5 : Type := {
  fs_mean : pyfloat;
  fs_min : pyfloat;
  fs_max : pyfloat;
  fs_std : pyfloat;
  fs_median : pyfloat
}.

Record upload_stats : Type := {
  flowrate : Stats5;
  pressure : Stats5;
  temperature : Stats5
}.

Inductive pyobj : Type :=
| PNone
| PBool (b : bool)
| PInt (z : Z)
| PStr (s : string)
| PStrList (l : list string)
| PColumnTypes (ct : column_types).

Inductive Response : Type :=
| Response400 (error : string) (details : option string)
| Response400_validation (validation_errors : list string)
    (validation_warnings : option (list string))
| Response201 (dataset : Dataset) (stats : upload_stats) (warnings : option (list string))
| Response201_dynamic (dataset_id : nat) (dataset_name : string) (total_records : Z)
    (id_columns : pyobj) (category_columns numeric_columns : list string)
    (total_columns : Z) (statistics : list (string * ColumnStats))
    (visualizations : list chart) (warnings : pyobj).

Definition ends_with (suffix s : string) : bool :=
  starts_with (rev (lit suffix)) (rev (lit s)).

Fixpoint join (sep : string) (xs : list string) : string :=
  match xs with
  | [] => ""
  | [x] => x
  | x :: xs' => x ++ sep ++ join sep xs'
  end%string.

Definition str_mem (x : string) (xs : list string) : bool := existsb (String.eqb x) xs.

(** [pd.to_numeric(s, errors='coerce')].  In [upload] the columns it is
    applied to hold floats already; a text that is a number as a whole is
    converted, any other text becomes [nan]. *)
Definition to_numeric_coerce (s : Series) : Series :=
  map (fun c =>
         match c with
         | Str t =>
             let t' := str_strip (lit t) in
             match re_match_here t' with
             | Some m => if chars_eqb m t' then Num (py_float m) else NaN
             | None => NaN
             end
         | _ => c
         end) s.

Definition is_numeric_dtype (s : Series) : bool :=
  forallb (fun c => match c with Str _ => false | _ => true end) s.

(** [(s < x).any()] and [(s > x).any()]; a comparison with [nan] is false. *)
Definition any_lt (s : Series) (x : Q) : bool :=
  existsb (fun c => match c with Num q => Qlt_bool q x | _ => false end) s.
Definition any_gt (s : Series) (x : Q) : bool :=
  existsb (fun c => match c with Num q => Qlt_bool x q | _ => false end) s.

(** [(s.astype(str).str.strip() == '').any()]: the text of a number and of
    the missing marker is never blank. *)
Definition any_blank (s : Series) : bool :=
  existsb (fun c => match c with
                    | Str t => chars_eqb (str_strip (lit t)) []
                    | _ => false
                    end) s.

Definition required_columns : list string :=
  ["Equipment Name"; "Type"; "Flowrate"; "Pressure"; "Temperature"]%string.

Definition upload_numeric_columns : list string :=
  ["Flowrate"; "Pressure"; "Temperature"]%string.

(** One range check of [upload]: the column is looked at when it exists and
    is numeric; the messages of the violated bounds are appended. *)
Definition check_range (d : DataFrame) (col : string) (lo : Q) (lo_msg : string)
    (hi : Q) (hi_msg : string) (validation_errors : list string) : list string :=
  match df_get d col with
  | Some s =>
      if is_numeric_dtype s then
        let validation_errors :=
          if any_lt s lo then validation_errors ++ [lo_msg] else validation_errors in
        if any_gt s hi then validation_errors ++ [hi_msg] else validation_errors
      else validation_errors
  | None => validation_errors
  end.

Definition check_blank (d : DataFrame) (col : string) (msg : string)
    (validation_errors : list string) : list string :=
  match df_get d col with
  | Some s => if any_blank s then validation_errors ++ [msg] else validation_errors
  | None => validation_errors
  end.

(** The float literal [-273.15]. *)
Definition absolute_zero : Q := nearest_double (-27315 # 100).

Definition degree : string := String (ascii_of_nat 194) (String (ascii_of_nat 176) "C").

(** The checks of [upload] on the cleaned frame, in the order of the source. *)
Definition validate (d : DataFrame) : list string :=
  let validation_errors := [] in
  let validation_errors :=
    check_range d "Flowrate" 0 "Flowrate cannot be negative"
      10000 "Flowrate exceeds maximum allowed value (10000)" validation_errors in
  let validation_errors :=
    check_range d "Pressure" 0 "Pressure cannot be negative"
      1000 "Pressure exceeds maximum allowed value (1000)" validation_errors in
  let validation_errors :=
    check_range d "Temperature" absolute_zero
      ("Temperature cannot be below absolute zero (-273.15" ++ degree ++ ")")
      5000 ("Temperature exceeds maximum allowed value (5000" ++ degree ++ ")")
      validation_errors in
  let validation_errors :=
    check_blank d "Equipment Name" "Equipment Name cannot be empty" validation_errors in
  check_blank d "Type" "Equipment Type cannot be empty" validation_errors.

Definition stats5 (s : Series) : Stats5 :=
  {| fs_mean := series_mean s; fs_min := series_min s; fs_max := series_max s;
     fs_std := series_std s; fs_median := series_median s |}.

Definition str_of_exn (e : exn) : string :=
  match e with
  | KeyError k => "'" ++ k ++ "'"
  | TypeError t => t
  | ValueError t => t
  | IntegrityError t => t
  end.

(** [float(row[col])] on a cell of a row. *)
Definition float_of_cell (c : cell) : M cell :=
  match c with
  | Str _ => raise (ValueError "could not convert string to float")
  | _ => ret c
  end.

(** [Equipment.objects.create(...)] for one row.  The three measurements
    are float columns that do not accept NULL, and the database (SQLite)
    stores [nan] as NULL: a row with a missing measurement is refused with
    an [IntegrityError].  The rows written are not kept in the model. *)
Definition Equipment_objects_create (flowrate pressure temperature : cell) : M unit :=
  if isna flowrate then
    raise (IntegrityError "NOT NULL constraint failed: equipment_equipment.flowrate")
  else if isna pressure then
    raise (IntegrityError "NOT NULL constraint failed: equipment_equipment.pressure")
  else if isna temperature then
    raise (IntegrityError "NOT NULL constraint failed: equipment_equipment.temperature")
  else ret tt.

(** [for idx, row in df.iterrows(): Equipment.objects.create(...)] *)
Definition create_equipment_records (fl pr te : Series) (rows : nat) : M unit :=
  for_each (seq 0 rows)
    (fun idx =>
       flowrate <- float_of_cell (nth idx fl NaN) ;;
       pressure <- float_of_cell (nth idx pr NaN) ;;
       temperature <- float_of_cell (nth idx te NaN) ;;
       Equipment_objects_create flowrate pressure temperature).

(** The part of [upload] that parses and imputes the frame [df] refers to;
    it returns the frame the rest of the view works on and the warnings, or
    the response of an early return. *)
Definition upload_clean (df : ref) : M (Response + ref * list string) :=
  for_each upload_numeric_columns
    (fun col => v <- getitem df col ;;
                setitem df col (map (fun c => cell_of_float (extract_numeric_value c)) v)) ;;;
  d <- deref df ;;
  df <- alloc (dropna_subset_all d upload_numeric_columns) ;;
  d <- deref df ;;
  if df_empty d then
    ret (inl (Response400 "CSV file contains no valid numeric data after parsing" None))
  else
    validation_warnings <-
      foldM (fun validation_warnings col =>
               v <- getitem df col ;;
               let null_count := na_count v in
               if 0 <? null_count then
                 setitem df col (fillna (series_mean v) v) ;;;
                 ret (validation_warnings
                        ++ [(col ++ " has " ++ str_of_Z null_count
                             ++ " missing or unparseable value(s) - rows will use average")%string])
               else ret validation_warnings)
            upload_numeric_columns [] ;;
    for_each upload_numeric_columns
      (fun col => v <- getitem df col ;; setitem df col (to_numeric_coerce v)) ;;;
    ret (inr (df, validation_warnings)).

Definition option_of_list {A} (l : list A) : option (list A) :=
  match l with
  | [] => None
  | _ :: _ => Some l
  end.

Definition upload_body (csv_file : csv_file) : M Response :=
  match file_read_csv csv_file with
  | EmptyDataError => ret (Response400 "CSV file is empty or corrupted" None)
  | UnicodeDecodeError =>
      ret (Response400 "File encoding error. Please ensure the file is UTF-8 encoded" None)
  | Table t =>
      df <- alloc t ;;
      d <- deref df ;;
      if df_empty d then ret (Response400 "CSV file is empty" None)
      else
        let missing_columns :=
          List.filter (fun col => negb (str_mem col (df_columns d))) required_columns in
        match missing_columns with
        | _ :: _ =>
            ret (Response400 ("CSV is missing required columns: " ++ join ", " missing_columns)
                   None)
        | [] =>
            cleaned <- upload_clean df ;;
            match cleaned with
            | inl response => ret response
            | inr (df, validation_warnings) =>
                d <- deref df ;;
                let validation_errors := validate d in
                match validation_errors with
                | _ :: _ =>
                    ret (Response400_validation validation_errors
                           (option_of_list validation_warnings))
                | [] =>
                    let total_count := Z.of_nat (df_len d) in
                    fl <- getitem df "Flowrate" ;;
                    pr <- getitem df "Pressure" ;;
                    te <- getitem df "Temperature" ;;
                    let stats := {| flowrate := stats5 fl; pressure := stats5 pr;
                                    temperature := stats5 te |} in
                    dataset <- Dataset_objects_create (file_name csv_file) total_count
                                 None []
                                 (Some (fs_mean (flowrate stats)))
                                 (Some (fs_mean (pressure stats)))
                                 (Some (fs_mean (temperature stats))) ;;
                    create_equipment_records fl pr te (df_len d) ;;;
                    all <- Dataset_objects_all ;;
                    let old_datasets := skipn 5 all in
                    for_each old_datasets Dataset_delete ;;;
                    ret (Response201 dataset stats (option_of_list validation_warnings))
                end
            end
        end
  end.

(** [DatasetViewSet.upload]; [request_file] is [request.FILES.get('file')]. *)
Definition upload (request_file : option csv_file) : M Response :=
  match request_file with
  | None => ret (Response400 "No file provided" None)
  | Some csv_file =>
      if negb (ends_with ".csv" (file_name csv_file)) then
        ret (Response400 "File must be CSV format" None)
      else if 10 * 1024 * 1024 <? file_size csv_file then
        ret (Response400 "File size must be less than 10MB" None)
      else
        try_except (upload_body csv_file)
          (fun e => ret (Response400 "Failed to process CSV file" (Some (str_of_exn e))))
  end.

(** The dict [process_dynamic_csv] returns has the four keys of [metadata];
    subscripting with any other key raises [KeyError]. *)
Definition metadata_getitem (md : metadata) (key : string) : M pyobj :=
  if String.eqb key "column_types" then ret (PColumnTypes (md_column_types md))
  else if String.eqb key "validation_warnings" then ret (PStrList (md_validation_warnings md))
  else if String.eqb key "total_rows" then ret (PInt (md_total_rows md))
  else if String.eqb key "total_columns" then ret (PInt (md_total_columns md))
  else raise (KeyError key).

(** [metadata.get(key, default)] *)
Definition metadata_get (md : metadata) (key : string) (default : pyobj) : M pyobj :=
  try_except (metadata_getitem md key) (fun _ => ret default).

(** Subscripting the dict [detect_column_types] returns. *)
Definition column_types_getitem (ct : column_types) (key : string) : M pyobj :=
  if String.eqb key "id_column"
  then ret (match id_column ct with Some c => PStr c | None => PNone end)
  else if String.eqb key "category_columns" then ret (PStrList (category_columns ct))
  else if String.eqb key "numeric_columns" then ret (PStrList (numeric_columns ct))
  else raise (KeyError key).

Definition truthy (o : pyobj) : bool :=
  match o with
  | PNone => false
  | PBool b => b
  | PInt z => negb (z =? 0)
  | PStr s => negb (String.eqb s "")
  | PStrList l => negb (length l =? 0)%nat
  | PColumnTypes _ => true
  end.

Definition as_column_types (o : pyobj) : M column_types :=
  match o with
  | PColumnTypes ct => ret ct
  | _ => raise (TypeError "not subscriptable")
  end.

Definition as_str_list (o : pyobj) : M (list string) :=
  match o with
  | PStrList l => ret l
  | _ => raise (TypeError "not a list")
  end.

Definition as_str (o : pyobj) : M string :=
  match o with
  | PStr s => ret s
  | _ => raise (TypeError "not a string")
  end.

Definition upload_dynamic_body (csv_file : csv_file) : M Response :=
  match file_read_csv csv_file with
  | EmptyDataError => ret (Response400 "CSV file is empty or corrupted" None)
  | UnicodeDecodeError =>
      ret (Response400 "File encoding error. Please ensure the file is UTF-8 encoded" None)
  | Table t =>
      df <- alloc t ;;
      d <- deref df ;;
      if df_empty d then ret (Response400 "CSV file is empty" None)
      else
        processed <- process_dynamic_csv df ;;
        let '(processed_df, metadata) := processed in
        is_valid <- metadata_getitem metadata "is_valid" ;;
        if negb (truthy is_valid) then
          details <- metadata_get metadata "error"
                       (PStr "Unable to detect valid data structure") ;;
          details <- as_str details ;;
          ret (Response400 "Invalid CSV structure" (Some details))
        else
          column_types <- metadata_getitem metadata "column_types" ;;
          column_types <- as_column_types column_types ;;
          numeric <- column_types_getitem column_types "numeric_columns" ;;
          numeric <- as_str_list numeric ;;
          statistics <- calculate_dynamic_statistics processed_df numeric ;;
          let visualizations := create_visualizations_config column_types in
          pd <- deref processed_df ;;
          dataset <- Dataset_objects_create (file_name csv_file) (Z.of_nat (df_len pd))
                       (Some column_types) statistics None None None ;;
          id_columns <- column_types_getitem column_types "id_columns" ;;
          category <- column_types_getitem column_types "category_columns" ;;
          category <- as_str_list category ;;
          numeric <- column_types_getitem column_types "numeric_columns" ;;
          numeric <- as_str_list numeric ;;
          d <- deref df ;;
          warnings <- metadata_get metadata "warnings" (PStrList []) ;;
          ret (Response201_dynamic (pk dataset) (name dataset) (Z.of_nat (df_len pd))
                 id_columns category numeric (Z.of_nat (length (df_columns d)))
                 statistics visualizations warnings)
  end.

(** [DatasetViewSet.upload_dynamic] *)
Definition upload_dynamic (request_file : option csv_file) : M Response :=
  match request_file with
  | None => ret (Response400 "No file provided" None)
  | Some csv_file =>
      if negb (ends_with ".csv" (file_name csv_file)) then
        ret (Response400 "File must be CSV format" None)
      else if 10 * 1024 * 1024 <? file_size csv_file then
        ret (Response400 "File size must be less than 10MB" None)
      else
        try_except (upload_dynamic_body csv_file)
          (fun e => ret (Response400 "Failed to process CSV file" (Some (str_of_exn e))))
  end.

(** ** The language of the pattern

    The texts the pattern [-?\d+\.?\d*] matches, in the terms of the
    matcher above; the properties below use it to reason about
    [re_search]. *)
Inductive re_number : chars -> Prop :=
| re_number_intro (sign ds dot fs : chars) :
    sign = [] \/ sign = ["-"%char] ->
    ds <> [] ->
    forallb is_digit ds = true ->
    dot = [] \/ dot = ["."%char] ->
    forallb is_digit fs = true ->
    re_number (sign ++ ds ++ dot ++ fs).

(** The same without the sign. *)
Definition re_unsigned_number (u : chars) : Prop :=
  exists ds dot fs,
    u = ds ++ dot ++ fs /\ ds <> [] /\ forallb is_digit ds = true
    /\ (dot = [] \/ dot = ["."%char]) /\ forallb is_digit fs = true.

(** [m] is the first match in [t] from the left: no match starts earlier,
    and none that starts at the same place is longer. *)
Definition first_match (t m : chars) : Prop :=
  exists pre post,
    t = pre ++ m ++ post /\ re_number m /\
    forall pre' m' post',
      t = pre' ++ m' ++ post' -> re_number m' ->
      (length pre <= length pre')%nat /\
      (length pre' = length pre -> (length m' <= length m)%nat).

Definition no_match (t : chars) : Prop :=
  forall pre m post, t = pre ++ m ++ post -> ~ re_number m.

Definition sentinels : list chars :=
  map lit ["n/a"; "na"; "none"; "null"; ""; "ambient"; "room temp"; "atmospheric"]%string.

(** Case-insensitive equality with a sentinel, after trimming. *)
Definition is_sentinel (s : string) : Prop :=
  In (str_lower (str_strip (lit s))) sentinels.

(** ** The normalizer as the specification words it

    Whitespace, letter case, digits and the value of a number are written
    out here on their own, without the functions of the embedding; only
    [nearest_double], the meaning of "as a float", is shared. *)

(** TAB, LF, VT, FF, CR, FS, GS, RS, US and the blank. *)
Definition whitespace : chars :=
  map ascii_of_nat [9; 10; 11; 12; 13; 28; 29; 30; 31; 32]%nat.

(** [t'] is [t] trimmed: [t] without the whitespace at its two ends. *)
Definition trimmed (t t' : chars) : Prop :=
  exists l r,
    t = l ++ t' ++ r
    /\ Forall (fun c => In c whitespace) l
    /\ Forall (fun c => In c whitespace) r
    /\ (forall c, head t' = Some c -> ~ In c whitespace)
    /\ (forall c, head (rev t') = Some c -> ~ In c whitespace).

(** The same character, or the same letter in the other case. *)
Definition same_letter (a b : ascii) : Prop :=
  a = b
  \/ exists k, (k < 26)%nat
       /\ ((nat_of_ascii a = 65 + k /\ nat_of_ascii b = 97 + k)
           \/ (nat_of_ascii a = 97 + k /\ nat_of_ascii b = 65 + k))%nat.

Definition sentinel_words : list string :=
  ["n/a"; "na"; "none"; "null"; ""; "ambient"; "room temp"; "atmospheric"]%string.

(** Equal to a sentinel, case-insensitively. *)
Definition sentinel_text (t : chars) : Prop :=
  exists w, In w sentinel_words /\ Forall2 same_letter t (list_ascii_of_string w).

Definition decimal_digits : chars := list_ascii_of_string "0123456789".

Fixpoint place (c : ascii) (l : chars) : option nat :=
  match l with
  | [] => None
  | x :: l' => if Ascii.eqb x c then Some 0%nat else option_map S (place c l')
  end.

(** The value of a digit is its place in "0123456789". *)
Definition digit_value (c : ascii) : option Z :=
  option_map Z.of_nat (place c decimal_digits).

(** The number a run of digits denotes, most significant digit first;
    [None] when a character is no digit. *)
Fixpoint decimal (ds : chars) : option Z :=
  match ds with
  | [] => Some 0
  | c :: ds' =>
      match digit_value c, decimal ds' with
      | Some v, Some n => Some (v * 10 ^ Z.of_nat (length ds') + n)
      | _, _ => None
      end
  end.

(** [number_text m neg q]: the text [m] is an optional minus sign (there
    when [neg]), digits, and an optional decimal fraction (a point and
    digits, possibly none); [q] is the magnitude of the number it writes. *)
Inductive number_text : chars -> bool -> Q -> Prop :=
| number_text_whole (neg : bool) (ds : chars) (n : Z) :
    ds <> [] -> decimal ds = Some n ->
    number_text ((if neg then ["-"%char] else []) ++ ds) neg (inject_Z n)
| number_text_fraction (neg : bool) (ds fs : chars) (n f : Z) :
    ds <> [] -> decimal ds = Some n -> decimal fs = Some f ->
    number_text ((if neg then ["-"%char] else []) ++ ds ++ "."%char :: fs) neg
      (inject_Z n + (f # Z.to_pos (10 ^ Z.of_nat (length fs))))%Q.

Definition number_shaped (m : chars) : Prop := exists neg q, number_text m neg q.

(** [m] is the first number in [t] from the left: none starts earlier, and
    none that starts at the same place is longer. *)
Definition first_number (t m : chars) : Prop :=
  exists pre post,
    t = pre ++ m ++ post /\ number_shaped m /\
    forall pre' m' post',
      t = pre' ++ m' ++ post' -> number_shaped m' ->
      (length pre <= length pre')%nat /\
      (length pre' = length pre -> (length m' <= length m)%nat).

Definition no_number (t : chars) : Prop :=
  forall pre m post, t = pre ++ m ++ post -> ~ number_shaped m.

(** The float a number text is parsed as. *)
Definition float_of (neg : bool) (q : Q) : Q :=
  if neg then Qopp (nearest_double q) else nearest_double q.

Inductive normalize : cell -> option Q -> Prop :=
| normalize_missing : normalize NaN None
| normalize_number (q : Q) : normalize (Num q) (Some q)
| normalize_sentinel (s : string) (t : chars) :
    trimmed (list_ascii_of_string s) t -> sentinel_text t ->
    normalize (Str s) None
| normalize_first_number (s : string) (t m : chars) (neg : bool) (q : Q) :
    trimmed (list_ascii_of_string s) t -> ~ sentinel_text t ->
    first_number t m -> number_text m neg q ->
    normalize (Str s) (Some (float_of neg q))
| normalize_no_number (s : string) (t : chars) :
    trimmed (list_ascii_of_string s) t -> ~ sentinel_text t -> no_number t ->
    normalize (Str s) None.

(** Every character is an ASCII character. *)
Definition ascii_text (s : string) : bool :=
  forallb (fun c => (nat_of_ascii c <? 128)%nat) (list_ascii_of_string s).

(** The cells the embedding renders as Python has them: the missing
    marker, float cells, and ASCII texts short enough for every number in
    them to be within the floats. *)
Definition plain_cell (c : cell) : Prop :=
  match c with
  | NaN => True
  | Num q => is_double q = true
  | Str s => ascii_text s = true /\ (String.length s <= 308)%nat
  end.

(** ** Tables used in the scenarios *)

Definition sensors : DataFrame :=
  [("SensorID", [Str "S1"; Str "S2"]);
   ("Zone", [Str "north"; Str "south"]);
   ("Reading1", [Num 1; Num 2]);
   ("Reading2", [Str "3.5 V"; Str "4.5 V"])]%string.

Definition upload_of (file_name : string) (t : DataFrame) : option csv_file :=
  Some {| file_name := file_name; file_size := 1024; file_read_csv := Table t |}.

Definition fresh_world : world := World [] [] [] 1 0.

Definition pumps : DataFrame :=
  [("Equipment Name", [Str "Pump-1"; Str "Pump-2"]);
   ("Type", [Str "Pump"; Str "Pump"]);
   ("Flowrate", [Str "120 L/min"; Str "N/A"]);
   ("Pressure", [Str "45 psi"; Str "50"]);
   ("Temperature", [Str "80C"; Str "90"])]%string.

(** [pumps] as [pd.read_csv] delivers it: "N/A" is read as the missing
    marker. *)
Definition pumps_read : DataFrame :=
  [("Equipment Name", [Str "Pump-1"; Str "Pump-2"]);
   ("Type", [Str "Pump"; Str "Pump"]);
   ("Flowrate", [Str "120 L/min"; NaN]);
   ("Pressure", [Str "45 psi"; Str "50"]);
   ("Temperature", [Str "80C"; Str "90"])]%string.

Definition one_pump : DataFrame :=
  [("Equipment Name", [Str "Pump-1"]);
   ("Type", [Str "Pump"]);
   ("Flowrate", [Num 120]);
   ("Pressure", [Num 45]);
   ("Temperature", [Num 80])]%string.

(** The rows of a file whose first row has an empty name field, as
    [pd.read_csv] delivers them: the empty field is the missing marker. *)
Definition nameless : DataFrame :=
  [("Equipment Name", [NaN; Str "Pump-2"]);
   ("Type", [Str "Pump"; Str "Pump"]);
   ("Flowrate", [Num 120; Num 130]);
   ("Pressure", [Num 45; Num 50]);
   ("Temperature", [Num 80; Num 90])]%string.

(** The same rows with a first name of two blanks, which [pd.read_csv]
    keeps as text. *)
Definition blank_name : DataFrame :=
  [("Equipment Name", [Str "  "; Str "Pump-2"]);
   ("Type", [Str "Pump"; Str "Pump"]);
   ("Flowrate", [Num 120; Num 130]);
   ("Pressure", [Num 45; Num 50]);
   ("Temperature", [Num 80; Num 90])]%string.

(** The sample variance of the specification: the squared deviations from
    the mean, summed and divided by [n - 1]. *)
Definition sample_variance (xs : list Q) : Q :=
  let m := (Qsum xs / Qlen xs)%Q in
  Qred (Qsum (map (fun x => (x - m) * (x - m))%Q xs)
        / inject_Z (Z.of_nat (length xs - 1)))%Q.

(** The checks of the validation policy with their messages; a check is
    violated when its column is there, numeric, and out of the bound. *)
Definition violates_lt (d : DataFrame) (col : string) (x : Q) : bool :=
  match df_get d col with
  | Some s => is_numeric_dtype s && any_lt s x
  | None => false
  end.

Definition violates_gt (d : DataFrame) (col : string) (x : Q) : bool :=
  match df_get d col with
  | Some s => is_numeric_dtype s && any_gt s x
  | None => false
  end.

Definition violates_blank (d : DataFrame) (col : string) : bool :=
  match df_get d col with
  | Some s => any_blank s
  | None => false
  end.

Definition checks (d : DataFrame) : list (bool * string) :=
  [(violates_lt d "Flowrate" 0, "Flowrate cannot be negative");
   (violates_gt d "Flowrate" 10000, "Flowrate exceeds maximum allowed value (10000)");
   (violates_lt d "Pressure" 0, "Pressure cannot be negative");
   (violates_gt d "Pressure" 1000, "Pressure exceeds maximum allowed value (1000)");
   (violates_lt d "Temperature" absolute_zero,
    "Temperature cannot be below absolute zero (-273.15" ++ degree ++ ")");
   (violates_gt d "Temperature" 5000,
    "Temperature exceeds maximum allowed value (5000" ++ degree ++ ")");
   (violates_blank d "Equipment Name", "Equipment Name cannot be empty");
   (violates_blank d "Type", "Equipment Type cannot be empty")]%string.

Definition violated (d : DataFrame) : list string :=
  map snd (List.filter fst (checks d)).

(** ** Effects on the [Dataset] table *)

(** [db_pure m]: running [m] leaves the database as it found it. *)
Definition same_db (w w' : world) : Prop :=
  datasets w' = datasets w /\ next_pk w' = next_pk w /\ clock w' = clock w.

Definition db_pure {A} (m : M A) : Prop := forall w, same_db w (snd (m w)).

(** [heap_len_pure m]: running [m] allocates nothing. *)
Definition heap_len_pure {A} (m : M A) : Prop :=
  forall w, length (heap (snd (m w))) = length (heap w).

(** ** The [Dataset] table in a well-formed state *)

(** Keys are unique and below the next key; every row was created before
    the present time of the database clock. *)
Definition store_ok (w : world) : Prop :=
  NoDup (map pk (datasets w))
  /\ Forall (fun d => (pk d < next_pk w)%nat /\ uploaded_at d < clock w) (datasets w).

(** The rows of [ds] without those whose key is the key of a row in [old]:
    what deleting the rows of [old] one by one leaves. *)
Definition without (old ds : list Dataset) : list Dataset :=
  List.filter (fun d => negb (existsb (fun o => (pk d =? pk o)%nat) old)) ds.

(** [ds] is ordered newest first. *)
Fixpoint newest_first (ds : list Dataset) : Prop :=
  match ds with
  | [] => True
  | d :: ds' => Forall (fun e => uploaded_at e <= uploaded_at d) ds' /\ newest_first ds'
  end.

(** The state after [n] uploads of [pumps], one after the other. *)
Definition ingest (n : nat) (w : world) : world :=
  Nat.iter n (fun w => snd (upload (upload_of "pumps.csv" pumps) w)) w.

Definition five_world : world := Eval vm_compute in ingest 5 fresh_world.

(** ** The schema detector as the specification words it *)

Definition all_missing (s : Series) : bool := forallb isna s.

Definition has_keyword (col : string) : bool :=
  existsb (fun keyword => str_in keyword (str_lower (lit col))) id_keywords.

Definition keyword_test (cs : string * Series) : bool :=
  negb (all_missing (snd cs)) && has_keyword (fst cs).

(** The first column that is not entirely missing and whose lower-cased
    name contains an identifier keyword. *)
Definition keyword_column (d : DataFrame) : option (string * Series) :=
  find keyword_test d.

Definition is_keyword_column (d : DataFrame) (col : string) : bool :=
  match keyword_column d with
  | Some (c, _) => String.eqb col c
  | None => false
  end.

(** The columns the detector samples: those with a value that were not
    taken as the identifier for their name. *)
Definition sampled_columns (d : DataFrame) : list string :=
  map fst (List.filter (fun cs => negb (all_missing (snd cs))
                                  && negb (is_keyword_column d (fst cs))) d).

Definition detector_spec (d : DataFrame) (ct : column_types) : Prop :=
  id_column ct = match keyword_column d with
                 | Some (c, _) => Some c
                 | None => head (df_columns d)
                 end
  /\ Permutation (category_columns ct ++ numeric_columns ct) (sampled_columns d).

(** In how many of the classes Identifier, Categorical, Numeric the column
    [col] is. *)
Definition class_count (ct : column_types) (col : string) : nat :=
  (match id_column ct with
   | Some c => if String.eqb c col then 1 else 0
   | None => 0
   end
   + length (List.filter (String.eqb col) (category_columns ct))
   + length (List.filter (String.eqb col) (numeric_columns ct)))%nat.

Definition zones : DataFrame :=
  [("Zone", [Str "north"; Str "south"]); ("Reading", [Num 1; Num 2])]%string.

Definition with_heap (h : list DataFrame) : world := World h [] [] 1 0.

Definition is_set (o : option string) : bool :=
  match o with
  | Some _ => true
  | None => false
  end.

(** The columns [detect_column] adds to the two lists over the columns [l],
    [id_set] telling whether the identifier was found before. *)
Fixpoint others (id_set : bool) (l : DataFrame) : list string :=
  match l with
  | [] => []
  | (c, s) :: l' =>
      if all_missing s then others id_set l'
      else if negb id_set && has_keyword c then others true l'
      else c :: others id_set l'
  end.

(** Six cells, three of them numeric: the class of "B" depends on which
    five are sampled. *)
Definition mixed : DataFrame :=
  [("id", [Str "a"; Str "b"; Str "c"; Str "d"; Str "e"; Str "f"]);
   ("B", [Str "1"; Str "2"; Str "3"; Str "x"; Str "y"; Str "z"])]%string.

(** ** The effect of [process_dynamic_csv], column by column *)

Definition set_heap (w : world) (h : list DataFrame) : world :=
  World h (rng w) (datasets w) (next_pk w) (clock w).

Definition parsed_column (s : Series) : Series :=
  map (fun v => cell_of_float (extract_numeric_value v)) s.

(** What [process_column] leaves in a column that held [s]. *)
Definition cleaned_column (s : Series) : Series :=
  let parsed := parsed_column s in
  if existsb isna parsed then
    match series_mean parsed with
    | FNum mean_val => fillna (FNum mean_val) parsed
    | _ => parsed
    end
  else parsed.

(** The warnings [process_column] adds for the column [col] that held [s]. *)
Definition column_warnings (col : string) (s : Series) : list string :=
  let parsed := parsed_column s in
  let failed_count := na_count parsed - na_count s in
  (if 0 <? failed_count
   then [(col ++ ": " ++ str_of_Z failed_count ++ " values could not be parsed")%string]
   else [])
  ++ (if existsb isna parsed then
        match series_mean parsed with
        | FNum mean_val =>
            [(col ++ ": Missing values filled with mean (" ++ format_2f mean_val ++ ")")%string]
        | _ => []
        end
      else []).

(** The frame [d] with the columns named in [cols] cleaned. *)
Definition clean_frame (cols : list string) (d : DataFrame) : DataFrame :=
  map (fun cs => if str_mem (fst cs) cols then (fst cs, cleaned_column (snd cs)) else cs) d.

Definition frame_warnings (cols : list string) (d : DataFrame) : list string :=
  flat_map (fun col => match df_get d col with
                       | Some s => column_warnings col s
                       | None => []
                       end) cols.

Definition is_number (c : cell) : bool :=
  match c with
  | Num _ => true
  | _ => false
  end.

(** [pumps_read] after a run of [process_dynamic_csv]. *)
Definition pumps_clean : DataFrame :=
  [("Equipment Name", [Str "Pump-1"; Str "Pump-2"]);
   ("Type", [Str "Pump"; Str "Pump"]);
   ("Flowrate", [Num 120; Num 120]);
   ("Pressure", [Num 45; Num 50]);
   ("Temperature", [Num 80; Num 90])]%string.

Definition cleaned_world : world :=
  Eval vm_compute in snd (process_dynamic_csv 0%nat (with_heap [pumps_read])).

(** [sampled_as d col numeric]: a sample of the non-missing cells of the
    column [col], as [detect_column] draws it, in which the cells that
    normalize to a number are a majority exactly when [numeric] holds. *)
Definition sampled_as (d : DataFrame) (col : string) (numeric : bool) : Prop :=
  exists s smp rest,
    df_get d col = Some s
    /\ Permutation (smp ++ rest) (dropna s)
    /\ length smp = Nat.min 5 (length (dropna s))
    /\ (0 < length smp)%nat
    /\ ((length smp < 2 * length (List.filter is_numeric_text smp))%nat <-> numeric = true).

(** ** The rest of [dynamic_csv_handler.py] and of the dataset views *)

(** The charts in the order the planner emits them. *)
Definition chart_rank (ch : chart) : nat :=
  match ch with
  | Bar _ _ _ => 0
  | Pie _ _ _ => 1
  | Scatter _ _ _ _ => 2
  end.

(** The columns a chart names are classified as the chart needs them. *)
Definition chart_ok (ct : column_types) (ch : chart) : Prop :=
  match ch with
  | Bar _ cols _ =>
      (1 <= length cols <= 6)%nat /\ cols = firstn 6 (numeric_columns ct)
  | Pie _ col _ => head (category_columns ct) = Some col
  | Scatter _ x y _ =>
      exists rest, numeric_columns ct = x :: y :: rest
  end.

(** The Django fields [generate_dynamic_model_fields] builds. *)
Inductive model_field : Type :=
| CharField (max_length : Z) (null : bool)
| FloatField (null : bool).

(** [d.get(k)] on a dict kept in insertion order. *)
Fixpoint dict_get {V} (d : list (string * V)) (k : string) : option V :=
  match d with
  | [] => None
  | (k', v) :: d' => if String.eqb k' k then Some v else dict_get d' k
  end.

(** [for col in cols: fields[col] = v] *)
Definition dict_set_all {V} (d : list (string * V)) (cols : list string) (v : V)
  : list (string * V) :=
  fold_left (fun fields col => dict_set fields col v) cols d.

Definition generate_dynamic_model_fields (ct : column_types)
  : list (string * model_field) :=
  let fields := [] in
  let fields :=
    match id_column ct with
    | Some c => if String.eqb c "" then fields else dict_set fields c (CharField 255 false)
    | None => fields
    end in
  let fields := dict_set_all fields (category_columns ct) (CharField 255 true) in
  dict_set_all fields (numeric_columns ct) (FloatField true).

(** What the read-only dataset views answer. *)
Inductive DatasetResponse : Type :=
| Listing (datasets : list Dataset)
| Detail (dataset : Dataset)
| NotFound (error : string).

(** [Dataset.objects.get(pk=pk)]; [None] stands for [Dataset.DoesNotExist]. *)
Definition Dataset_objects_get (key : nat) : M (option Dataset) :=
  fun w => (Ok (find (fun d => (pk d =? key)%nat) (datasets w)), w).

(** [DatasetViewSet.list] *)
Definition list_datasets : M DatasetResponse :=
  all <- Dataset_objects_all ;;
  ret (Listing (firstn 5 all)).

(** [DatasetViewSet.retrieve] *)
Definition retrieve (key : nat) : M DatasetResponse :=
  found <- Dataset_objects_get key ;;
  match found with
  | Some dataset => ret (Detail dataset)
  | None => ret (NotFound "Dataset not found")
  end.

(** ** Rows of a frame *)

(** Every column has the length of the frame. *)
Definition rectangular (d : DataFrame) : Prop :=
  Forall (fun cs => length (snd cs) = df_len d) d.

(** Row [i] holds a value in at least one column. *)
Definition row_has_value (d : DataFrame) (i : nat) : bool :=
  existsb (fun cs => negb (isna (nth i (snd cs) NaN))) d.

(** A frame with a row that holds no value. *)
Definition gappy : DataFrame :=
  [("Tag", [Str "inlet"; NaN; Str "outlet"]);
   ("Site", [Str "north"; NaN; NaN])]%string.

(** ** Accounts and the password reset by one-time code

    [models.py] ([PasswordResetOTP]) and the views of [auth_views.py] that
    use it.  Conventions of this part.
    - Of Django's [User] the identifier, the name, the address and the
      password are kept; [set_password] stores a hash that only the same
      password matches, so the field holds the password that was set.
    - The views are modelled for requests whose fields are absent or
      strings.  A string is the UTF-8 encoding of a text.
    - Exact lookups ([get(email=...)], [get(otp=...)]) compare strings for
      equality.
    - [timezone.now()] reads the clock of the site; the clock does not move
      while one request is served.  Times are in seconds.
    - Python's [random] module is the tape of the draws it will produce.
    - [send_mail] delivers when the mail server is up and raises otherwise.
    - Every statement of a view takes effect at once (no transaction spans
      the request), so what was written before an exception stays written. *)

Record User : Type := {
  user_id : nat;
  username : string;
  email : string;
  password : string
}.

(** A [PasswordResetOTP] object; [expires_at] is unset on an object that has
    not been saved. *)
Record PasswordResetOTP : Type := {
  otp_id : nat;
  otp_user : nat;
  otp : string;
  created_at : Z;
  expires_at : option Z;
  is_used : bool
}.

Record mail : Type := {
  mail_to : string;
  mail_username : string;
  mail_otp : string
}.

Record site : Type := Site {
  users : list User;
  otps : list PasswordResetOTP;
  next_otp_id : nat;
  time_now : Z;
  random_tape : list nat;
  mail_up : bool;
  outbox : list mail
}.

Inductive auth_exn : Type :=
| User_DoesNotExist
| OTP_DoesNotExist
| MultipleObjectsReturned
| SMTPException
| NoneComparison.

Inductive auth_outcome (A : Type) : Type :=
| Val (a : A)
| Exc (e : auth_exn).
Arguments Val {A} a.
Arguments Exc {A} e.

Definition Rq (A : Type) : Type := site -> auth_outcome A * site.

Definition aret {A} (a : A) : Rq A := fun s => (Val a, s).

Definition abind {A B} (m : Rq A) (k : A -> Rq B) : Rq B :=
  fun s =>
    match m s with
    | (Val a, s') => k a s'
    | (Exc e, s') => (Exc e, s')
    end.

Definition araise {A} (e : auth_exn) : Rq A := fun s => (Exc e, s).

Declare Scope auth_scope.
Delimit Scope auth_scope with auth.
Notation "x <- c1 ;; c2" := (abind c1 (fun x => c2))
  (at level 100, c1 at next level, right associativity) : auth_scope.
Notation "c1 ;;; c2" := (abind c1 (fun _ => c2))
  (at level 100, right associativity) : auth_scope.
Local Open Scope auth_scope.

Definition is_User_DoesNotExist (e : auth_exn) : bool :=
  match e with User_DoesNotExist => true | _ => false end.

Definition is_OTP_DoesNotExist (e : auth_exn) : bool :=
  match e with OTP_DoesNotExist => true | _ => false end.

Definition is_Exception (e : auth_exn) : bool := true.

(** [try: m  except cls: h] *)
Definition except_ {A} (m : Rq A) (cls : auth_exn -> bool) (h : Rq A) : Rq A :=
  fun s =>
    match m s with
    | (Val a, s') => (Val a, s')
    | (Exc e, s') => if cls e then h s' else (Exc e, s')
    end.

(** [try: x = m  except cls: return h], followed by [k x]. *)
Definition try_assign {A B} (m : Rq A) (cls : auth_exn -> bool) (h : Rq B)
    (k : A -> Rq B) : Rq B :=
  fun s =>
    match m s with
    | (Val a, s') => k a s'
    | (Exc e, s') => if cls e then h s' else (Exc e, s')
    end.

Record AuthResponse : Type := Resp {
  resp_status : Z;
  resp_data : list (string * string)
}.

(** The [try: ... except Exception] around the body of a view. *)
Definition respond (m : Rq AuthResponse) (on_error : AuthResponse)
  : site -> AuthResponse * site :=
  fun s =>
    match m s with
    | (Val r, s') => (r, s')
    | (Exc _, s') => (on_error, s')
    end.

(** [len(s)]: the number of characters of the text [s].  A string is the
    UTF-8 encoding of a text, so its characters are its bytes that are not
    continuation bytes (10xxxxxx). *)
Definition py_len (s : string) : nat :=
  length (List.filter
            (fun c => negb ((128 <=? nat_of_ascii c)%nat && (nat_of_ascii c <? 192)%nat))
            (list_ascii_of_string s)).

(** [not v] for a field of the request. *)
Definition blank (v : option string) : bool :=
  match v with
  | None => true
  | Some t => String.eqb t ""
  end.

Definition text (v : option string) : string :=
  match v with
  | Some t => t
  | None => ""%string
  end.

(** What [request.data.get(key)] can be: nothing, or a value of the JSON
    body (of a list or an object only the kind is kept). *)
Inductive json : Type :=
| JNull
| JBool (b : bool)
| JNumber (q : Q)
| JString (s : string)
| JArray
| JObject.

(** The field as the views below take it, for a field that is absent, null
    or a string.  Other values are outside the model: a number as
    [new_password], for one, makes [len()] raise, which [reset_password]
    answers with 500. *)
Definition as_text (v : option json) : option (option string) :=
  match v with
  | None => Some None
  | Some JNull => Some None
  | Some (JString t) => Some (Some t)
  | Some _ => None
  end.

(** *** The tables *)

Definition set_users (us : list User) (s : site) : site :=
  Site us (otps s) (next_otp_id s) (time_now s) (random_tape s) (mail_up s) (outbox s).

Definition set_otps (os : list PasswordResetOTP) (s : site) : site :=
  Site (users s) os (next_otp_id s) (time_now s) (random_tape s) (mail_up s) (outbox s).

(** [Model.objects.get]: one row, or one of the two exceptions. *)
Definition objects_get {A} (missing : auth_exn) (rows : list A) : Rq A :=
  match rows with
  | [] => araise missing
  | [row] => aret row
  | _ :: _ :: _ => araise MultipleObjectsReturned
  end.

Definition has_email (e : string) (u : User) : bool := String.eqb (email u) e.

(** [User.objects.get(email=e)] *)
Definition User_objects_get (e : string) : Rq User :=
  fun s => objects_get User_DoesNotExist (List.filter (has_email e) (users s)) s.

Definition unused_of (uid : nat) (o : PasswordResetOTP) : bool :=
  (otp_user o =? uid)%nat && negb (is_used o).

Definition unused_code (uid : nat) (code : string) (o : PasswordResetOTP) : bool :=
  (otp_user o =? uid)%nat && String.eqb (otp o) code && negb (is_used o).

(** [PasswordResetOTP.objects.get(user=user, otp=code, is_used=False)] *)
Definition PasswordResetOTP_objects_get (uid : nat) (code : string)
  : Rq PasswordResetOTP :=
  fun s => objects_get OTP_DoesNotExist (List.filter (unused_code uid code) (otps s)) s.

Definition mark_used (o : PasswordResetOTP) : PasswordResetOTP :=
  {| otp_id := otp_id o; otp_user := otp_user o; otp := otp o;
     created_at := created_at o; expires_at := expires_at o; is_used := true |}.

(** [PasswordResetOTP.objects.filter(user=user, is_used=False).update(is_used=True)] *)
Definition invalidate_unused (uid : nat) : Rq unit :=
  fun s =>
    (Val tt,
     set_otps (map (fun o => if unused_of uid o then mark_used o else o) (otps s)) s).

(** [Model.save] on a table with a primary key: the row with the key of the
    object is rewritten; an object whose key is not in the table is
    inserted. *)
Definition save_row {A} (key : A -> nat) (x : A) (rows : list A) : list A :=
  if existsb (fun y => (key y =? key x)%nat) rows
  then map (fun y => if (key y =? key x)%nat then x else y) rows
  else rows ++ [x].

(** [PasswordResetOTP.save] *)
Definition PasswordResetOTP_save (o : PasswordResetOTP) : Rq PasswordResetOTP :=
  fun s =>
    let o' :=
      match expires_at o with
      | Some _ => o
      | None =>
          {| otp_id := otp_id o; otp_user := otp_user o; otp := otp o;
             created_at := created_at o;
             expires_at := Some (time_now s + 5 * 60);
             is_used := is_used o |}
      end in
    (Val o', set_otps (save_row otp_id o' (otps s)) s).

(** [PasswordResetOTP.objects.create(user=user, otp=code)]: the database
    gives the key and [created_at]. *)
Definition PasswordResetOTP_objects_create (uid : nat) (code : string)
  : Rq PasswordResetOTP :=
  fun s =>
    let o := {| otp_id := next_otp_id s; otp_user := uid; otp := code;
                created_at := time_now s; expires_at := None;
                is_used := false |} in
    PasswordResetOTP_save o
      (Site (users s) (otps s) (S (next_otp_id s)) (time_now s) (random_tape s)
            (mail_up s) (outbox s)).

(** [PasswordResetOTP.is_valid]; comparing the clock with an unset expiry
    raises. *)
Definition is_valid (o : PasswordResetOTP) : Rq bool :=
  fun s =>
    if negb (is_used o) then
      match expires_at o with
      | Some t => (Val (time_now s <? t), s)
      | None => (Exc NoneComparison, s)
      end
    else (Val false, s).

Definition random_draw : Rq nat :=
  fun s =>
    match random_tape s with
    | [] => (Val 0%nat, s)
    | r :: tape =>
        (Val r, Site (users s) (otps s) (next_otp_id s) (time_now s) tape
                     (mail_up s) (outbox s))
    end.

(** [random.choices(population, k=k)] *)
Fixpoint random_choices (population : list ascii) (k : nat) : Rq (list ascii) :=
  match k with
  | O => aret []
  | S k' =>
      r <- random_draw ;;
      rest <- random_choices population k' ;;
      aret (nth (r mod length population) population "0"%char :: rest)
  end.

Definition string_digits : list ascii := lit "0123456789".

(** [PasswordResetOTP.generate_otp] *)
Definition generate_otp : Rq string :=
  picked <- random_choices string_digits 6 ;;
  aret (string_of_list_ascii picked).

Definition send_mail (recipient name code : string) : Rq unit :=
  fun s =>
    if mail_up s then
      (Val tt,
       Site (users s) (otps s) (next_otp_id s) (time_now s) (random_tape s)
            (mail_up s)
            (outbox s ++ [{| mail_to := recipient; mail_username := name;
                             mail_otp := code |}]))
    else (Exc SMTPException, s).

(** [user.set_password(raw)] *)
Definition set_password (u : User) (raw : string) : User :=
  {| user_id := user_id u; username := username u; email := email u;
     password := raw |}.

Definition set_email (u : User) (e : string) : User :=
  {| user_id := user_id u; username := username u; email := e;
     password := password u |}.

(** [user.save()] *)
Definition User_save (u : User) : Rq unit :=
  fun s => (Val tt, set_users (save_row user_id u (users s)) s).

(** *** The views *)

Definition server_error : AuthResponse :=
  Resp 500 [("error", "An error occurred. Please try again.")]%string.

Definition request_password_reset (email_ : option string)
  : site -> AuthResponse * site :=
  respond
    (if blank email_ then
       aret (Resp 400 [("error", "Email is required")]%string)
     else
       let e := text email_ in
       try_assign (User_objects_get e) is_User_DoesNotExist
         (aret (Resp 200 [("message",
            "If an account exists with this email, you will receive an OTP shortly.")]%string))
         (fun user =>
            invalidate_unused (user_id user) ;;;
            otp_code <- generate_otp ;;
            PasswordResetOTP_objects_create (user_id user) otp_code ;;;
            except_
              (send_mail e (username user) otp_code ;;;
               aret (Resp 200 [("message", "OTP has been sent to your email address");
                               ("email", e)]%string))
              is_Exception
              (aret (Resp 500 [("error",
                 "Failed to send email. Please try again later.")]%string))))
    server_error.

Definition otp_expired : AuthResponse :=
  Resp 400 [("error", "OTP has expired. Please request a new one.")]%string.

Definition invalid_otp : AuthResponse := Resp 400 [("error", "Invalid OTP")]%string.

Definition verify_otp (email_ otp_ : option string) : site -> AuthResponse * site :=
  respond
    (if blank email_ || blank otp_ then
       aret (Resp 400 [("error", "Email and OTP are required")]%string)
     else
       let otp_code := text otp_ in
       try_assign (User_objects_get (text email_)) is_User_DoesNotExist
         (aret invalid_otp)
         (fun user =>
            except_
              (o <- PasswordResetOTP_objects_get (user_id user) otp_code ;;
               valid <- is_valid o ;;
               if negb valid then aret otp_expired
               else aret (Resp 200 [("message", "OTP verified successfully");
                                    ("token", otp_code)]%string))
              is_OTP_DoesNotExist
              (aret invalid_otp)))
    server_error.

Definition password_reset_done : AuthResponse :=
  Resp 200 [("message",
    "Password has been reset successfully. You can now login with your new password.")]%string.

Definition reset_password (email_ otp_ new_password_ : option string)
  : site -> AuthResponse * site :=
  respond
    (if blank email_ || blank otp_ || blank new_password_ then
       aret (Resp 400 [("error", "Email, OTP, and new password are required")]%string)
     else
       let new_password := text new_password_ in
       if (py_len new_password <? 8)%nat then
         aret (Resp 400 [("error", "Password must be at least 8 characters long")]%string)
       else
         try_assign (User_objects_get (text email_)) is_User_DoesNotExist
           (aret (Resp 400 [("error", "Invalid request")]%string))
           (fun user =>
              except_
                (o <- PasswordResetOTP_objects_get (user_id user) (text otp_) ;;
                 valid <- is_valid o ;;
                 if negb valid then aret otp_expired
                 else
                   User_save (set_password user new_password) ;;;
                   PasswordResetOTP_save (mark_used o) ;;;
                   aret password_reset_done)
                is_OTP_DoesNotExist
                (aret invalid_otp)))
    server_error.

(** [User.objects.filter(email=e).exclude(id=uid).exists()] *)
Definition email_of_another (e : string) (uid : nat) : Rq bool :=
  fun s =>
    (Val (existsb (fun u => has_email e u && negb (user_id u =? uid)%nat) (users s)), s).

(** [update_profile]; [user] is [request.user], the row of the caller. *)
Definition update_profile (user : User) (email_ : option string)
  : site -> AuthResponse * site :=
  respond
    (if blank email_ then
       aret (Resp 400 [("error", "Email is required")]%string)
     else
       let e := text email_ in
       taken <- email_of_another e (user_id user) ;;
       if taken then
         aret (Resp 400 [("error", "Email is already in use by another account")]%string)
       else
         User_save (set_email user e) ;;;
         aret (Resp 200 [("message", "Profile updated successfully");
                         ("email", e)]%string))
    server_error.

Local Close Scope auth_scope.

(** *** Histories of the site *)

(** What happens to the site: a request to one of the views, or a change
    made from outside (the clock moves, the mail server goes up or down,
    the generator is reseeded). *)
Inductive auth_event : Type :=
| Call_request_password_reset (email_ : option string)
| Call_verify_otp (email_ otp_ : option string)
| Call_reset_password (email_ otp_ new_password_ : option string)
| Call_update_profile (caller : nat) (email_ : option string)
| Outside (t : Z) (up : bool) (tape : list nat).

(** A request to [update_profile] reaches the view only with the row of an
    authenticated caller. *)
Definition auth_step (s : site) (ev : auth_event) : site :=
  match ev with
  | Call_request_password_reset e => snd (request_password_reset e s)
  | Call_verify_otp e c => snd (verify_otp e c s)
  | Call_reset_password e c p => snd (reset_password e c p s)
  | Call_update_profile caller e =>
      match find (fun u => (user_id u =? caller)%nat) (users s) with
      | Some user => snd (update_profile user e s)
      | None => s
      end
  | Outside t up tape =>
      Site (users s) (otps s) (next_otp_id s) t tape up (outbox s)
  end.

Definition auth_run (evs : list auth_event) (s : site) : site :=
  fold_left auth_step evs s.

(** The constraints of the schema: keys identify rows, fresh keys are
    beyond the keys in use, and [expires_at] is never null in the table. *)
Definition db_ok (s : site) : Prop :=
  NoDup (map user_id (users s))
  /\ NoDup (map otp_id (otps s))
  /\ Forall (fun o => (otp_id o < next_otp_id s)%nat) (otps s)
  /\ Forall (fun o => expires_at o <> None) (otps s).

(** No two accounts share a non-empty address. *)
Definition emails_unique (s : site) : Prop :=
  forall u v, In u (users s) -> In v (users s) ->
    email u = email v -> email u <> ""%string -> user_id u = user_id v.

(** No account has two codes in use at once. *)
Definition one_live_code (s : site) : Prop :=
  forall uid, (length (List.filter (unused_of uid) (otps s)) <= 1)%nat.

Definition site_ok (s : site) : Prop :=
  db_ok s /\ emails_unique s /\ one_live_code s.

(** Same tables, whatever the clock, the mail server and the generator. *)
Definition same_tables (s1 s2 : site) : Prop :=
  users s1 = users s2 /\ otps s1 = otps s2 /\ next_otp_id s1 = next_otp_id s2.

Definition all_digits (code : string) : bool :=
  forallb is_digit (list_ascii_of_string code).

(** A small site: two accounts, no code yet. *)
Definition ada : User :=
  {| user_id := 1%nat; username := "ada"; email := "ada@plant.example";
     password := "correct horse" |}.

Definition bob : User :=
  {| user_id := 2%nat; username := "bob"; email := "bob@plant.example";
     password := "battery staple" |}.

Definition small_site : site :=
  Site [ada; bob] [] 1%nat 1000 [4; 17; 0; 9; 23; 5]%nat true [].

(** ** The validation policy as the specification words it *)

(** [c] is a cell of the column [col]. *)
Definition cell_of (d : DataFrame) (col : string) (c : cell) : Prop :=
  exists s, df_get d col = Some s /\ In c s.

Definition below (d : DataFrame) (col : string) (x : Q) : Prop :=
  exists q, cell_of d col (Num q) /\ (q < x)%Q.

Definition above (d : DataFrame) (col : string) (x : Q) : Prop :=
  exists q, cell_of d col (Num q) /\ (x < q)%Q.

(** A text of whitespace only. *)
Definition empty_text (d : DataFrame) (col : string) : Prop :=
  exists t, cell_of d col (Str t)
            /\ Forall (fun c => In c whitespace) (list_ascii_of_string t).

(** The hard errors, in the order they are looked for. *)
Definition policy (d : DataFrame) : list (Prop * string) :=
  [(below d "Flowrate" 0, "Flowrate cannot be negative");
   (above d "Flowrate" 10000, "Flowrate exceeds maximum allowed value (10000)");
   (below d "Pressure" 0, "Pressure cannot be negative");
   (above d "Pressure" 1000, "Pressure exceeds maximum allowed value (1000)");
   (below d "Temperature" absolute_zero,
    "Temperature cannot be below absolute zero (-273.15" ++ degree ++ ")");
   (above d "Temperature" 5000,
    "Temperature exceeds maximum allowed value (5000" ++ degree ++ ")");
   (empty_text d "Equipment Name", "Equipment Name cannot be empty");
   (empty_text d "Type", "Equipment Type cannot be empty")]%string.

(** [reported checks errs]: [errs] holds the message of every check that is
    violated and of no other, in the order of the checks. *)
Inductive reported : list (Prop * string) -> list string -> Prop :=
| reported_nil : reported [] []
| reported_violated (P : Prop) (msg : string) (rest : list (Prop * string))
    (errs : list string) :
    P -> reported rest errs -> reported ((P, msg) :: rest) (msg :: errs)
| reported_met (P : Prop) (msg : string) (rest : list (Prop * string))
    (errs : list string) :
    ~ P -> reported rest errs -> reported ((P, msg) :: rest) errs.

(** The measurements of a frame hold no text, and its texts are ASCII. *)
Definition measured (d : DataFrame) : Prop :=
  (forall col s, In col upload_numeric_columns -> df_get d col = Some s ->
                 Forall (fun c => forall t, c <> Str t) s)
  /\ (forall col t, cell_of d col (Str t) -> ascii_text t = true).

(** Rows with three hard errors. *)
Definition faulty : DataFrame :=
  [("Equipment Name", [Str "Pump-1"; Str " "]);
   ("Type", [Str "Pump"; Str "Pump"]);
   ("Flowrate", [Num 15000; Num (-1)]);
   ("Pressure", [Num 45; Num 50]);
   ("Temperature", [Num 80; Num 90])]%string.

(** * Properties *)

(** ** The value normalizer *)

Lemma span_digits_spec (s : chars) :
  s = fst (span_digits s) ++ snd (span_digits s)
  /\ forallb is_digit (fst (span_digits s)) = true
  /\ match snd (span_digits s) with
     | [] => True
     | c :: _ => is_digit c = false
     end.
Proof.
  induction s as [|c s IH]; simpl; [auto|].
  destruct (is_digit c) eqn:E; simpl.
  - destruct (span_digits s) as [ds r]; simpl in *.
    destruct IH as (-> & Hd & Hr). rewrite E. auto.
  - auto.
Qed.

(** A run of digits at the head of [D ++ r], where [r] starts with no
    digit, lies within [D]. *)
Lemma digits_prefix (ds x D r : chars) :
  forallb is_digit ds = true ->
  match r with [] => True | c :: _ => is_digit c = false end ->
  ds ++ x = D ++ r ->
  exists rest, D = ds ++ rest /\ x = rest ++ r.
Proof.
  revert D. induction ds as [|c ds IH]; intros D Hd Hr E; simpl in *.
  - exists D. auto.
  - apply andb_prop in Hd as [Hc Hd].
    destruct D as [|c' D]; simpl in *.
    + subst r. congruence.
    + injection E as <- E. destruct (IH D Hd Hr E) as (rest & -> & ->).
      eauto.
Qed.

Lemma re_unsigned_None (t : chars) :
  re_unsigned t = None ->
  forall u post, t = u ++ post -> ~ re_unsigned_number u.
Proof.
  unfold re_unsigned. intros H u post -> (ds & dot & fs & -> & Hne & Hd & _).
  destruct ds as [|c ds]; [congruence|]. simpl in *.
  apply andb_prop in Hd as [Hc _]. rewrite Hc in H.
  destruct (span_digits _) as [D r]. 
  destruct r as [|c' r]; [discriminate|]. destruct (ascii_eqb c' "."); discriminate.
Qed.

Lemma dot_not_digit (c : ascii) : ascii_eqb c "." = true -> is_digit c = false.
Proof. intros H. apply Ascii.eqb_eq in H. subst. reflexivity. Qed.

Lemma minus_not_digit (c : ascii) : ascii_eqb c "-" = true -> is_digit c = false.
Proof. intros H. apply Ascii.eqb_eq in H. subst. reflexivity. Qed.

Lemma span_digits_nondigit (r : chars) :
  match r with [] => True | c :: _ => is_digit c = false end ->
  span_digits r = ([], r).
Proof. destruct r as [|c r]; simpl; [auto|]. intros ->. auto. Qed.

Lemma re_unsigned_Some (t mu : chars) :
  re_unsigned t = Some mu ->
  (exists post, t = mu ++ post) /\ re_unsigned_number mu
  /\ forall u post, t = u ++ post -> re_unsigned_number u ->
                    (length u <= length mu)%nat.
Proof.
  unfold re_unsigned.
  pose proof (span_digits_spec t) as (Et & HD & Hr).
  destruct (span_digits t) as [D r]; simpl in *.
  destruct D as [|d D']; [discriminate|].
  assert (HDne : d :: D' <> []) by discriminate.
  remember (d :: D') as D eqn:ED0. clear ED0.
  intros H.
  assert (Hcases :
    (exists r', r = "."%char :: r' /\ mu = D ++ "."%char :: fst (span_digits r'))
    \/ (mu = D /\ match r with [] => True | c :: _ => ascii_eqb c "." = false end)).
  { destruct r as [|c r'].
    - right. injection H as <-. simpl. rewrite app_nil_r. auto.
    - destruct (ascii_eqb c ".") eqn:Ec.
      + left. apply Ascii.eqb_eq in Ec. subst c. injection H as <-. eauto.
      + right. rewrite (span_digits_nondigit (c :: r') Hr) in H. simpl in H.
        injection H as <-. rewrite app_nil_r. auto. }
  clear H.
  assert (Hlong : forall u post, t = u ++ post -> re_unsigned_number u ->
                    (length u <= length mu)%nat).
  { intros u post Eu (ds & dot & fs & -> & Hne & Hd & Hdot & Hf).
    rewrite Et in Eu. rewrite <- !app_assoc in Eu. symmetry in Eu.
    destruct (digits_prefix _ _ _ _ Hd Hr Eu) as (rest & ED & Ex).
    rewrite !length_app.
    destruct rest as [|c rest].
    - rewrite app_nil_r in ED. simpl in Ex.
      destruct Hcases as [(r' & -> & ->)|[-> Hnd]].
      + rewrite length_app. simpl. rewrite ED.
        destruct Hdot as [->| ->]; simpl in *.
        * destruct fs as [|f fs]; simpl in *; [lia|].
          injection Ex as -> _. discriminate.
        * injection Ex as Ex.
          pose proof (span_digits_spec r') as (Er' & HF & Hr'').
          rewrite Er' in Ex at 1.
          destruct (digits_prefix _ _ _ _ Hf Hr'' Ex) as (rest & -> & _).
          rewrite length_app. lia.
      + rewrite ED. destruct Hdot as [->| ->]; simpl in *.
        * destruct fs as [|f fs]; simpl in *; [lia|].
          subst r. apply andb_prop in Hf as [Hf _]. congruence.
        * subst r. discriminate.
    - assert (Hc : is_digit c = true).
      { rewrite ED in HD. rewrite forallb_app in HD.
        apply andb_prop in HD as [_ HD]. simpl in HD.
        apply andb_prop in HD as [HD _]. exact HD. }
      assert (Hmu : (length D <= length mu)%nat).
      { destruct Hcases as [(r' & _ & ->)|[-> _]]; [rewrite length_app|]; lia. }
      destruct Hdot as [->| ->]; simpl in *.
      + assert (Hrest : forallb is_digit (c :: rest) = true).
        { rewrite ED in HD. rewrite forallb_app in HD.
          apply andb_prop in HD as [_ HD]. exact HD. }
        pose proof (span_digits_spec (c :: rest ++ r)) as (E2 & HF2 & Hr2).
        assert (Ex' : fs ++ post = (c :: rest) ++ r) by exact Ex.
        destruct (digits_prefix _ _ _ _ Hf Hr Ex') as (rest2 & Er2 & _).
        rewrite ED, length_app in Hmu. rewrite Er2, length_app in Hmu. lia.
      + injection Ex as <- _. discriminate. }
  split; [|split; [|exact Hlong]].
  - destruct Hcases as [(r' & -> & ->)|[-> _]].
    + pose proof (span_digits_spec r') as (Er' & _ & _).
      exists (snd (span_digits r')). rewrite Et. rewrite <- app_assoc. simpl.
      rewrite <- Er'. reflexivity.
    + eauto.
  - destruct Hcases as [(r' & -> & ->)|[-> _]].
    + pose proof (span_digits_spec r') as (_ & HF & _).
      exists D, ["."%char], (fst (span_digits r')). auto 10.
    + exists D, [], []. rewrite !app_nil_r. auto 10.
Qed.

Lemma re_number_cases (m : chars) :
  re_number m <->
  re_unsigned_number m \/ exists u, m = "-"%char :: u /\ re_unsigned_number u.
Proof.
  split.
  - intros [sign ds dot fs [->| ->] Hne Hd Hdot Hf]; simpl.
    + left. exists ds, dot, fs. auto.
    + right. eexists. split; [reflexivity|]. exists ds, dot, fs. auto.
  - intros [(ds & dot & fs & -> & ?)|(u & -> & ds & dot & fs & -> & ?)].
    + apply (re_number_intro [] ds dot fs); tauto.
    + apply (re_number_intro ["-"%char] ds dot fs); tauto.
Qed.

Lemma re_unsigned_number_head (u : chars) :
  re_unsigned_number u -> exists c u', u = c :: u' /\ is_digit c = true.
Proof.
  intros (ds & dot & fs & -> & Hne & Hd & _).
  destruct ds as [|c ds]; [congruence|]. simpl in *.
  apply andb_prop in Hd as [Hc _]. eauto.
Qed.

Lemma re_unsigned_nondigit (c : ascii) (t : chars) :
  is_digit c = false -> re_unsigned (c :: t) = None.
Proof. unfold re_unsigned. simpl. intros ->. reflexivity. Qed.

Lemma re_match_here_None (s : chars) :
  re_match_here s = None ->
  forall m post, s = m ++ post -> ~ re_number m.
Proof.
  intros H m post -> Hm. apply re_number_cases in Hm.
  destruct Hm as [Hu|(u & -> & Hu)].
  - destruct (re_unsigned_number_head _ Hu) as (c & u' & -> & Hc).
    simpl in H. destruct (ascii_eqb c "-") eqn:Ec.
    + apply minus_not_digit in Ec. congruence.
    + eapply re_unsigned_None in H; [exact (H Hu)|reflexivity].
  - simpl in H. destruct (re_unsigned (u ++ post)) eqn:E; [discriminate|].
    eapply re_unsigned_None in E; [exact (E Hu)|reflexivity].
Qed.

Lemma re_match_here_Some (s m : chars) :
  re_match_here s = Some m ->
  (exists post, s = m ++ post) /\ re_number m
  /\ forall m' post', s = m' ++ post' -> re_number m' ->
                      (length m' <= length m)%nat.
Proof.
  intros H.
  assert (Hun : re_unsigned s = Some m ->
                match s with c :: _ => ascii_eqb c "-" = false | [] => True end ->
                (exists post, s = m ++ post) /\ re_number m
                /\ forall m' post', s = m' ++ post' -> re_number m' ->
                                    (length m' <= length m)%nat).
  { intros E Hs. apply re_unsigned_Some in E as (Hp & Hu & Hl).
    split; [exact Hp|]. split; [apply re_number_cases; auto|].
    intros m' post' Es Hm'. apply re_number_cases in Hm'.
    destruct Hm' as [Hu'|(u & -> & _)]; [eauto|].
    subst s. simpl in Hs. discriminate. }
  destruct s as [|c t]; [apply Hun; auto|].
  simpl in H. destruct (ascii_eqb c "-") eqn:Ec; [|apply Hun; auto].
  destruct (re_unsigned t) as [mu|] eqn:E.
  - injection H as <-. apply re_unsigned_Some in E as ((post & ->) & Hu & Hl).
    apply Ascii.eqb_eq in Ec. subst c.
    split; [eauto|]. split; [apply re_number_cases; eauto|].
    intros m' post' Es Hm'. apply re_number_cases in Hm'.
    destruct Hm' as [Hu'|(u & -> & Hu')].
    + destruct (re_unsigned_number_head _ Hu') as (c & u' & -> & Hc).
      injection Es as <- _. discriminate.
    + injection Es as Es. simpl. apply le_n_S. eauto.
  - rewrite re_unsigned_nondigit in H by (apply minus_not_digit; exact Ec).
    discriminate.
Qed.

Lemma re_search_cons (c : ascii) (s : chars) :
  re_search (c :: s)
  = match re_match_here (c :: s) with
    | Some m => Some m
    | None => re_search s
    end.
Proof. reflexivity. Qed.

Lemma re_search_None (s : chars) : re_search s = None -> no_match s.
Proof.
  induction s as [|c s IH].
  - intros _ pre m post E Hm.
    destruct pre; [|discriminate]. destruct m.
    + apply re_number_cases in Hm as [Hu|(u & [=] & _)].
      apply re_unsigned_number_head in Hu as (? & ? & [=] & _).
    + discriminate.
  - rewrite re_search_cons.
    destruct (re_match_here (c :: s)) eqn:E; [discriminate|].
    intros H pre m post Es Hm. destruct pre as [|p pre]; simpl in Es.
    + exact (re_match_here_None _ E _ _ Es Hm).
    + injection Es as _ Es. exact (IH H _ _ _ Es Hm).
Qed.

Lemma re_search_Some (s m : chars) : re_search s = Some m -> first_match s m.
Proof.
  induction s as [|c s IH].
  - simpl. discriminate.
  - rewrite re_search_cons.
    destruct (re_match_here (c :: s)) eqn:E.
    + intros [= ->]. apply re_match_here_Some in E as ((post & Es) & Hm & Hl).
      exists [], post. split; [exact Es|]. split; [exact Hm|].
      intros pre' m' post' E' Hm'. split; [simpl; lia|].
      destruct pre'; [|discriminate]. intros _. eauto.
    + intros H. destruct (IH H) as (pre & post & -> & Hm & Hl).
      exists (c :: pre), post. split; [reflexivity|]. split; [exact Hm|].
      intros pre' m' post' E' Hm'. destruct pre' as [|p pre']; simpl in E'.
      * exfalso. exact (re_match_here_None _ E _ _ E' Hm').
      * injection E' as _ E'. destruct (Hl _ _ _ E' Hm') as [H1 H2].
        simpl. split; [lia|]. intros [= H3]. auto.
Qed.

Lemma lower_upper_char (a : ascii) : lower_char (upper_char a) = lower_char a.
Proof. destruct a as [[] [] [] [] [] [] [] []]; reflexivity. Qed.

Lemma upper_lower_char (a : ascii) : upper_char (lower_char a) = upper_char a.
Proof. destruct a as [[] [] [] [] [] [] [] []]; reflexivity. Qed.

Lemma str_upper_eq_lower (t w : chars) :
  str_upper t = str_upper w <-> str_lower t = str_lower w.
Proof.
  unfold str_upper, str_lower. split; intros H.
  - apply (f_equal (map lower_char)) in H. rewrite !map_map in H.
    rewrite (map_ext _ lower_char lower_upper_char t) in H.
    rewrite (map_ext _ lower_char lower_upper_char w) in H. exact H.
  - apply (f_equal (map upper_char)) in H. rewrite !map_map in H.
    rewrite (map_ext _ upper_char upper_lower_char t) in H.
    rewrite (map_ext _ upper_char upper_lower_char w) in H. exact H.
Qed.

Lemma chars_eqb_eq (a b : chars) : chars_eqb a b = true <-> a = b.
Proof.
  revert b. induction a as [|x a IH]; intros [|y b]; simpl; try easy.
  unfold ascii_eqb. rewrite andb_true_iff, Ascii.eqb_eq, IH.
  split; [intros [-> ->]; reflexivity|intros [= -> ->]; auto].
Qed.

Lemma mem_chars_In (x : chars) (xs : list (chars)) :
  mem_chars x xs = true <-> In x xs.
Proof.
  unfold mem_chars. rewrite existsb_exists. split.
  - intros (y & Hy & E). apply chars_eqb_eq in E. subst. exact Hy.
  - intros H. exists x. split; [exact H|]. apply chars_eqb_eq. reflexivity.
Qed.

(** The test of the code, on the upper-cased text, is the case-insensitive
    comparison with the sentinels. *)
Lemma indicator_iff_sentinel (s : string) :
  mem_chars (str_upper (str_strip (lit s))) non_numeric_indicators = true
  <-> is_sentinel s.
Proof.
  unfold is_sentinel. rewrite mem_chars_In.
  change non_numeric_indicators with (map str_upper sentinels).
  replace sentinels with (map str_lower sentinels) at 2 by reflexivity.
  rewrite !in_map_iff. split; intros (w & E & Hw); exists w; split; auto.
  - symmetry. apply str_upper_eq_lower. symmetry. exact E.
  - symmetry. apply str_upper_eq_lower. symmetry. exact E.
Qed.

(** The first match is unique. *)
Lemma first_match_unique (t m1 m2 : chars) :
  first_match t m1 -> first_match t m2 -> m1 = m2.
Proof.
  intros (p1 & q1 & E1 & H1 & L1) (p2 & q2 & E2 & H2 & L2).
  destruct (L1 _ _ _ E2 H2) as [A1 B1]. destruct (L2 _ _ _ E1 H1) as [A2 B2].
  assert (Hp : length p1 = length p2) by lia.
  assert (Hm : length m1 = length m2).
  { specialize (B1 (eq_sym Hp)). specialize (B2 Hp). lia. }
  rewrite E1 in E2.
  apply app_inj_1 in E2 as [_ E2]; [|exact Hp].
  apply app_inj_1 in E2 as [E2 _]; [exact E2|exact Hm].
Qed.

(** *** Trimming *)

Lemma whitespace_is_space (c : ascii) : In c whitespace <-> is_space c = true.
Proof.
  assert (H : existsb (Ascii.eqb c) whitespace = is_space c)
    by (destruct c as [[] [] [] [] [] [] [] []]; reflexivity).
  rewrite <- H, existsb_exists. split.
  - intros Hin. exists c. split; [exact Hin|apply Ascii.eqb_refl].
  - intros (x & Hin & E). apply Ascii.eqb_eq in E. subst x. exact Hin.
Qed.

Lemma Forall_whitespace (l : chars) :
  Forall (fun c => In c whitespace) l <-> forallb is_space l = true.
Proof.
  rewrite List.Forall_forall, forallb_forall.
  split; intros H c Hc; apply whitespace_is_space, H, Hc.
Qed.

Lemma lstrip_suffix (s : chars) : exists pre, s = pre ++ lstrip s /\ forallb is_space pre = true.
Proof.
  induction s as [|c s IH]; simpl; [exists []; auto|].
  destruct (is_space c) eqn:E; [|exists []; auto].
  destruct IH as (pre & IH & Hp). exists (c :: pre). simpl. rewrite E, <- IH. auto.
Qed.

Lemma str_strip_infix (s : chars) :
  exists pre post, s = pre ++ str_strip s ++ post
                   /\ forallb is_space pre = true /\ forallb is_space post = true.
Proof.
  unfold str_strip, rstrip.
  destruct (lstrip_suffix s) as (pre & Hs & Hpre).
  destruct (lstrip_suffix (rev (lstrip s))) as (post & Hr & Hpost).
  exists pre, (rev post). split; [|split; [exact Hpre|]].
  - rewrite Hs at 1. f_equal. rewrite <- rev_app_distr, <- Hr, rev_involutive. reflexivity.
  - rewrite forallb_forall in *. intros x Hx. apply Hpost. apply in_rev. exact Hx.
Qed.

Lemma lstrip_head (s : chars) (c : ascii) :
  head (lstrip s) = Some c -> is_space c = false.
Proof.
  induction s as [|x s IH]; simpl; [discriminate|].
  destruct (is_space x) eqn:E; [exact IH|]. simpl. intros [= <-]. exact E.
Qed.

Lemma lstrip_spaces_app (l x : chars) :
  forallb is_space l = true -> lstrip (l ++ x) = lstrip x.
Proof.
  induction l as [|c l IH]; simpl; [reflexivity|].
  intros H. apply andb_prop in H as [-> H]. auto.
Qed.

Lemma lstrip_fixed (x : chars) :
  (forall c, head x = Some c -> is_space c = false) -> lstrip x = x.
Proof.
  destruct x as [|c x]; simpl; [reflexivity|]. intros H.
  rewrite (H c eq_refl). reflexivity.
Qed.

Lemma head_app_nonempty {A} (x y : list A) : x <> [] -> head (x ++ y) = head x.
Proof. destruct x; [congruence|reflexivity]. Qed.

(** [str.strip()] is the trimming of the specification. *)
Lemma str_strip_trimmed (t : chars) : trimmed t (str_strip t).
Proof.
  destruct (str_strip_infix t) as (pre & post & E & Hpre & Hpost).
  exists pre, post. split; [exact E|].
  split; [apply Forall_whitespace, Hpre|]. split; [apply Forall_whitespace, Hpost|].
  split.
  - intros c Hc Hw. apply whitespace_is_space in Hw.
    unfold str_strip, rstrip in Hc.
    destruct (lstrip_suffix (rev (lstrip t))) as (p & Hp & _).
    apply (f_equal (@rev ascii)) in Hp. rewrite rev_involutive, rev_app_distr in Hp.
    assert (Hne : rev (lstrip (rev (lstrip t))) <> []) by (intros E0; rewrite E0 in Hc; discriminate).
    assert (Hh : head (lstrip t) = Some c).
    { rewrite Hp, head_app_nonempty by exact Hne. exact Hc. }
    apply lstrip_head in Hh. congruence.
  - intros c Hc Hw. apply whitespace_is_space in Hw.
    unfold str_strip, rstrip in Hc. rewrite rev_involutive in Hc.
    apply lstrip_head in Hc. congruence.
Qed.

Lemma trimmed_str_strip (t t' : chars) : trimmed t t' -> str_strip t = t'.
Proof.
  intros (l & r & -> & Hl & Hr & Hhead & Hlast).
  apply Forall_whitespace in Hl, Hr.
  assert (Hh : forall c, head t' = Some c -> is_space c = false).
  { intros c Hc. destruct (is_space c) eqn:E; [|reflexivity].
    exfalso. apply (Hhead c Hc), whitespace_is_space, E. }
  assert (Ht : forall c, head (rev t') = Some c -> is_space c = false).
  { intros c Hc. destruct (is_space c) eqn:E; [|reflexivity].
    exfalso. apply (Hlast c Hc), whitespace_is_space, E. }
  unfold str_strip, rstrip. rewrite lstrip_spaces_app by exact Hl.
  assert (Hrev : forallb is_space (rev r) = true).
  { rewrite forallb_forall in *. intros x Hx. apply Hr, in_rev, Hx. }
  destruct t' as [|c u].
  - cbn [app]. rewrite <- (app_nil_r r), lstrip_spaces_app by exact Hr.
    reflexivity.
  - rewrite (lstrip_fixed ((c :: u) ++ r))
      by (intros x Hx; apply Hh; exact Hx).
    rewrite rev_app_distr, lstrip_spaces_app by exact Hrev.
    rewrite lstrip_fixed by exact Ht. apply rev_involutive.
Qed.

(** *** Letter case *)

Lemma upper_char_cases (b : ascii) :
  upper_char b = b
  \/ ((65 <= nat_of_ascii (upper_char b) <= 90)%nat
      /\ nat_of_ascii b = (nat_of_ascii (upper_char b) + 32)%nat).
Proof.
  destruct b as [[] [] [] [] [] [] [] []];
    first [left; reflexivity | right; vm_compute; repeat split; repeat constructor].
Qed.

Lemma nat_of_ascii_inj (a b : ascii) : nat_of_ascii a = nat_of_ascii b -> a = b.
Proof.
  intros H. rewrite <- (ascii_nat_embedding a), <- (ascii_nat_embedding b), H.
  reflexivity.
Qed.

Lemma same_letter_upper (a b : ascii) :
  same_letter a b <-> upper_char a = upper_char b.
Proof.
  split.
  - intros [->|(k & Hk & [[Ha Hb]|[Ha Hb]])]; [reflexivity| |];
      rewrite <- (ascii_nat_embedding a), <- (ascii_nat_embedding b), Ha, Hb;
      do 26 (destruct k as [|k]; [reflexivity|]); lia.
  - intros H.
    destruct (upper_char_cases a) as [Ea|[Ra Ea]], (upper_char_cases b) as [Eb|[Rb Eb]].
    + left. congruence.
    + right. exists (nat_of_ascii (upper_char b) - 65)%nat.
      split; [lia|]. left. rewrite <- Ea, H. lia.
    + right. exists (nat_of_ascii (upper_char a) - 65)%nat.
      split; [lia|]. right. rewrite <- Eb, <- H. lia.
    + left. apply nat_of_ascii_inj. rewrite Ea, Eb, H. reflexivity.
Qed.

Lemma same_text_upper (t w : chars) :
  Forall2 same_letter t w <-> str_upper t = str_upper w.
Proof.
  unfold str_upper. revert w. induction t as [|a t IH]; intros [|b w]; cbn [map].
  - split; [reflexivity|constructor].
  - split; [intros H; inversion H|discriminate].
  - split; [intros H; inversion H|discriminate].
  - split.
    + intros H. inversion H; subst. f_equal; [apply same_letter_upper|apply IH]; assumption.
    + intros [= Ha Ht]. constructor; [apply same_letter_upper|apply IH]; assumption.
Qed.

(** The test of the code, on the upper-cased text, is the case-insensitive
    comparison with the sentinels. *)
Lemma indicator_sentinel_text (t : chars) :
  mem_chars (str_upper t) non_numeric_indicators = true <-> sentinel_text t.
Proof.
  rewrite mem_chars_In. unfold sentinel_text.
  change non_numeric_indicators
    with (map (fun w => str_upper (list_ascii_of_string w)) sentinel_words).
  rewrite in_map_iff. split.
  - intros (w & E & Hw). exists w. split; [exact Hw|].
    apply same_text_upper. symmetry. exact E.
  - intros (w & Hw & E). exists w. split; [|exact Hw].
    symmetry. apply same_text_upper, E.
Qed.

(** *** Digits and their value *)

Lemma digit_value_is_digit (c : ascii) :
  digit_value c = if is_digit c then Some (digit_val c) else None.
Proof. destruct c as [[] [] [] [] [] [] [] []]; reflexivity. Qed.

Lemma digits_to_Z_acc (ds : chars) (acc : Z) :
  fold_left (fun a c => 10 * a + digit_val c) ds acc
  = acc * 10 ^ Z.of_nat (length ds) + digits_to_Z ds.
Proof.
  unfold digits_to_Z. revert acc. induction ds as [|c ds IH]; intros acc.
  - cbn. lia.
  - cbn [fold_left length]. rewrite IH, (IH (10 * 0 + digit_val c)).
    rewrite Nat2Z.inj_succ, Z.pow_succ_r by lia. ring.
Qed.

Lemma digits_to_Z_cons (c : ascii) (ds : chars) :
  digits_to_Z (c :: ds) = digit_val c * 10 ^ Z.of_nat (length ds) + digits_to_Z ds.
Proof.
  unfold digits_to_Z at 1. cbn [fold_left]. rewrite digits_to_Z_acc. ring.
Qed.

Lemma digits_to_Z_app (ds fs : chars) :
  digits_to_Z (ds ++ fs) = digits_to_Z ds * 10 ^ Z.of_nat (length fs) + digits_to_Z fs.
Proof.
  unfold digits_to_Z at 1. rewrite fold_left_app.
  fold (digits_to_Z ds). apply digits_to_Z_acc.
Qed.

Lemma decimal_digits_to_Z (ds : chars) (n : Z) :
  decimal ds = Some n <-> forallb is_digit ds = true /\ n = digits_to_Z ds.
Proof.
  revert n. induction ds as [|c ds IH]; intros n; cbn [decimal forallb].
  - split; [intros [= <-]; auto|intros [_ ->]; reflexivity].
  - rewrite digit_value_is_digit, digits_to_Z_cons.
    destruct (is_digit c); cbn [andb]; [|split; [discriminate|intros [[=] _]]].
    destruct (decimal ds) as [k|] eqn:Ek.
    + destruct (proj1 (IH k) eq_refl) as (Hd & ->).
      split; [intros [= <-]; auto|intros [_ ->]; reflexivity].
    + split; [discriminate|]. intros [Hd _].
      pose proof (proj2 (IH _) (conj Hd eq_refl)). discriminate.
Qed.

Lemma decimal_defined (ds : chars) :
  forallb is_digit ds = true -> decimal ds = Some (digits_to_Z ds).
Proof. intros H. apply decimal_digits_to_Z. auto. Qed.

(** *** The texts of numbers are the matches of the pattern *)

Lemma sign_cases (sign : chars) :
  sign = [] \/ sign = ["-"%char] <->
  exists neg : bool, sign = if neg then ["-"%char] else [].
Proof.
  split.
  - intros [->| ->]; [exists false|exists true]; reflexivity.
  - intros [[] ->]; auto.
Qed.

Lemma number_shaped_re_number (m : chars) : number_shaped m <-> re_number m.
Proof.
  split.
  - intros (neg & q & H). destruct H as [neg ds n Hne Hd|neg ds fs n f Hne Hd Hf].
    + apply decimal_digits_to_Z in Hd as [Hd _].
      replace ds with (ds ++ [] ++ []) by (rewrite !app_nil_r; reflexivity).
      apply re_number_intro; auto. apply sign_cases. eauto.
    + apply decimal_digits_to_Z in Hd as [Hd _].
      apply decimal_digits_to_Z in Hf as [Hf _].
      apply (re_number_intro _ ds ["."%char] fs); auto. apply sign_cases. eauto.
  - intros [sign ds dot fs Hs Hne Hd Hdot Hf].
    apply sign_cases in Hs as [neg ->].
    destruct Hdot as [->| ->].
    + exists neg, (inject_Z (digits_to_Z (ds ++ fs))). cbn [app].
      apply number_text_whole.
      * destruct ds; [congruence|discriminate].
      * apply decimal_defined. rewrite forallb_app, Hd, Hf. reflexivity.
    + eexists neg, _. cbn [app].
      apply number_text_fraction; [exact Hne|apply decimal_defined, Hd|apply decimal_defined, Hf].
Qed.

Lemma first_number_first_match (t m : chars) : first_number t m <-> first_match t m.
Proof.
  unfold first_number, first_match.
  split; intros (pre & post & E & Hm & Hl); exists pre, post;
    (split; [exact E|]); (split; [apply number_shaped_re_number, Hm|]);
    intros pre' m' post' E' Hm'; apply (Hl pre' m' post' E');
    apply number_shaped_re_number, Hm'.
Qed.

Lemma no_number_no_match (t : chars) : no_number t <-> no_match t.
Proof.
  unfold no_number, no_match.
  split; intros H pre m post E Hm; apply (H pre m post E);
    apply number_shaped_re_number, Hm.
Qed.

(** *** The float of a number text *)

Lemma span_digits_app (ds rest : chars) :
  forallb is_digit ds = true ->
  match rest with [] => True | c :: _ => is_digit c = false end ->
  span_digits (ds ++ rest) = (ds, rest).
Proof.
  intros Hd Hr. induction ds as [|c ds IH]; cbn [app].
  - apply span_digits_nondigit, Hr.
  - cbn [forallb] in Hd. apply andb_prop in Hd as [Hc Hd].
    cbn [span_digits]. rewrite Hc, (IH Hd). reflexivity.
Qed.

Lemma span_digits_all (ds : chars) :
  forallb is_digit ds = true -> span_digits ds = (ds, []).
Proof.
  intros H. pose proof (span_digits_app ds [] H I) as E.
  rewrite app_nil_r in E. exact E.
Qed.

Lemma nearest_double_Qeq (p q : Q) : (p == q)%Q -> nearest_double p = nearest_double q.
Proof. intros H. unfold nearest_double. rewrite (Qred_complete p q H). reflexivity. Qed.

Lemma py_float_body (neg : bool) (ds rest : chars) :
  ds <> [] -> forallb is_digit ds = true ->
  py_float ((if neg then ["-"%char] else []) ++ ds ++ rest)
  = (let '(ip, r) := span_digits (ds ++ rest) in
     let fp := match r with
               | c :: r' => if ascii_eqb c "." then fst (span_digits r') else []
               | [] => []
               end in
     let v := nearest_double
                (digits_to_Z (ip ++ fp) # Z.to_pos (10 ^ Z.of_nat (length fp))) in
     if neg then Qopp v else v).
Proof.
  intros Hne Hd. unfold py_float. destruct neg; cbn [app].
  - change (ascii_eqb "-" "-") with true. reflexivity.
  - destruct ds as [|d ds']; [congruence|]. cbn [app].
    cbn [forallb] in Hd. apply andb_prop in Hd as [Hd _].
    destruct (ascii_eqb d "-") eqn:Ec; [|reflexivity].
    apply minus_not_digit in Ec. congruence.
Qed.

Lemma number_text_py_float (m : chars) (neg : bool) (q : Q) :
  number_text m neg q -> py_float m = float_of neg q.
Proof.
  intros H. destruct H as [neg ds n Hne Hd|neg ds fs n f Hne Hd Hf].
  - apply decimal_digits_to_Z in Hd as [Hd ->].
    rewrite <- (app_nil_r ds) at 1. rewrite (py_float_body neg ds [] Hne Hd).
    rewrite app_nil_r, (span_digits_all ds Hd). cbn beta iota zeta.
    rewrite app_nil_r. reflexivity.
  - apply decimal_digits_to_Z in Hd as [Hd ->].
    apply decimal_digits_to_Z in Hf as [Hf ->].
    rewrite (py_float_body neg ds ("."%char :: fs) Hne Hd).
    rewrite (span_digits_app ds ("."%char :: fs) Hd eq_refl). cbn beta iota zeta.
    change (ascii_eqb "." ".") with true. cbn iota.
    rewrite (span_digits_all fs Hf). cbn [fst]. unfold float_of.
    assert (E : (digits_to_Z (ds ++ fs) # Z.to_pos (10 ^ Z.of_nat (length fs))
                 == inject_Z (digits_to_Z ds)
                    + (digits_to_Z fs # Z.to_pos (10 ^ Z.of_nat (length fs))))%Q).
    { rewrite digits_to_Z_app. unfold Qeq, Qplus, inject_Z. cbn [Qnum Qden].
      assert (Hp : 0 < 10 ^ Z.of_nat (length fs)) by (apply Z.pow_pos_nonneg; lia).
      rewrite Pos.mul_1_l, Z2Pos.id by exact Hp. ring. }
    rewrite (nearest_double_Qeq _ _ E). reflexivity.
Qed.

Lemma extract_numeric_value_normalize (c : cell) :
  normalize c (extract_numeric_value c).
Proof.
  destruct c as [|q|s]; [constructor|constructor|].
  unfold extract_numeric_value.
  pose proof (str_strip_trimmed (lit s)) as Ht.
  destruct (mem_chars _ _) eqn:E.
  - apply (normalize_sentinel s _ Ht), indicator_sentinel_text, E.
  - assert (Hs : ~ sentinel_text (str_strip (lit s))).
    { intros H. apply indicator_sentinel_text in H. congruence. }
    destruct (re_search _) as [m|] eqn:Em.
    + apply re_search_Some in Em.
      pose proof Em as (pre & post & _ & Hm & _).
      apply number_shaped_re_number in Hm as (neg & q & Hm).
      rewrite (number_text_py_float m neg q Hm).
      apply (normalize_first_number s _ m neg q Ht Hs); [|exact Hm].
      apply first_number_first_match, Em.
    + apply (normalize_no_number s _ Ht Hs), no_number_no_match, re_search_None, Em.
Qed.

Lemma normalize_functional (c : cell) (r : option Q) :
  normalize c r -> r = extract_numeric_value c.
Proof.
  intros H. destruct H as [|q|s t Ht Hs|s t m neg q Ht Hs Hm Hq|s t Ht Hs Hn];
    try reflexivity;
    apply trimmed_str_strip in Ht; unfold extract_numeric_value;
    change (lit s) with (list_ascii_of_string s); rewrite Ht.
  - apply indicator_sentinel_text in Hs. rewrite Hs. reflexivity.
  - destruct (mem_chars _ _) eqn:E; [apply indicator_sentinel_text in E; contradiction|].
    apply first_number_first_match in Hm.
    destruct (re_search t) as [m'|] eqn:Em.
    + apply re_search_Some in Em. rewrite (first_match_unique t m m' Hm Em) in Hq.
      rewrite (number_text_py_float m' neg q Hq). reflexivity.
    + apply re_search_None in Em. destruct Hm as (pre & post & E' & Hm & _).
      exfalso. exact (Em pre m post E' Hm).
  - destruct (mem_chars _ _) eqn:E; [apply indicator_sentinel_text in E; contradiction|].
    destruct (re_search t) as [m'|] eqn:Em; [|reflexivity].
    apply re_search_Some in Em. destruct Em as (pre & post & E' & Hm & _).
    apply no_number_no_match in Hn. exfalso. exact (Hn pre m' post E' Hm).
Qed.

(** C3. On plain cells (float cells, ASCII texts of at most 308
    characters) [extract_numeric_value] is the normalizer of the
    specification, and the only one: a number is returned as it is; a text
    whose trimming equals a sentinel up to case gives no value; any other
    text gives the float of the first number in its trimming (an optional
    minus sign, digits, an optional decimal fraction), or no value when
    there is none.  For "120 L/min" the result is 120.0 and for "45C" it is
    45.0. *)
Theorem extract_numeric_value_spec :
  (forall c : cell, plain_cell c ->
     normalize c (extract_numeric_value c)
     /\ forall r : option Q, normalize c r -> r = extract_numeric_value c)
  /\ extract_numeric_value (Str "120 L/min") = Some (120 # 1)%Q
  /\ extract_numeric_value (Str "45C") = Some (45 # 1)%Q.
Proof.
  split; [|split; reflexivity].
  intros c _. split; [apply extract_numeric_value_normalize|].
  intros r. apply normalize_functional.
Qed.

Lemma extract_numeric_value_spec_witness :
  normalize (Str "-12.75 bar") (Some (-51 # 4)%Q)
  /\ forall r : option Q, normalize (Str "-12.75 bar") r -> r = Some (-51 # 4)%Q.
Proof.
  apply (proj1 extract_numeric_value_spec (Str "-12.75 bar")).
  split; [reflexivity|]. cbn. lia.
Defined.

(** ** The dynamic upload view *)

Lemma metadata_is_valid_raises (md : metadata) (w : world) :
  metadata_getitem md "is_valid" w = (Raise (KeyError "is_valid"), w).
Proof. reflexivity. Qed.

Lemma upload_dynamic_body_400 (f : csv_file) (w w' : world) (r : Response) :
  upload_dynamic_body f w = (Ok r, w') -> exists e d, r = Response400 e d.
Proof.
  unfold upload_dynamic_body.
  destruct (file_read_csv f) as [t| |]; try (intros [= <- _]; eauto).
  unfold bind at 1. simpl.
  unfold bind at 1.
  destruct (deref _ _) as [[d|e] w1]; [|discriminate].
  destruct (df_empty d); [intros [= <- _]; eauto|].
  unfold bind at 1.
  destruct (process_dynamic_csv _ w1) as [[[pdf md]|e] w2]; [|discriminate].
  unfold bind at 1. rewrite metadata_is_valid_raises. discriminate.
Qed.

(** C1. The dynamic upload never answers with a success: for every request
    in every state the response is a 400, and for the non-empty table
    [sensors] it is the report of the [KeyError] raised by
    [metadata['is_valid']], a key [process_dynamic_csv] never sets. *)
Theorem upload_dynamic_always_400 :
  (forall (request_file : option csv_file) (w : world),
      exists e d, fst (upload_dynamic request_file w) = Ok (Response400 e d))
  /\ fst (upload_dynamic (upload_of "sensors.csv" sensors) fresh_world)
     = Ok (Response400 "Failed to process CSV file" (Some "'is_valid'"%string))
  /\ datasets (snd (upload_dynamic (upload_of "sensors.csv" sensors) fresh_world)) = [].
Proof.
  split; [|split; reflexivity].
  intros [f|] w; simpl; [|eauto].
  destruct (negb _); [simpl; eauto|].
  destruct (_ <? _); [simpl; eauto|].
  unfold try_except.
  destruct (upload_dynamic_body f w) as [[r|e] w'] eqn:E; simpl; [|eauto].
  apply upload_dynamic_body_400 in E as (e & d & ->). eauto.
Qed.

(** ** Effects on the [Dataset] table *)

Create HintDb db_pure.

Lemma same_db_refl (w : world) : same_db w w.
Proof. repeat split. Qed.

Lemma same_db_trans (w1 w2 w3 : world) :
  same_db w1 w2 -> same_db w2 w3 -> same_db w1 w3.
Proof. unfold same_db. intros (-> & -> & ->) (-> & -> & ->). auto. Qed.

Lemma db_pure_ret {A} (a : A) : db_pure (ret a).
Proof. intros w. apply same_db_refl. Qed.

Lemma db_pure_raise {A} (e : exn) : db_pure (@raise A e).
Proof. intros w. apply same_db_refl. Qed.

Lemma db_pure_bind {A B} (m : M A) (k : A -> M B) :
  db_pure m -> (forall a, db_pure (k a)) -> db_pure (bind m k).
Proof.
  intros Hm Hk w. unfold bind. specialize (Hm w).
  destruct (m w) as [[a|e] w1]; simpl in *; [|exact Hm].
  eapply same_db_trans; [exact Hm|apply Hk].
Qed.

Lemma db_pure_alloc (d : DataFrame) : db_pure (alloc d).
Proof. intros w. repeat split. Qed.

Lemma db_pure_deref (r : ref) : db_pure (deref r).
Proof. intros w. unfold deref. destruct (_ !! _); apply same_db_refl. Qed.

Lemma db_pure_assign (r : ref) (d : DataFrame) : db_pure (assign r d).
Proof. intros w. repeat split. Qed.

Lemma db_pure_draw : db_pure draw.
Proof. intros w. unfold draw. destruct (rng w); repeat split. Qed.

#[export] Hint Resolve db_pure_ret db_pure_raise db_pure_alloc db_pure_deref
  db_pure_assign db_pure_draw : db_pure.
#[export] Hint Extern 2 (db_pure (bind _ _)) => apply db_pure_bind; [|intros] : db_pure.
#[export] Hint Extern 3 (db_pure (match ?x with _ => _ end)) => destruct x : db_pure.

Lemma db_pure_getitem (r : ref) (col : string) : db_pure (getitem r col).
Proof. unfold getitem. auto with db_pure. Qed.

Lemma db_pure_setitem (r : ref) (col : string) (v : Series) : db_pure (setitem r col v).
Proof. unfold setitem. auto with db_pure. Qed.

#[export] Hint Resolve db_pure_getitem db_pure_setitem : db_pure.

Lemma db_pure_for_each {A} (xs : list A) (body : A -> M unit) :
  (forall x, db_pure (body x)) -> db_pure (for_each xs body).
Proof. intros H. induction xs; simpl; auto with db_pure. Qed.

Lemma db_pure_foldM {A S} (f : S -> A -> M S) (xs : list A) (s : S) :
  (forall s x, db_pure (f s x)) -> db_pure (foldM f xs s).
Proof. intros H. revert s. induction xs; intros s; simpl; auto with db_pure. Qed.

#[export] Hint Extern 2 (db_pure (for_each _ _)) => apply db_pure_for_each; intros : db_pure.
#[export] Hint Extern 2 (db_pure (foldM _ _ _)) => apply db_pure_foldM; intros : db_pure.

Lemma db_pure_sample {A} (n : nat) (xs : list A) : db_pure (sample n xs).
Proof.
  revert xs. induction n as [|n IH]; intros xs; simpl; [auto with db_pure|].
  destruct xs; auto with db_pure.
Qed.

#[export] Hint Resolve db_pure_sample : db_pure.

Lemma db_pure_upload_clean (df : ref) : db_pure (upload_clean df).
Proof. unfold upload_clean. auto 20 with db_pure. Qed.

Lemma db_pure_detect_column_types (df : ref) : db_pure (detect_column_types df).
Proof. unfold detect_column_types, detect_column. auto 20 with db_pure. Qed.

Lemma db_pure_process_dynamic_csv (df : ref) : db_pure (process_dynamic_csv df).
Proof.
  unfold process_dynamic_csv, process_column.
  pose proof db_pure_detect_column_types. auto 20 with db_pure.
Qed.

(** ** The statistics engine *)

Lemma present_map_Num (xs : list Q) : present (map Num xs) = xs.
Proof. induction xs as [|x xs IH]; [reflexivity|]. cbn. unfold present in IH. rewrite IH. reflexivity. Qed.

Lemma series_std_many (x y : Q) (xs : list Q) :
  series_std (map Num (x :: y :: xs)) = FSqrt (sample_variance (x :: y :: xs)).
Proof. unfold series_std. rewrite present_map_Num. reflexivity. Qed.

Lemma series_std_one (x : Q) : series_std [Num x] = FNaN.
Proof. reflexivity. Qed.

Lemma dict_set_entries {V} (P : string -> V -> Prop) (d : list (string * V)) (k : string) (v : V) :
  (forall k' v', In (k', v') d -> P k' v') -> P k v ->
  forall k' v', In (k', v') (dict_set d k v) -> P k' v'.
Proof.
  intros Hd Hv. induction d as [|[k0 v0] d IH]; simpl.
  - intros k' v' [[= <- <-]|[]]. exact Hv.
  - destruct (String.eqb k0 k) eqn:E.
    + apply String.eqb_eq in E. subst k0.
      intros k' v' [[= <- <-]|H]; [exact Hv|]. apply Hd. right. exact H.
    + intros k' v' [[= <- <-]|H]; [apply Hd; left; reflexivity|].
      apply IH; [|exact H]. intros. apply Hd. right. assumption.
Qed.

(** Every entry [calculate_dynamic_statistics] returns is the
    [column_statistics] of the present cells of a requested column. *)
Lemma calculate_dynamic_statistics_entries (df : ref) (cols : list string)
    (d : DataFrame) (w : world) :
  heap w !! df = Some d ->
  exists stats,
    calculate_dynamic_statistics df cols w = (Ok stats, w)
    /\ forall col st, In (col, st) stats ->
         In col cols /\ exists s, df_get d col = Some s /\ dropna s <> []
                                   /\ st = column_statistics (dropna s).
Proof.
  intros Hd. unfold calculate_dynamic_statistics, bind at 1, deref. rewrite Hd.
  set (P := fun (cs : list string) (col : string) (st : ColumnStats) =>
              In col cs /\ exists s, df_get d col = Some s /\ dropna s <> []
                                      /\ st = column_statistics (dropna s)).
  assert (G : forall cs acc, (forall c, In c cs -> In c cols) ->
              (forall col st, In (col, st) acc -> P cols col st) ->
              exists stats,
                foldM (fun stats col =>
                   match df_get d col with
                   | Some s =>
                       if (0 <? length (dropna s))%nat
                       then ret (dict_set stats col (column_statistics (dropna s)))
                       else ret stats
                   | None => ret stats
                   end) cs acc w = (Ok stats, w)
                /\ forall col st, In (col, st) stats -> P cols col st).
  { induction cs as [|c cs IH]; intros acc Hcs Hacc; simpl.
    - eauto.
    - unfold bind. destruct (df_get d c) as [s|] eqn:E.
      + destruct (0 <? length (dropna s))%nat eqn:El; simpl.
        * apply IH; [intros; apply Hcs; right; assumption|].
          apply dict_set_entries; [exact Hacc|].
          split; [apply Hcs; left; reflexivity|].
          exists s. repeat split; auto.
          intros Hn. rewrite Hn in El. discriminate.
        * apply IH; [intros; apply Hcs; right; assumption|exact Hacc].
      + simpl. apply IH; [intros; apply Hcs; right; assumption|exact Hacc]. }
  apply G; [auto|intros ? ? []].
Qed.

(** C7. On the dynamic path the standard deviation of a column with the
    present values [x :: xs] is 0 when [xs] is empty and the root of the
    sample variance (divisor [n - 1]) otherwise; on the fixed path [upload]
    takes [Series.std()] unguarded, which is [nan] for a single value: for
    the one-row table [one_pump] the three deviations it reports are
    [nan]. *)
Theorem std_dev_single_value :
  (forall (x : Q) (xs : list Q),
      stat_std_dev (column_statistics (map Num (x :: xs)))
      = match xs with
        | [] => FNum 0
        | _ :: _ => FSqrt (sample_variance (x :: xs))
        end)
  /\ (forall x : Q, fs_std (stats5 [Num x]) = FNaN)
  /\ exists dataset stats warnings,
       fst (upload (upload_of "one.csv" one_pump) fresh_world)
       = Ok (Response201 dataset stats warnings)
       /\ fs_std (flowrate stats) = FNaN
       /\ fs_std (pressure stats) = FNaN
       /\ fs_std (temperature stats) = FNaN.
Proof.
  split; [|split].
  - intros x [|y xs]; [reflexivity|].
    unfold column_statistics, stat_std_dev.
    rewrite series_std_many. reflexivity.
  - reflexivity.
  - vm_compute. do 3 eexists. split; [reflexivity|]. auto.
Qed.

(** ** The fixed-schema upload view *)

Lemma check_range_acc (d : DataFrame) (col : string) (lo : Q) (lo_msg : string)
    (hi : Q) (hi_msg : string) (acc : list string) :
  check_range d col lo lo_msg hi hi_msg acc
  = acc ++ map snd (List.filter fst [(violates_lt d col lo, lo_msg);
                                     (violates_gt d col hi, hi_msg)]).
Proof.
  unfold check_range, violates_lt, violates_gt.
  destruct (df_get d col) as [s|]; simpl; [|rewrite app_nil_r; reflexivity].
  destruct (is_numeric_dtype s); simpl; [|rewrite app_nil_r; reflexivity].
  destruct (any_lt s lo), (any_gt s hi); simpl;
    rewrite <- ?app_assoc, ?app_nil_r; reflexivity.
Qed.

Lemma check_blank_acc (d : DataFrame) (col msg : string) (acc : list string) :
  check_blank d col msg acc
  = acc ++ map snd (List.filter fst [(violates_blank d col, msg)]).
Proof.
  unfold check_blank, violates_blank.
  destruct (df_get d col) as [s|]; simpl; [|rewrite app_nil_r; reflexivity].
  destruct (any_blank s); simpl; rewrite ?app_nil_r; reflexivity.
Qed.

(** The report of [validate] holds the message of every violated check:
    no check is skipped because an earlier one failed. *)
Lemma validate_accumulates (d : DataFrame) : validate d = violated d.
Proof.
  unfold validate, violated, checks.
  rewrite !check_blank_acc, !check_range_acc.
  generalize (violates_lt d "Flowrate" 0), (violates_gt d "Flowrate" 10000),
    (violates_lt d "Pressure" 0), (violates_gt d "Pressure" 1000),
    (violates_lt d "Temperature" absolute_zero), (violates_gt d "Temperature" 5000),
    (violates_blank d "Equipment Name"), (violates_blank d "Type").
  intros [] [] [] [] [] [] [] []; reflexivity.
Qed.

Lemma upload_clean_early (df : ref) (w w' : world) (resp : Response) :
  upload_clean df w = (Ok (inl resp), w') ->
  resp = Response400 "CSV file contains no valid numeric data after parsing" None.
Proof.
  unfold upload_clean.
  unfold bind at 1. destruct (for_each _ _ w) as [[[]|e] w1]; [|discriminate].
  unfold bind at 1. destruct (deref df w1) as [[d|e] w2]; [|discriminate].
  unfold bind at 1. destruct (alloc _ w2) as [[dfc|e] w3]; [|discriminate].
  unfold bind at 1. destruct (deref dfc w3) as [[d'|e] w4]; [|discriminate].
  destruct (df_empty d'); [intros [= <- _]; reflexivity|].
  unfold bind at 1. destruct (foldM _ _ _ w4) as [[ws|e] w5]; [|discriminate].
  unfold bind at 1. destruct (for_each _ _ w5) as [[[]|e] w6]; discriminate.
Qed.

Lemma for_each_delete_ok (l : list Dataset) (w : world) :
  exists w', for_each l Dataset_delete w = (Ok tt, w').
Proof.
  revert w. induction l as [|x l IH]; intros w; simpl; [eauto|].
  unfold bind. simpl. apply IH.
Qed.

Create HintDb heap_len.

Lemma heap_len_ret {A} (a : A) : heap_len_pure (ret a).
Proof. intros w. reflexivity. Qed.

Lemma heap_len_raise {A} (e : exn) : heap_len_pure (@raise A e).
Proof. intros w. reflexivity. Qed.

Lemma heap_len_bind {A B} (m : M A) (k : A -> M B) :
  heap_len_pure m -> (forall a, heap_len_pure (k a)) -> heap_len_pure (bind m k).
Proof.
  intros Hm Hk w. unfold bind. specialize (Hm w).
  destruct (m w) as [[a|e] w1]; simpl in *; [|exact Hm].
  rewrite Hk. exact Hm.
Qed.

Lemma heap_len_deref (r : ref) : heap_len_pure (deref r).
Proof. intros w. unfold deref. destruct (_ !! _); reflexivity. Qed.

Lemma heap_len_assign (r : ref) (d : DataFrame) : heap_len_pure (assign r d).
Proof. intros w. simpl. apply length_insert. Qed.

#[export] Hint Resolve heap_len_ret heap_len_raise heap_len_deref heap_len_assign : heap_len.
#[export] Hint Extern 2 (heap_len_pure (bind _ _)) =>
  apply heap_len_bind; [|intros] : heap_len.
#[export] Hint Extern 3 (heap_len_pure (match ?x with _ => _ end)) => destruct x : heap_len.

Lemma heap_len_getitem (r : ref) (col : string) : heap_len_pure (getitem r col).
Proof. unfold getitem. auto with heap_len. Qed.

Lemma heap_len_setitem (r : ref) (col : string) (v : Series) :
  heap_len_pure (setitem r col v).
Proof. unfold setitem. auto with heap_len. Qed.

#[export] Hint Resolve heap_len_getitem heap_len_setitem : heap_len.

Lemma heap_len_for_each {A} (xs : list A) (body : A -> M unit) :
  (forall x, heap_len_pure (body x)) -> heap_len_pure (for_each xs body).
Proof. intros H. induction xs; simpl; auto with heap_len. Qed.

Lemma heap_len_foldM {A S} (f : S -> A -> M S) (xs : list A) (s : S) :
  (forall s x, heap_len_pure (f s x)) -> heap_len_pure (foldM f xs s).
Proof. intros H. revert s. induction xs; intros s; simpl; auto with heap_len. Qed.

#[export] Hint Extern 2 (heap_len_pure (for_each _ _)) =>
  apply heap_len_for_each; intros : heap_len.
#[export] Hint Extern 2 (heap_len_pure (foldM _ _ _)) =>
  apply heap_len_foldM; intros : heap_len.

(** The frame [upload_clean] hands on is the one it allocates. *)
Lemma upload_clean_ref (df dfc : ref) (warns : list string) (w w' : world) :
  upload_clean df w = (Ok (inr (dfc, warns)), w') -> dfc = length (heap w).
Proof.
  unfold upload_clean.
  unfold bind at 1.
  match goal with |- context [for_each ?l ?b w] =>
    assert (H1 : heap_len_pure (for_each l b)) by auto 10 with heap_len;
    specialize (H1 w); destruct (for_each l b w) as [[[]|e] w1]; [|discriminate]
  end. simpl in H1.
  unfold bind at 1.
  pose proof (heap_len_deref df w1) as H2.
  destruct (deref df w1) as [[d|e] w2]; [|discriminate]. simpl in H2.
  unfold bind at 1. unfold alloc at 1.
  unfold bind at 1.
  destruct (deref _ _) as [[d'|e] w4]; [|discriminate].
  destruct (df_empty d'); [discriminate|].
  unfold bind at 1. destruct (foldM _ _ _ w4) as [[ws|e] w5]; [|discriminate].
  unfold bind at 1. destruct (for_each _ _ w5) as [[[]|e] w6]; [|discriminate].
  intros [= <- _ _]. congruence.
Qed.

Lemma getitem_inv (r : ref) (col : string) (v : Series) (w w' : world) :
  getitem r col w = (Ok v, w') ->
  w' = w /\ exists d, heap w !! r = Some d /\ df_get d col = Some v.
Proof.
  unfold getitem, bind, deref. destruct (heap w !! r) as [d|] eqn:Eh; [|discriminate].
  destruct (df_get d col) as [s|] eqn:Eg; [|discriminate].
  intros [= <- <-]. eauto.
Qed.

(** Writing the equipment rows leaves the modelled state as it is, also
    when a row is refused. *)
Lemma create_equipment_records_world (fl pr te : Series) (rows : nat) (w : world) :
  snd (create_equipment_records fl pr te rows w) = w.
Proof.
  unfold create_equipment_records.
  generalize (seq 0 rows) as idxs. intros idxs. revert w.
  induction idxs as [|idx idxs IH]; intros w; [reflexivity|].
  cbn [for_each]. unfold bind at 1.
  assert (Hrow : forall w0,
    snd ((flowrate <- float_of_cell (nth idx fl NaN) ;;
          pressure <- float_of_cell (nth idx pr NaN) ;;
          temperature <- float_of_cell (nth idx te NaN) ;;
          Equipment_objects_create flowrate pressure temperature) w0) = w0).
  { intros w0. unfold bind, float_of_cell, Equipment_objects_create, ret, raise.
    destruct (nth idx fl NaN), (nth idx pr NaN), (nth idx te NaN); reflexivity. }
  specialize (Hrow w).
  destruct ((flowrate <- float_of_cell (nth idx fl NaN) ;;
             pressure <- float_of_cell (nth idx pr NaN) ;;
             temperature <- float_of_cell (nth idx te NaN) ;;
             Equipment_objects_create flowrate pressure temperature) w)
    as [[[]|e] w0]; cbn [snd] in Hrow; subst w0; [apply IH|reflexivity].
Qed.

(** What [upload_body] leaves behind, by the kind of its response.  An
    exception can leave the new dataset behind: the equipment rows are
    written after it, outside any transaction. *)
Lemma upload_body_cases (f : csv_file) (w : world) :
  match upload_body f w with
  | (Ok (Response201 dataset _ _), w') =>
      exists w1 d, same_db w w1
        /\ heap w1 !! S (length (heap w)) = Some d /\ validate d = []
        /\ Dataset_objects_create (file_name f) (total_count dataset) None []
             (avg_flowrate dataset) (avg_pressure dataset) (avg_temperature dataset) w1
           = (Ok dataset, World (heap w1) (rng w1) (datasets w1 ++ [dataset])
                            (S (next_pk w1)) (clock w1 + 1))
        /\ for_each (skipn 5 (order_by_uploaded_at_desc (datasets w1 ++ [dataset])))
             Dataset_delete
             (World (heap w1) (rng w1) (datasets w1 ++ [dataset])
                (S (next_pk w1)) (clock w1 + 1))
           = (Ok tt, w')
  | (Ok (Response400_validation errs _), w') =>
      same_db w w' /\ errs <> []
      /\ exists d, heap w' !! S (length (heap w)) = Some d /\ errs = validate d
  | (Ok _, w') => same_db w w'
  | (Raise _, w') =>
      same_db w w'
      \/ exists dataset, datasets w' = datasets w ++ [dataset]
  end.
Proof.
  unfold upload_body.
  destruct (file_read_csv f) as [t| |]; try apply same_db_refl.
  unfold bind at 1.
  pose proof (db_pure_alloc t w) as H0.
  assert (Ha : alloc t w = (Ok (length (heap w)),
                World (heap w ++ [t]) (rng w) (datasets w) (next_pk w) (clock w)))
    by reflexivity.
  destruct (alloc t w) as [[df|e] w0]; cbn [snd] in H0; [|left; exact H0].
  injection Ha as -> ->.
  unfold bind at 1.
  match goal with |- context [deref ?r ?w0] =>
    pose proof (db_pure_deref r w0) as H1; pose proof (heap_len_deref r w0) as L1;
    destruct (deref r w0) as [[d|e] w1']; cbn [snd] in H1, L1;
    [|left; exact (same_db_trans _ _ _ H0 H1)]
  end.
  cbn [heap] in L1. rewrite length_app in L1. cbn [length] in L1.
  assert (Hw1 : same_db w w1') by exact (same_db_trans _ _ _ H0 H1). clear H0 H1.
  destruct (df_empty d); [exact Hw1|].
  destruct (List.filter _ required_columns); [|exact Hw1].
  unfold bind at 1.
  pose proof (db_pure_upload_clean (length (heap w)) w1') as H2.
  destruct (upload_clean (length (heap w)) w1') as [[[resp|[dfc warns]]|e] w2] eqn:Ec; cbn [snd] in H2;
    [| |left; exact (same_db_trans _ _ _ Hw1 H2)].
  { assert (same_db w w2) by exact (same_db_trans _ _ _ Hw1 H2).
    apply upload_clean_early in Ec. subst resp. assumption. }
  assert (Hw2 : same_db w w2) by exact (same_db_trans _ _ _ Hw1 H2). clear H2.
  apply upload_clean_ref in Ec. rewrite L1 in Ec. replace (length (heap w) + 1)%nat
    with (S (length (heap w))) in Ec by lia.
  unfold bind at 1.
  pose proof (db_pure_deref dfc w2) as H3.
  destruct (deref dfc w2) as [[d'|e] w3] eqn:Ed; cbn [snd] in H3;
    [|left; exact (same_db_trans _ _ _ Hw2 H3)].
  assert (Hheap : heap w3 !! dfc = Some d').
  { unfold deref in Ed. destruct (heap w2 !! dfc) eqn:E; [|discriminate].
    injection Ed as <- <-. exact E. }
  assert (Hw3 : same_db w w3) by exact (same_db_trans _ _ _ Hw2 H3). clear H3.
  destruct (validate d') as [|e0 errs] eqn:Ev.
  - unfold bind at 1.
    destruct (getitem dfc "Flowrate" w3) as [[fl|e] w4] eqn:E4;
      [|pose proof (db_pure_getitem dfc "Flowrate" w3) as H4; rewrite E4 in H4;
        left; exact (same_db_trans _ _ _ Hw3 H4)].
    apply getitem_inv in E4 as [-> _].
    unfold bind at 1.
    destruct (getitem dfc "Pressure" w3) as [[pr|e] w5] eqn:E5;
      [|pose proof (db_pure_getitem dfc "Pressure" w3) as H5; rewrite E5 in H5;
        left; exact (same_db_trans _ _ _ Hw3 H5)].
    apply getitem_inv in E5 as [-> _].
    unfold bind at 1.
    destruct (getitem dfc "Temperature" w3) as [[te|e] w6] eqn:E6;
      [|pose proof (db_pure_getitem dfc "Temperature" w3) as H6; rewrite E6 in H6;
        left; exact (same_db_trans _ _ _ Hw3 H6)].
    apply getitem_inv in E6 as [-> _].
    unfold bind at 1. unfold Dataset_objects_create at 1.
    unfold bind at 1.
    match goal with |- context [create_equipment_records fl pr te ?n ?w0] =>
      pose proof (create_equipment_records_world fl pr te n w0) as Hrows;
      destruct (create_equipment_records fl pr te n w0) as [[[]|e] wr];
      cbn [snd] in Hrows; subst wr
    end.
    + unfold bind at 1. unfold Dataset_objects_all at 1.
      unfold bind at 1. cbn [datasets].
      match goal with |- context [for_each ?l Dataset_delete ?w0] =>
        destruct (for_each l Dataset_delete w0) as [[[]|e] w7] eqn:Ef end.
      * exists w3, d'. rewrite <- Ec. auto 6.
      * match type of Ef with for_each ?l _ ?w0 = _ =>
          destruct (for_each_delete_ok l w0) as [w8 E8] end.
        congruence.
    + right. eexists. cbn [datasets]. destruct Hw3 as (-> & _). reflexivity.
  - split; [exact Hw3|]. split; [discriminate|]. exists d'. rewrite <- Ec. auto.
Qed.

Lemma for_each_delete_heap (l : list Dataset) (w w' : world) :
  for_each l Dataset_delete w = (Ok tt, w') -> heap w' = heap w.
Proof.
  revert w. induction l as [|x l IH]; intros w; simpl.
  - intros [= <-]. reflexivity.
  - unfold bind. simpl. intros H. apply IH in H. exact H.
Qed.

(** C2. An empty name is not reported.  In the rows of [nameless] the
    first name is missing, as [pd.read_csv] delivers an empty field: [upload]
    finds nothing to report, answers 201 and stores the dataset.  A name of
    blanks, which [pd.read_csv] keeps as text, is reported with "Equipment
    Name cannot be empty" and nothing is stored. *)
Theorem upload_accepts_missing_name :
  (exists dataset stats w',
      upload (upload_of "nameless.csv" nameless) fresh_world
      = (Ok (Response201 dataset stats None), w')
      /\ datasets w' = [dataset] /\ total_count dataset = 2)
  /\ fst (upload (upload_of "blank.csv" blank_name) fresh_world)
     = Ok (Response400_validation ["Equipment Name cannot be empty"%string] None)
  /\ datasets (snd (upload (upload_of "blank.csv" blank_name) fresh_world)) = [].
Proof.
  split; [|split; reflexivity].
  eexists _, _, _. split; [vm_compute; reflexivity|]. split; reflexivity.
Qed.

(** C4, on the fixed-schema path.  For the rows of [pumps] the view fills
    the missing flowrate with the mean 120.0 of the present ones and stores
    the mean flowrate 120.0; its warning is "Flowrate has 1 missing or
    unparseable value(s) - rows will use average".  The text "Flowrate:
    Missing values filled with mean (120.00)" is the warning of
    [process_dynamic_csv] for the same rows as pandas reads them. *)
Theorem upload_pumps_imputes_mean :
  (exists dataset stats w',
      upload (upload_of "pumps.csv" pumps) fresh_world
      = (Ok (Response201 dataset stats
               (Some ["Flowrate has 1 missing or unparseable value(s) - rows will use average"%string])),
         w')
      /\ (exists d, heap w' !! 1%nat = Some d
                    /\ df_get d "Flowrate" = Some [Num 120; Num 120])
      /\ avg_flowrate dataset = Some (FNum 120)
      /\ fs_mean (flowrate stats) = FNum 120
      /\ datasets w' = [dataset])
  /\ (exists df' md w',
        (df <- alloc pumps_read ;; process_dynamic_csv df) fresh_world
        = (Ok (df', md), w')
        /\ md_validation_warnings md
           = ["Flowrate: Missing values filled with mean (120.00)"%string]
        /\ exists d, heap w' !! 0%nat = Some d
                     /\ df_get d "Flowrate" = Some [Num 120; Num 120]).
Proof.
  split.
  - do 3 eexists. split; [vm_compute; reflexivity|].
    split; [eexists; split; vm_compute; reflexivity|]. vm_compute. auto.
  - do 3 eexists. split; [vm_compute; reflexivity|].
    split; [vm_compute; reflexivity|]. eexists; split; vm_compute; reflexivity.
Qed.

(** For the rows of [pumps] the fixed-schema view does not emit the warning
    "Flowrate: Missing values filled with mean (120.00)". *)
Lemma upload_pumps_warning_differs :
  ~ exists dataset stats warnings,
      fst (upload (upload_of "pumps.csv" pumps) fresh_world)
      = Ok (Response201 dataset stats (Some warnings))
      /\ In "Flowrate: Missing values filled with mean (120.00)"%string warnings.
Proof.
  intros (dataset & stats & warnings & E & H).
  vm_compute in E. injection E as _ _ <-.
  destruct H as [H|[]]. discriminate.
Qed.

(** ** Retention of the last five datasets *)

Lemma insert_by_uploaded_at_perm (d : Dataset) (ds : list Dataset) :
  Permutation (insert_by_uploaded_at d ds) (d :: ds).
Proof.
  induction ds as [|e ds IH]; simpl; [reflexivity|].
  destruct (uploaded_at e <? uploaded_at d); [reflexivity|].
  rewrite IH. apply perm_swap.
Qed.

Lemma order_by_uploaded_at_desc_perm (ds : list Dataset) :
  Permutation (order_by_uploaded_at_desc ds) ds.
Proof.
  induction ds as [|d ds IH]; simpl; [reflexivity|].
  rewrite insert_by_uploaded_at_perm. rewrite IH. reflexivity.
Qed.

Lemma insert_by_uploaded_at_sorted (d : Dataset) (ds : list Dataset) :
  newest_first ds -> newest_first (insert_by_uploaded_at d ds).
Proof.
  induction ds as [|e ds IH]; simpl; [auto|].
  intros [He Hs]. destruct (uploaded_at e <? uploaded_at d) eqn:E; simpl.
  - apply Z.ltb_lt in E. split; [|auto]. constructor; [lia|].
    eapply Forall_impl; [exact He|]. simpl. intros; lia.
  - apply Z.ltb_ge in E. split; [|auto].
    rewrite insert_by_uploaded_at_perm. constructor; assumption.
Qed.

Lemma order_by_uploaded_at_desc_sorted (ds : list Dataset) :
  newest_first (order_by_uploaded_at_desc ds).
Proof.
  induction ds as [|d ds IH]; simpl; [auto|].
  apply insert_by_uploaded_at_sorted, IH.
Qed.

(** A row newer than all the others comes first. *)
Lemma order_newest_last (ds : list Dataset) (new : Dataset) :
  Forall (fun d => uploaded_at d < uploaded_at new) ds ->
  order_by_uploaded_at_desc (ds ++ [new]) = new :: order_by_uploaded_at_desc ds.
Proof.
  induction ds as [|e ds IH]; simpl; [reflexivity|].
  intros H. apply Forall_cons_1 in H as [He H]. rewrite IH by exact H. simpl.
  replace (uploaded_at new <? uploaded_at e) with false; [reflexivity|].
  symmetry. apply Z.ltb_ge. lia.
Qed.

Lemma insert_head (d : Dataset) (l : list Dataset) :
  Forall (fun e => uploaded_at e < uploaded_at d) l ->
  insert_by_uploaded_at d l = d :: l.
Proof.
  destruct l as [|e l]; simpl; [reflexivity|].
  intros H. apply Forall_cons_1 in H as [He _].
  apply Z.ltb_lt in He. rewrite He. reflexivity.
Qed.

Lemma Forall_filter_keep {A} (P : A -> Prop) (p : A -> bool) (l : list A) :
  Forall P l -> Forall P (List.filter p l).
Proof.
  induction 1 as [|x l Hx Hl IH]; simpl; [constructor|].
  destruct (p x); [constructor|]; assumption.
Qed.

Lemma insert_filter (p : Dataset -> bool) (d : Dataset) (ds : list Dataset) :
  newest_first ds ->
  List.filter p (insert_by_uploaded_at d ds)
  = if p d then insert_by_uploaded_at d (List.filter p ds) else List.filter p ds.
Proof.
  induction ds as [|e ds IH]; simpl.
  - destruct (p d); reflexivity.
  - intros [He Hs]. destruct (uploaded_at e <? uploaded_at d) eqn:E.
    + apply Z.ltb_lt in E.
      assert (Hall : Forall (fun x => uploaded_at x < uploaded_at d) (e :: ds)).
      { constructor; [exact E|]. eapply Forall_impl; [exact He|]. simpl. intros; lia. }
      change (List.filter p (d :: e :: ds)
              = if p d then insert_by_uploaded_at d (List.filter p (e :: ds))
                else List.filter p (e :: ds)).
      rewrite (insert_head d (List.filter p (e :: ds)))
        by (apply Forall_filter_keep; exact Hall).
      simpl. destruct (p d); reflexivity.
    + simpl. rewrite IH by exact Hs.
      destruct (p d), (p e); simpl; rewrite ?E; reflexivity.
Qed.

Lemma order_filter (p : Dataset -> bool) (ds : list Dataset) :
  order_by_uploaded_at_desc (List.filter p ds)
  = List.filter p (order_by_uploaded_at_desc ds).
Proof.
  induction ds as [|d ds IH]; simpl; [reflexivity|].
  rewrite insert_filter by apply order_by_uploaded_at_desc_sorted.
  destruct (p d); simpl; rewrite IH; reflexivity.
Qed.

Lemma without_cons (x : Dataset) (old ds : list Dataset) :
  without (x :: old) ds
  = without old (List.filter (fun d => negb (pk d =? pk x)%nat) ds).
Proof.
  unfold without. induction ds as [|d ds IH]; [reflexivity|].
  simpl in *. destruct (pk d =? pk x)%nat; simpl; [exact IH|].
  destruct (existsb _ old); simpl; rewrite IH; reflexivity.
Qed.

Lemma for_each_delete_spec (old : list Dataset) (w : world) :
  for_each old Dataset_delete w
  = (Ok tt, World (heap w) (rng w) (without old (datasets w)) (next_pk w) (clock w)).
Proof.
  revert w. induction old as [|x old IH]; intros w.
  - simpl. unfold ret, without. simpl.
    replace (List.filter (fun _ => true) (datasets w)) with (datasets w);
      [destruct w; reflexivity|].
    induction (datasets w) as [|d l IHl]; simpl; [reflexivity|]. rewrite <- IHl. reflexivity.
  - simpl. unfold bind. simpl. rewrite IH. simpl. rewrite without_cons. reflexivity.
Qed.

Lemma existsb_pk (d : Dataset) (old : list Dataset) :
  existsb (fun o => (pk d =? pk o)%nat) old = true <-> In (pk d) (map pk old).
Proof.
  rewrite existsb_exists, in_map_iff. split.
  - intros (o & Ho & E). apply Nat.eqb_eq in E. eauto.
  - intros (o & E & Ho). exists o. split; [exact Ho|]. apply Nat.eqb_eq. auto.
Qed.

Lemma without_all (old l : list Dataset) :
  (forall d, In d l -> In (pk d) (map pk old)) -> without old l = [].
Proof.
  unfold without. induction l as [|d l IH]; simpl; [reflexivity|].
  intros H. replace (existsb _ old) with true
    by (symmetry; apply existsb_pk, H; left; reflexivity).
  simpl. apply IH. intros; apply H; right; assumption.
Qed.

Lemma without_none (old l : list Dataset) :
  (forall d, In d l -> ~ In (pk d) (map pk old)) -> without old l = l.
Proof.
  unfold without. induction l as [|d l IH]; simpl; [reflexivity|].
  intros H. destruct (existsb _ old) eqn:E.
  - apply existsb_pk in E. exfalso. apply (H d); [left; reflexivity|exact E].
  - simpl. f_equal. apply IH. intros; apply H; right; assumption.
Qed.

Lemma without_app (old l1 l2 : list Dataset) :
  without old (l1 ++ l2) = without old l1 ++ without old l2.
Proof. unfold without. apply List.filter_app. Qed.

Lemma without_suffix (l1 l2 : list Dataset) :
  NoDup (map pk (l1 ++ l2)) -> without l2 (l1 ++ l2) = l1.
Proof.
  intros H. rewrite without_app.
  rewrite (without_all l2 l2) by (intros; apply in_map; assumption).
  rewrite app_nil_r. apply without_none.
  intros d Hd Hin. rewrite map_app in H.
  apply NoDup_app in H as (_ & H & _). apply (H (pk d)).
  - apply list_elem_of_In, in_map, Hd.
  - apply list_elem_of_In, Hin.
Qed.

Lemma same_db_store_ok (w w' : world) : same_db w w' -> store_ok w -> store_ok w'.
Proof. unfold same_db, store_ok. intros (-> & -> & ->). auto. Qed.

Lemma NoDup_pk_without (old ds : list Dataset) :
  NoDup (map pk ds) -> NoDup (map pk (without old ds)).
Proof.
  unfold without. induction ds as [|d ds IH]; simpl; [auto|].
  intros H. apply NoDup_cons in H as [Hd H].
  destruct (negb _); simpl; [|auto]. apply NoDup_cons. split; [|auto].
  intros Hin. apply Hd. apply list_elem_of_In in Hin. apply list_elem_of_In.
  apply in_map_iff in Hin as (e & E & He). apply List.filter_In in He as [He _].
  apply in_map_iff. eauto.
Qed.

Lemma newest_first_last (l : list Dataset) (x : Dataset) :
  newest_first (l ++ [x]) -> forall d, In d (l ++ [x]) -> uploaded_at x <= uploaded_at d.
Proof.
  induction l as [|e l IH]; simpl.
  - intros _ d [<-|[]]. lia.
  - intros [He Hs] d [<-|Hd]; [|auto].
    rewrite Forall_forall in He. apply He. apply list_elem_of_In, in_or_app.
    right. left. reflexivity.
Qed.

(** C6. After a successful fixed-schema upload into a well-formed table,
    the rows that remain are the five newest of the table with the new
    row, so at most five; with five rows before, five remain and the one
    evicted is the oldest. *)
Theorem upload_keeps_last_five (request_file : option csv_file) (w w' : world)
    (dataset : Dataset) (stats : upload_stats) (warnings : option (list string)) :
  store_ok w ->
  upload request_file w = (Ok (Response201 dataset stats warnings), w') ->
  order_by_uploaded_at_desc (datasets w')
  = firstn 5 (dataset :: order_by_uploaded_at_desc (datasets w))
  /\ (length (datasets w') <= 5)%nat
  /\ store_ok w'
  /\ (length (datasets w) = 5%nat ->
      length (datasets w') = 5%nat
      /\ exists oldest,
           In oldest (datasets w)
           /\ (forall d, In d (datasets w) -> uploaded_at oldest <= uploaded_at d)
           /\ ~ In oldest (datasets w')
           /\ forall d, In d (datasets w) -> d <> oldest -> In d (datasets w')).
Proof.
  intros Hok Hup.
  assert (Hbody : exists f, upload_body f w = (Ok (Response201 dataset stats warnings), w')).
  { unfold upload in Hup. destruct request_file as [f|]; [|discriminate].
    destruct (negb _); [discriminate|]. destruct (_ <? _); [discriminate|].
    unfold try_except in Hup. exists f.
    destruct (upload_body f w) as [[r|e] w0]; [exact Hup|discriminate]. }
  destruct Hbody as [f Hbody]. pose proof (upload_body_cases f w) as H.
  rewrite Hbody in H. destruct H as (w1 & d0 & Hdb & _ & _ & Hc & Hf).
  apply (same_db_store_ok _ _ Hdb) in Hok.
  destruct Hdb as (Eds & _ & _). rewrite <- Eds. clear Eds Hbody Hup.
  assert (Hpk : pk dataset = next_pk w1 /\ uploaded_at dataset = clock w1).
  { unfold Dataset_objects_create in Hc. injection Hc as Hc. rewrite <- Hc. auto. }
  clear Hc. destruct Hpk as [Hpk Hat].
  rewrite for_each_delete_spec in Hf. injection Hf as <-. cbn [datasets next_pk clock].
  destruct Hok as [Hnd Hall]. set (ds := datasets w1) in *.
  assert (Hnew : Forall (fun d => uploaded_at d < uploaded_at dataset) ds).
  { eapply Forall_impl; [exact Hall|]. simpl. intros; lia. }
  rewrite (order_newest_last ds dataset Hnew).
  set (S := order_by_uploaded_at_desc ds).
  assert (HpS : Permutation S ds) by apply order_by_uploaded_at_desc_perm.
  assert (HndD : NoDup (map pk (ds ++ [dataset]))).
  { rewrite map_app. apply NoDup_app. split; [exact Hnd|]. split.
    - intros x Hx [E|[]]%list_elem_of_In. simpl in E.
      apply list_elem_of_In, in_map_iff in Hx as (e & Ee & He).
      rewrite Forall_forall in Hall. apply list_elem_of_In, Hall in He. lia.
    - simpl. apply NoDup_singleton. }
  assert (HndS : NoDup (map pk (dataset :: S))).
  { assert (HP : Permutation (map pk (dataset :: S)) (map pk (ds ++ [dataset]))).
    { apply Permutation_map. rewrite HpS. apply Permutation_cons_append. }
    rewrite HP. exact HndD. }
  assert (Hord : order_by_uploaded_at_desc (without (skipn 5 (dataset :: S)) (ds ++ [dataset]))
                 = firstn 5 (dataset :: S)).
  { unfold without. rewrite order_filter. rewrite (order_newest_last ds dataset Hnew).
    fold S.
    transitivity (without (skipn 5 (dataset :: S))
                    (firstn 5 (dataset :: S) ++ skipn 5 (dataset :: S))).
    { rewrite firstn_skipn. reflexivity. }
    apply without_suffix. rewrite firstn_skipn. exact HndS. }
  assert (Hlen : length (without (skipn 5 (dataset :: S)) (ds ++ [dataset]))
                 = length (firstn 5 (dataset :: S))).
  { rewrite <- Hord. symmetry. apply Permutation_length, order_by_uploaded_at_desc_perm. }
  split; [exact Hord|]. split; [rewrite Hlen; apply firstn_le_length|]. split.
  - split; cbn [datasets next_pk clock].
    + apply NoDup_pk_without, HndD.
    + unfold without. apply Forall_filter_keep. apply Forall_app. split.
      * eapply Forall_impl; [exact Hall|]. simpl. intros; lia.
      * constructor; [lia|constructor].
  - intros H5. assert (HS5 : length S = 5%nat) by (rewrite (Permutation_length HpS); exact H5).
    split; [rewrite Hlen, length_firstn; simpl length; rewrite HS5; reflexivity|].
    destruct S as [|a [|b [|c [|e [|o [|? ?]]]]]] eqn:ES; try discriminate.
    exists o.
    assert (Hin : forall x, In x ds <-> In x [a; b; c; e; o]).
    { intros x. split; intros Hx; apply list_elem_of_In;
        [rewrite HpS|rewrite <- HpS]; apply list_elem_of_In, Hx. }
    assert (Hin' : forall x, In x (without (skipn 5 [dataset; a; b; c; e; o]) (ds ++ [dataset]))
                             <-> In x [dataset; a; b; c; e]).
    { intros x. cbn [firstn] in Hord. rewrite <- Hord.
      split; intros Hx; apply list_elem_of_In;
        [rewrite order_by_uploaded_at_desc_perm|rewrite <- order_by_uploaded_at_desc_perm];
        apply list_elem_of_In, Hx. }
    split; [apply Hin; simpl; auto 10|]. split.
    + intros x Hx. apply Hin in Hx.
      pose proof (order_by_uploaded_at_desc_sorted ds) as Hs. fold S in Hs. rewrite ES in Hs.
      apply (newest_first_last [a; b; c; e] o Hs x Hx).
    + split.
      * intros Ho. apply Hin' in Ho. simpl in HndS.
        assert (Hd : In (pk o) [pk dataset; pk a; pk b; pk c; pk e]).
        { change [pk dataset; pk a; pk b; pk c; pk e] with (map pk [dataset; a; b; c; e]).
          apply in_map, Ho. }
        repeat (apply NoDup_cons in HndS as [?Hn HndS]).
        repeat match goal with Hn : _ ∉ _ |- _ => rewrite list_elem_of_In in Hn end.
        simpl in *. intuition congruence.
      * intros x Hx Hne. apply Hin'. apply Hin in Hx. simpl in *. intuition congruence.
Qed.

Lemma upload_keeps_last_five_witness :
  (length (datasets (snd (upload (upload_of "pumps.csv" pumps) five_world))) <= 5)%nat.
Proof.
  pose proof (upload_keeps_last_five (upload_of "pumps.csv" pumps) five_world
                (snd (upload (upload_of "pumps.csv" pumps) five_world))) as H.
  edestruct H as (_ & Hlen & _); [| vm_compute; reflexivity | exact Hlen].
  split; simpl.
  - repeat (apply NoDup_cons; split; [rewrite list_elem_of_In; simpl; lia|]).
    apply NoDup_nil_2.
  - repeat (constructor; [simpl; lia|]). constructor.
Defined.

(** Six uploads one after the other leave the five newest rows: the first
    one, with key 1, is gone. *)
Example six_uploads_keep_five :
  map pk (datasets (ingest 6 fresh_world)) = [2; 3; 4; 5; 6]%nat.
Proof. vm_compute. reflexivity. Qed.

(** ** The schema detector *)

Lemma sample_ok {A} (n : nat) (xs : list A) (w : world) :
  exists smp w', sample n xs w = (Ok smp, w') /\ heap w' = heap w.
Proof.
  revert xs w. induction n as [|n IH]; intros xs w; simpl; [eauto|].
  destruct xs as [|x0 xs]; [eauto|].
  unfold bind at 1.
  assert (Hd : exists r w1, draw w = (Ok r, w1) /\ heap w1 = heap w).
  { unfold draw. destruct (rng w); eauto. }
  destruct Hd as (r & w1 & -> & H1).
  unfold bind at 1.
  destruct (IH (delete (r mod length (x0 :: xs))%nat (x0 :: xs)) w1) as (smp & w2 & -> & H2).
  eexists _, _. split; [reflexivity|]. congruence.
Qed.

Lemma dropna_nonempty (s : Series) : forallb isna s = false -> dropna s <> [].
Proof.
  induction s as [|c s IH]; simpl; [discriminate|].
  destruct (isna c); simpl; [exact IH|discriminate].
Qed.

Lemma detect_column_step (d : DataFrame) (ct : column_types) (c : string)
    (s : Series) (w : world) :
  df_get d c = Some s ->
  exists ct' w',
    detect_column d ct c w = (Ok ct', w') /\ heap w' = heap w
    /\ id_column ct'
       = (if negb (all_missing s) && negb (is_set (id_column ct)) && has_keyword c
          then Some c else id_column ct)
    /\ Permutation (category_columns ct' ++ numeric_columns ct')
         (category_columns ct ++ numeric_columns ct
          ++ others (is_set (id_column ct)) [(c, s)]).
Proof.
  intros Hg. unfold detect_column. rewrite Hg. simpl others.
  unfold all_missing. destruct (forallb isna s) eqn:Em.
  - exists ct, w. simpl. rewrite app_nil_r. auto.
  - simpl negb. simpl andb.
    change (existsb (fun keyword => str_in keyword (str_lower (lit c))) id_keywords)
      with (has_keyword c).
    destruct (id_column ct) as [i|] eqn:Ei; simpl is_set; simpl negb; simpl andb.
    + apply dropna_nonempty in Em. destruct (dropna s) as [|x xs] eqn:Ed; [congruence|].
      cbn [length Nat.eqb andb]. unfold bind. cbn beta.
      match goal with |- context [sample ?n ?l w] =>
        destruct (sample_ok n l w) as (smp & w' & -> & Hh) end.
      destruct (Qlt_bool _ _); eexists _, _; (split; [reflexivity|]); simpl;
        rewrite ?Ei; repeat split; auto.
      rewrite <- app_assoc. apply Permutation_app_head, Permutation_app_comm.
    + destruct (has_keyword c).
      * eexists _, _. split; [reflexivity|]. simpl. rewrite app_nil_r. auto.
      * apply dropna_nonempty in Em. destruct (dropna s) as [|x xs] eqn:Ed; [congruence|].
        cbn [length Nat.eqb andb]. unfold bind. cbn beta.
        match goal with |- context [sample ?n ?l w] =>
        destruct (sample_ok n l w) as (smp & w' & -> & Hh) end.
        destruct (Qlt_bool _ _); eexists _, _; (split; [reflexivity|]); simpl;
          rewrite ?Ei; repeat split; auto.
        rewrite <- app_assoc. apply Permutation_app_head, Permutation_app_comm.
Qed.

Lemma detect_loop (d : DataFrame) (l : DataFrame) :
  (forall c s, In (c, s) l -> df_get d c = Some s) ->
  forall (ct : column_types) (w : world),
  exists ct' w',
    foldM (detect_column d) (map fst l) ct w = (Ok ct', w') /\ heap w' = heap w
    /\ id_column ct'
       = (if is_set (id_column ct) then id_column ct
          else option_map fst (find keyword_test l))
    /\ Permutation (category_columns ct' ++ numeric_columns ct')
         (category_columns ct ++ numeric_columns ct ++ others (is_set (id_column ct)) l).
Proof.
  induction l as [|[c s] l IH]; intros Hl ct w.
  - exists ct, w. simpl. rewrite app_nil_r. destruct (id_column ct); auto.
  - simpl map. simpl foldM. unfold bind at 1.
    destruct (detect_column_step d ct c s w) as (ct1 & w1 & -> & H1 & Hid1 & Hp1);
      [apply Hl; left; reflexivity|].
    destruct (IH (fun c s H => Hl c s (or_intror H)) ct1 w1)
      as (ct' & w' & -> & H' & Hid' & Hp').
    exists ct', w'. split; [reflexivity|]. split; [congruence|].
    rewrite Hid', Hp', app_assoc, Hp1, Hid1. clear.
    simpl find. simpl others. unfold keyword_test. cbn [fst snd].
    destruct (all_missing s), (id_column ct) as [i|], (has_keyword c); simpl;
      (split; [reflexivity|]); rewrite ?app_nil_r, <- ?app_assoc; reflexivity.
Qed.

Lemma df_get_In (d : DataFrame) (c : string) (s : Series) :
  NoDup (df_columns d) -> In (c, s) d -> df_get d c = Some s.
Proof.
  induction d as [|[c0 s0] d IH]; simpl; [intros _ []|].
  intros Hnd. apply NoDup_cons in Hnd as [Hc0 Hnd].
  intros [[= -> ->]|Hin].
  - rewrite String.eqb_refl. reflexivity.
  - destruct (String.eqb c0 c) eqn:E; [|auto].
    apply String.eqb_eq in E. subst c0. exfalso. apply Hc0.
    apply list_elem_of_In. apply (in_map fst) in Hin. exact Hin.
Qed.

Lemma others_true (l : DataFrame) :
  others true l = map fst (List.filter (fun cs => negb (all_missing (snd cs))) l).
Proof.
  induction l as [|[c s] l IH]; simpl; [reflexivity|].
  destruct (all_missing s); simpl; rewrite IH; reflexivity.
Qed.

Lemma find_good_In (l : DataFrame) (c : string) (s : Series) :
  find keyword_test l = Some (c, s) -> In c (map fst l).
Proof.
  intros H. apply find_some in H as [H _]. apply (in_map fst) in H. exact H.
Qed.

Lemma others_false (l : DataFrame) :
  NoDup (map fst l) ->
  others false l
  = map fst (List.filter
               (fun cs => negb (all_missing (snd cs))
                          && negb (match find keyword_test l with
                                   | Some (c, _) => String.eqb (fst cs) c
                                   | None => false
                                   end)) l).
Proof.
  induction l as [|[c s] l IH]; [reflexivity|].
  intros Hnd. simpl in Hnd. apply NoDup_cons in Hnd as [Hc Hnd].
  rewrite list_elem_of_In in Hc.
  cbn [others find].
  replace (keyword_test (c, s)) with (negb (all_missing s) && has_keyword c)
    by reflexivity.
  destruct (all_missing s) eqn:Em; cbn [negb andb].
  - cbn [List.filter fst snd]. rewrite Em. cbn [negb andb]. apply IH, Hnd.
  - destruct (has_keyword c) eqn:Ek.
    + cbn [List.filter fst snd]. rewrite Em, String.eqb_refl. cbn [negb andb].
      rewrite others_true. f_equal. apply List.filter_ext_in.
      intros [c' s'] Hin. cbn [fst snd].
      destruct (String.eqb c' c) eqn:E; [|rewrite andb_true_r; reflexivity].
      apply String.eqb_eq in E. subst c'. exfalso. apply Hc.
      apply (in_map fst) in Hin. exact Hin.
    + cbn [List.filter fst snd]. rewrite Em. cbn [negb andb].
      assert (Hk : (match find keyword_test l with
                    | Some (c0, _) => String.eqb c c0
                    | None => false
                    end) = false).
      { destruct (find keyword_test l) as [[c0 s0]|] eqn:Ef; [|reflexivity].
        apply String.eqb_neq. intros ->. apply Hc. eapply find_good_In, Ef. }
      rewrite Hk. cbn [negb map fst]. f_equal. apply IH, Hnd.
Qed.

Lemma detect_column_types_spec (df : ref) (d : DataFrame) (w : world) :
  NoDup (df_columns d) -> heap w !! df = Some d ->
  exists ct w',
    detect_column_types df w = (Ok ct, w') /\ heap w' = heap w /\ detector_spec d ct.
Proof.
  intros Hnd Hd. unfold detect_column_types, bind at 1, deref. rewrite Hd.
  unfold bind at 1. unfold df_columns at 1.
  destruct (detect_loop d d (fun c s => df_get_In d c s Hnd) (ColumnTypes None [] []) w)
    as (ct & w' & -> & Hh & Hid & Hp).
  simpl in Hid, Hp. rewrite (others_false d Hnd) in Hp.
  change (Permutation (category_columns ct ++ numeric_columns ct) (sampled_columns d)) in Hp.
  assert (Hspec : forall i, id_column ct = None ->
            detector_spec d (ColumnTypes i (category_columns ct) (numeric_columns ct))
            <-> i = head (df_columns d)).
  { intros i Hn. unfold detector_spec, keyword_column. fold keyword_test.
    rewrite Hn in Hid. destruct (find keyword_test d) as [[c s]|]; [discriminate|].
    simpl. split; [tauto|]. intros ->. split; [reflexivity|exact Hp]. }
  destruct (id_column ct) as [i|] eqn:Ei.
  - exists ct, w'. split; [reflexivity|]. split; [exact Hh|].
    unfold detector_spec, keyword_column. fold keyword_test.
    rewrite Ei. split; [|exact Hp].
    destruct (find keyword_test d) as [[c s]|]; [exact Hid|discriminate].
  - destruct (df_columns d) as [|first rest] eqn:Ec.
    + exists ct, w'. split; [reflexivity|]. split; [exact Hh|].
      destruct ct as [i cat num]. simpl in *. subst i. apply Hspec; reflexivity.
    + eexists _, w'. split; [reflexivity|]. split; [exact Hh|].
      apply Hspec; reflexivity.
Qed.

Lemma count_in_filtered (p : string * Series -> bool) (l : DataFrame)
    (c : string) (s : Series) :
  NoDup (map fst l) -> In (c, s) l ->
  length (List.filter (String.eqb c) (map fst (List.filter p l)))
  = if p (c, s) then 1%nat else 0%nat.
Proof.
  induction l as [|[c0 s0] l IH]; [intros _ []|].
  intros Hnd. simpl in Hnd. apply NoDup_cons in Hnd as [Hc0 Hnd].
  rewrite list_elem_of_In in Hc0.
  assert (Hout : forall q, ~ In c (map fst l) ->
            length (List.filter (String.eqb c) (map fst (List.filter q l))) = 0%nat).
  { intros q Hc. clear -Hc. induction l as [|[c1 s1] l IHl]; [reflexivity|].
    simpl in *. destruct (q (c1, s1)); simpl; [|apply IHl; tauto].
    destruct (String.eqb c c1) eqn:E; [|apply IHl; tauto].
    apply String.eqb_eq in E. subst c1. tauto. }
  intros [[= -> ->]|Hin]; cbn [List.filter].
  - destruct (p (c, s)); cbn [map fst List.filter]; rewrite ?String.eqb_refl;
      cbn [length]; rewrite Hout by exact Hc0; reflexivity.
  - assert (Hne : String.eqb c c0 = false).
    { apply String.eqb_neq. intros ->. apply Hc0. apply (in_map fst) in Hin. exact Hin. }
    destruct (p (c0, s0)); cbn [map fst List.filter]; rewrite ?Hne; apply IH; assumption.
Qed.

Lemma filter_length_perm (f : string -> bool) (l1 l2 : list string) :
  Permutation l1 l2 -> length (List.filter f l1) = length (List.filter f l2).
Proof.
  induction 1 as [|x l1 l2 _ IH|x y l|l1 l2 l3 _ IH1 _ IH2]; simpl.
  - reflexivity.
  - destruct (f x); simpl; congruence.
  - destruct (f x), (f y); reflexivity.
  - congruence.
Qed.

Lemma In_unique_series (d : DataFrame) (c : string) (s s' : Series) :
  NoDup (df_columns d) -> In (c, s) d -> In (c, s') d -> s = s'.
Proof.
  intros Hnd H1 H2. apply (df_get_In d c s Hnd) in H1.
  apply (df_get_In d c s' Hnd) in H2. congruence.
Qed.

(** C5, as the detector does it.  For a table with distinct column names
    the detector returns: as identifier the first column that is not
    entirely missing and has a keyword in its lower-cased name, else the
    first column of the table; as categorical or numeric, each once, the
    columns that are not entirely missing other than that keyword column.
    So a column is in one class if it has a value and in none otherwise,
    and the first column is in one more when no name has a keyword. *)
Theorem detect_column_types_classes (df : ref) (d : DataFrame) (w : world) :
  NoDup (df_columns d) -> heap w !! df = Some d ->
  exists ct w',
    detect_column_types df w = (Ok ct, w')
    /\ detector_spec d ct
    /\ forall c s, In (c, s) d ->
         class_count ct c
         = ((if all_missing s then 0 else 1)
            + match keyword_column d, head (df_columns d) with
              | None, Some first => if String.eqb first c then 1 else 0
              | _, _ => 0
              end)%nat.
Proof.
  intros Hnd Hd.
  destruct (detect_column_types_spec df d w Hnd Hd) as (ct & w' & E & _ & Hid & Hp).
  exists ct, w'. split; [exact E|]. split; [split; assumption|].
  intros c s Hin. unfold class_count.
  rewrite <- Nat.add_assoc, <- length_app, <- List.filter_app.
  rewrite (filter_length_perm _ _ _ Hp). unfold sampled_columns.
  rewrite (count_in_filtered _ d c s Hnd Hin). cbn [fst snd].
  rewrite Hid. unfold is_keyword_column.
  destruct (keyword_column d) as [[ck sk]|] eqn:Ek.
  - unfold keyword_column in Ek. apply find_some in Ek as [Hk Hg].
    unfold keyword_test in Hg. cbn [fst snd] in Hg. apply andb_prop in Hg as [Hm _].
    rewrite (String.eqb_sym ck c).
    destruct (String.eqb c ck) eqn:Ec.
    + apply String.eqb_eq in Ec. subst ck.
      rewrite (In_unique_series d c s sk Hnd Hin Hk).
      destruct (all_missing sk); [discriminate|reflexivity].
    + destruct (all_missing s); reflexivity.
  - destruct (head (df_columns d)) as [first|];
      destruct (all_missing s); cbn [negb andb]; try destruct (String.eqb first c); lia.
Qed.

Lemma detect_column_types_classes_witness :
  exists ct w',
    detect_column_types 0%nat (with_heap [sensors]) = (Ok ct, w')
    /\ detector_spec sensors ct.
Proof.
  destruct (detect_column_types_classes 0%nat sensors (with_heap [sensors]))
    as (ct & w' & E & Hs & _).
  - repeat (apply NoDup_cons; split;
            [rewrite list_elem_of_In; simpl; intuition discriminate|]).
    apply NoDup_nil_2.
  - reflexivity.
  - exists ct, w'. split; assumption.
Defined.

(** In [zones] no column name has a keyword: the detector makes "Zone" the
    identifier and a categorical column as well. *)
Lemma detect_zones_in_two_classes :
  exists ct w',
    detect_column_types 0%nat (with_heap [zones]) = (Ok ct, w')
    /\ id_column ct = Some "Zone"%string
    /\ In "Zone"%string (category_columns ct)
    /\ class_count ct "Zone" = 2%nat.
Proof. eexists _, _. split; [vm_compute; reflexivity|]. simpl. auto. Qed.

(** ** Cleaning works in place *)

Lemma df_get_set_same (d : DataFrame) (col : string) (v : Series) :
  df_get (df_set d col v) col = Some v.
Proof.
  induction d as [|[c s] d IH]; simpl; [rewrite String.eqb_refl; reflexivity|].
  destruct (String.eqb c col) eqn:E; simpl; rewrite E; auto.
Qed.

Lemma df_set_set (d : DataFrame) (col : string) (v v' : Series) :
  df_set (df_set d col v) col v' = df_set d col v'.
Proof.
  induction d as [|[c s] d IH]; simpl; [rewrite String.eqb_refl; reflexivity|].
  destruct (String.eqb c col) eqn:E; simpl; rewrite E; [reflexivity|]. rewrite IH. reflexivity.
Qed.

Lemma getitem_run (df : ref) (col : string) (dd : DataFrame) (s : Series) (w : world) :
  heap w !! df = Some dd -> df_get dd col = Some s ->
  getitem df col w = (Ok s, w).
Proof. intros H1 H2. unfold getitem, bind, deref. rewrite H1, H2. reflexivity. Qed.

Lemma setitem_run (df : ref) (col : string) (dd : DataFrame) (v : Series) (w : world) :
  heap w !! df = Some dd ->
  setitem df col v w = (Ok tt, set_heap w (<[df := df_set dd col v]> (heap w))).
Proof. intros H1. unfold setitem, bind, deref. rewrite H1. reflexivity. Qed.

Lemma heap_set_lookup (df : ref) (dd dd' : DataFrame) (w : world) :
  heap w !! df = Some dd ->
  heap (set_heap w (<[df := dd']> (heap w))) !! df = Some dd'.
Proof.
  intros H. simpl. apply list_lookup_insert_eq. eapply lookup_lt_Some, H.
Qed.

Lemma set_heap_set_heap (w : world) (h h' : list DataFrame) :
  set_heap (set_heap w h) h' = set_heap w h'.
Proof. reflexivity. Qed.

Lemma process_column_run (df : ref) (ws : list string) (col : string)
    (dd : DataFrame) (s : Series) (w : world) :
  heap w !! df = Some dd -> df_get dd col = Some s ->
  process_column df ws col w
  = (Ok (ws ++ column_warnings col s),
     set_heap w (<[df := df_set dd col (cleaned_column s)]> (heap w))).
Proof.
  intros Hh Hg. unfold process_column.
  unfold bind at 1. rewrite (getitem_run df col dd s w Hh Hg).
  unfold bind at 1. rewrite (getitem_run df col dd s w Hh Hg).
  unfold bind at 1. rewrite (setitem_run df col dd _ w Hh).
  fold (parsed_column s).
  set (w1 := set_heap w (<[df := df_set dd col (parsed_column s)]> (heap w))).
  assert (H1 : heap w1 !! df = Some (df_set dd col (parsed_column s)))
    by (apply (heap_set_lookup df dd _ w Hh)).
  assert (G1 : getitem df col w1 = (Ok (parsed_column s), w1))
    by (apply (getitem_run df col _ _ w1 H1), df_get_set_same).
  unfold bind at 1. rewrite G1. unfold bind at 1. rewrite G1.
  unfold column_warnings, cleaned_column.
  destruct (0 <? na_count (parsed_column s) - na_count s);
    destruct (existsb isna (parsed_column s));
    try destruct (series_mean (parsed_column s)) as [|m|v];
    unfold bind; rewrite ?(setitem_run df col _ _ w1 H1); unfold ret;
    rewrite ?df_set_set; unfold w1; rewrite ?set_heap_set_heap; simpl heap;
    rewrite ?list_insert_insert_eq, ?app_nil_r, <- ?app_assoc; reflexivity.
Qed.

Lemma str_mem_In (x : string) (xs : list string) : str_mem x xs = true <-> In x xs.
Proof.
  unfold str_mem. rewrite existsb_exists. split.
  - intros (y & Hy & E). apply String.eqb_eq in E. subst. exact Hy.
  - intros H. exists x. split; [exact H|apply String.eqb_refl].
Qed.

Lemma str_mem_app (x : string) (xs ys : list string) :
  str_mem x (xs ++ ys) = str_mem x xs || str_mem x ys.
Proof. unfold str_mem. apply existsb_app. Qed.

Lemma df_get_clean_frame (cols : list string) (d : DataFrame) (col : string) :
  df_get (clean_frame cols d) col
  = option_map (fun s => if str_mem col cols then cleaned_column s else s) (df_get d col).
Proof.
  induction d as [|[c s] d IH]; [reflexivity|]. unfold clean_frame in *.
  cbn [map fst snd]. destruct (str_mem c cols) eqn:Em; cbn [df_get fst snd];
    destruct (String.eqb c col) eqn:E; try exact IH;
    apply String.eqb_eq in E; subst col; cbn [option_map]; rewrite Em; reflexivity.
Qed.

Lemma df_set_clean_frame (done : list string) (d : DataFrame) (col : string) (s : Series) :
  NoDup (df_columns d) -> df_get d col = Some s -> ~ In col done ->
  df_set (clean_frame done d) col (cleaned_column s) = clean_frame (done ++ [col]) d.
Proof.
  intros Hnd Hg Hdone. induction d as [|[c s0] d IH]; [discriminate|].
  simpl in Hnd. apply NoDup_cons in Hnd as [Hc Hnd]. rewrite list_elem_of_In in Hc.
  unfold clean_frame in *. cbn [map fst snd]. rewrite str_mem_app.
  simpl in Hg. destruct (String.eqb c col) eqn:E.
  - apply String.eqb_eq in E. subst c. injection Hg as ->.
    assert (Hm : str_mem col done = false).
    { destruct (str_mem col done) eqn:Em; [|reflexivity].
      apply str_mem_In in Em. contradiction. }
    rewrite Hm. cbn [df_set]. rewrite String.eqb_refl.
    replace (str_mem col [col]) with true
      by (symmetry; apply str_mem_In; left; reflexivity).
    cbn [orb fst snd]. f_equal.
    apply map_ext_in. intros [c' s'] Hin. cbn [fst snd]. rewrite str_mem_app.
    replace (str_mem c' [col]) with false; [rewrite orb_false_r; reflexivity|].
    symmetry. destruct (str_mem c' [col]) eqn:Em; [|reflexivity].
    apply str_mem_In in Em as [->|[]]. exfalso. apply Hc.
    apply (in_map fst) in Hin. exact Hin.
  - replace (str_mem c [col]) with false.
    + rewrite orb_false_r.
      destruct (str_mem c done); cbn [df_set fst snd]; rewrite E; f_equal; apply IH; auto.
    + symmetry. destruct (str_mem c [col]) eqn:Em; [|reflexivity].
      apply str_mem_In in Em as [->|[]]. rewrite String.eqb_refl in E. discriminate.
Qed.

Lemma process_loop (df : ref) (d : DataFrame) :
  NoDup (df_columns d) ->
  forall (cols done ws : list string) (w : world),
    NoDup cols -> (forall c, In c cols -> In c (df_columns d) /\ ~ In c done) ->
    heap w !! df = Some (clean_frame done d) ->
    foldM (process_column df) cols ws w
    = (Ok (ws ++ frame_warnings cols d),
       set_heap w (<[df := clean_frame (done ++ cols) d]> (heap w))).
Proof.
  intros Hnd. induction cols as [|col cols IH]; intros done ws w Hnc Hin Hh.
  - simpl. unfold ret. rewrite !app_nil_r. f_equal.
    unfold set_heap. rewrite list_insert_id by exact Hh. destruct w; reflexivity.
  - apply NoDup_cons in Hnc as [Hcol Hnc]. rewrite list_elem_of_In in Hcol.
    destruct (Hin col (or_introl eq_refl)) as [Hd Hnot].
    assert (Hs : exists s, df_get d col = Some s).
    { unfold df_columns in Hd. apply in_map_iff in Hd as ([c s] & <- & Hd).
      exists s. apply df_get_In; assumption. }
    destruct Hs as [s Hs].
    assert (Hg : df_get (clean_frame done d) col = Some s).
    { rewrite df_get_clean_frame, Hs. simpl.
      destruct (str_mem col done) eqn:Em; [|reflexivity].
      apply str_mem_In in Em. contradiction. }
    simpl foldM. unfold bind at 1.
    rewrite (process_column_run df ws col _ s w Hh Hg).
    rewrite (df_set_clean_frame done d col s Hnd Hs Hnot).
    rewrite (IH (done ++ [col])); clear IH.
    + rewrite set_heap_set_heap. simpl heap. rewrite list_insert_insert_eq.
      rewrite <- !app_assoc. simpl. unfold frame_warnings at 2. simpl flat_map.
      rewrite Hs. reflexivity.
    + exact Hnc.
    + intros c Hc. destruct (Hin c (or_intror Hc)) as [H1 H2]. split; [exact H1|].
      intros [H|[->|[]]]%in_app_or; [exact (H2 H)|exact (Hcol Hc)].
    + apply (heap_set_lookup df _ _ w Hh).
Qed.

Lemma clean_frame_nil (d : DataFrame) : clean_frame [] d = d.
Proof.
  unfold clean_frame. induction d as [|[c s] d IH]; simpl; [reflexivity|].
  f_equal. exact IH.
Qed.

Lemma NoDup_map_filter {A B} (f : A -> B) (p : A -> bool) (l : list A) :
  NoDup (map f l) -> NoDup (map f (List.filter p l)).
Proof.
  induction l as [|x l IH]; simpl; [auto|].
  intros H. apply NoDup_cons in H as [Hx H].
  destruct (p x); simpl; [|auto]. apply NoDup_cons. split; [|auto].
  intros Hin. apply Hx. apply list_elem_of_In in Hin. apply list_elem_of_In.
  apply in_map_iff in Hin as (e & E & He). apply List.filter_In in He as [He _].
  apply in_map_iff. eauto.
Qed.

Lemma sampled_columns_NoDup (d : DataFrame) :
  NoDup (df_columns d) -> NoDup (sampled_columns d).
Proof. apply NoDup_map_filter. Qed.

Lemma sampled_columns_In (d : DataFrame) (c : string) :
  In c (sampled_columns d) -> In c (df_columns d).
Proof.
  unfold sampled_columns, df_columns. intros H.
  apply in_map_iff in H as (e & E & He). apply List.filter_In in He as [He _].
  apply in_map_iff. eauto.
Qed.

(** What a run of [process_dynamic_csv] does: the frame [df] refers to is
    overwritten by [clean_frame], the frame returned is a new one. *)
Lemma process_dynamic_csv_run (df : ref) (d : DataFrame) (w : world) :
  NoDup (df_columns d) -> heap w !! df = Some d ->
  exists ct w',
    let cleaned := clean_frame (numeric_columns ct) d in
    process_dynamic_csv df w
    = (Ok (length (heap w),
           {| md_column_types := ct;
              md_validation_warnings := frame_warnings (numeric_columns ct) d;
              md_total_rows := Z.of_nat (df_len (dropna_all cleaned));
              md_total_columns := Z.of_nat (length (df_columns (dropna_all cleaned))) |}),
       w')
    /\ heap w' = <[df := cleaned]> (heap w) ++ [dropna_all cleaned]
    /\ detector_spec d ct.
Proof.
  intros Hnd Hd.
  destruct (detect_column_types_spec df d w Hnd Hd) as (ct & w1 & E & Hh & Hspec).
  exists ct. unfold process_dynamic_csv, bind at 1. rewrite E.
  assert (Hnum : NoDup (numeric_columns ct)
                 /\ forall c, In c (numeric_columns ct) -> In c (df_columns d) /\ ~ In c []).
  { destruct Hspec as [_ Hp]. pose proof (sampled_columns_NoDup d Hnd) as Hs.
    rewrite <- Hp in Hs. apply NoDup_app in Hs as (_ & _ & Hs). split; [exact Hs|].
    intros c Hc. split; [|intros []]. apply sampled_columns_In.
    apply list_elem_of_In. rewrite <- Hp. apply list_elem_of_In, in_or_app. auto. }
  destruct Hnum as [Hnn Hsub].
  assert (Hd1 : heap w1 !! df = Some (clean_frame [] d))
    by (rewrite clean_frame_nil, Hh; exact Hd).
  unfold bind at 1.
  rewrite (process_loop df d Hnd (numeric_columns ct) [] [] w1 Hnn Hsub Hd1).
  simpl app. set (cleaned := clean_frame (numeric_columns ct) d).
  set (w2 := set_heap w1 (<[df := cleaned]> (heap w1))).
  assert (Hd2 : heap w2 !! df = Some cleaned) by (apply (heap_set_lookup df _ _ w1 Hd1)).
  unfold bind at 1, deref at 1. rewrite Hd2.
  unfold bind at 1, alloc at 1.
  unfold bind at 1, deref at 1. cbn [heap].
  rewrite lookup_app_r by reflexivity. rewrite Nat.sub_diag. cbn [lookup list_lookup].
  unfold ret.
  exists (set_heap w1 (<[df := cleaned]> (heap w) ++ [dropna_all cleaned])).
  split; [|split; [reflexivity|exact Hspec]].
  unfold w2, set_heap. simpl. rewrite length_insert, Hh. reflexivity.
Qed.

Lemma clean_frame_columns (cols : list string) (d : DataFrame) :
  df_columns (clean_frame cols d) = df_columns d.
Proof.
  unfold df_columns, clean_frame. rewrite map_map. apply map_ext.
  intros [c s]. simpl. destruct (str_mem c cols); reflexivity.
Qed.

(** C10, as the code does it.  [process_dynamic_csv] cleans in place: in
    the caller's frame every column classified numeric is overwritten by
    its normalised and imputed values, the other columns and the column
    names stay, and every other object of the heap is untouched; the frame
    returned is a new object, the caller's frame after cleaning without its
    all-missing rows. *)
Theorem process_dynamic_csv_in_place (df : ref) (d : DataFrame) (w : world) :
  NoDup (df_columns d) -> heap w !! df = Some d ->
  exists df' md w',
    let cleaned := clean_frame (numeric_columns (md_column_types md)) d in
    process_dynamic_csv df w = (Ok (df', md), w')
    /\ df' <> df
    /\ heap w' !! df = Some cleaned
    /\ heap w' !! df' = Some (dropna_all cleaned)
    /\ df_columns cleaned = df_columns d
    /\ (forall r, r <> df -> r <> df' -> heap w' !! r = heap w !! r).
Proof.
  intros Hnd Hd.
  destruct (process_dynamic_csv_run df d w Hnd Hd) as (ct & w' & E & Hh & _).
  pose proof (lookup_lt_Some _ _ _ Hd) as Hlt.
  eexists _, _, w'. cbn zeta. split; [exact E|]. cbn [md_column_types]. rewrite Hh.
  split; [lia|]. split.
  - rewrite lookup_app_l by (rewrite length_insert; exact Hlt).
    apply list_lookup_insert_eq, Hlt.
  - split.
    + rewrite lookup_app_r by (rewrite length_insert; reflexivity).
      rewrite length_insert, Nat.sub_diag. reflexivity.
    + split; [apply clean_frame_columns|].
      intros r Hr Hr'. destruct (Nat.lt_ge_cases r (length (heap w))) as [Hl|Hl].
      * rewrite lookup_app_l by (rewrite length_insert; exact Hl).
        apply list_lookup_insert_ne. auto.
      * rewrite (lookup_ge_None_2 (heap w)) by exact Hl.
        apply lookup_ge_None_2. rewrite length_app, length_insert. simpl. lia.
Qed.

Lemma process_dynamic_csv_in_place_witness :
  exists df' md w',
    process_dynamic_csv 0%nat (with_heap [pumps_read]) = (Ok (df', md), w')
    /\ df' <> 0%nat
    /\ heap w' !! 0%nat
       = Some (clean_frame (numeric_columns (md_column_types md)) pumps_read).
Proof.
  destruct (process_dynamic_csv_in_place 0%nat pumps_read (with_heap [pumps_read]))
    as (df' & md & w' & E & Hne & Hh & _).
  - repeat (apply NoDup_cons; split;
            [rewrite list_elem_of_In; simpl; intuition discriminate|]).
    apply NoDup_nil_2.
  - reflexivity.
  - exists df', md, w'. auto.
Defined.

(** After a run on [pumps_read] the caller's frame is not what it was: its
    "Flowrate" column holds the floats 120.0 and 120.0. *)
Lemma process_dynamic_csv_mutates_input :
  exists df' md w' d,
    process_dynamic_csv 0%nat (with_heap [pumps_read]) = (Ok (df', md), w')
    /\ heap w' !! 0%nat = Some d
    /\ d <> pumps_read
    /\ df_get d "Flowrate" = Some [Num 120; Num 120].
Proof.
  eexists _, _, _, _. split; [vm_compute; reflexivity|].
  split; [reflexivity|]. split; [discriminate|reflexivity].
Qed.

(** ** Cleaning a cleaned table again *)

Lemma parsed_column_numbers (s : Series) :
  forallb is_number s = true -> parsed_column s = s.
Proof.
  unfold parsed_column. induction s as [|c s IH]; simpl; [reflexivity|].
  intros H. apply andb_prop in H as [Hc H]. rewrite IH by exact H.
  destruct c; try discriminate. reflexivity.
Qed.

Lemma numbers_no_na (s : Series) :
  forallb is_number s = true -> existsb isna s = false.
Proof.
  induction s as [|c s IH]; simpl; [reflexivity|].
  intros H. apply andb_prop in H as [Hc H]. rewrite IH by exact H.
  destruct c; try discriminate. reflexivity.
Qed.

Lemma cleaned_column_numbers (s : Series) :
  forallb is_number s = true -> cleaned_column s = s.
Proof.
  intros H. unfold cleaned_column. rewrite (parsed_column_numbers s H).
  rewrite (numbers_no_na s H). reflexivity.
Qed.

Lemma column_warnings_numbers (col : string) (s : Series) :
  forallb is_number s = true -> column_warnings col s = [].
Proof.
  intros H. unfold column_warnings. rewrite (parsed_column_numbers s H).
  rewrite (numbers_no_na s H). rewrite Z.sub_diag. reflexivity.
Qed.

Lemma clean_frame_numbers (cols : list string) (d : DataFrame) :
  NoDup (df_columns d) ->
  (forall c s, In c cols -> df_get d c = Some s -> forallb is_number s = true) ->
  clean_frame cols d = d.
Proof.
  intros Hnd H. unfold clean_frame.
  rewrite <- (map_id d) at 2. apply map_ext_in. intros [c s] Hin. cbn [fst snd].
  destruct (str_mem c cols) eqn:Em; [|reflexivity].
  apply str_mem_In in Em. rewrite cleaned_column_numbers; [reflexivity|].
  apply (H c s Em). apply df_get_In; assumption.
Qed.

Lemma frame_warnings_numbers (cols : list string) (d : DataFrame) :
  (forall c s, In c cols -> df_get d c = Some s -> forallb is_number s = true) ->
  frame_warnings cols d = [].
Proof.
  unfold frame_warnings. induction cols as [|c cols IH]; intros H; [reflexivity|].
  simpl. rewrite IH by (intros c' s' Hc; apply H; right; exact Hc).
  destruct (df_get d c) as [s|] eqn:E; [|reflexivity].
  rewrite (column_warnings_numbers c s); [reflexivity|].
  apply (H c s); [left; reflexivity|exact E].
Qed.

(** C9, as the code does it.  A run of [process_dynamic_csv] on a table
    with no all-missing row, in which the columns this run classifies as
    numeric hold numbers only, emits no warning, returns a table equal to
    the input and leaves the input as it was. *)
Theorem process_dynamic_csv_idempotent (df df' : ref) (d : DataFrame)
    (md : metadata) (w w' : world) :
  NoDup (df_columns d) -> heap w !! df = Some d ->
  process_dynamic_csv df w = (Ok (df', md), w') ->
  (forall c s, In c (numeric_columns (md_column_types md)) ->
               df_get d c = Some s -> forallb is_number s = true) ->
  dropna_all d = d ->
  md_validation_warnings md = []
  /\ heap w' !! df' = Some d
  /\ heap w' !! df = Some d.
Proof.
  intros Hnd Hd Hrun Hnum Hrows.
  destruct (process_dynamic_csv_run df d w Hnd Hd) as (ct & w'' & E & Hh & _).
  cbn zeta in E. rewrite Hrun in E. injection E as -> -> <-.
  cbn [md_column_types md_validation_warnings] in *.
  rewrite (clean_frame_numbers _ d Hnd Hnum) in Hh. rewrite Hrows in Hh.
  pose proof (lookup_lt_Some _ _ _ Hd) as Hlt.
  split; [apply frame_warnings_numbers, Hnum|]. rewrite Hh. split.
  - rewrite lookup_app_r by (rewrite length_insert; reflexivity).
    rewrite length_insert, Nat.sub_diag. reflexivity.
  - rewrite lookup_app_l by (rewrite length_insert; exact Hlt).
    apply list_lookup_insert_eq, Hlt.
Qed.

Lemma process_dynamic_csv_idempotent_witness :
  exists df' md w',
    process_dynamic_csv 1%nat cleaned_world = (Ok (df', md), w')
    /\ md_validation_warnings md = []
    /\ heap w' !! df' = Some pumps_clean
    /\ heap w' !! 1%nat = Some pumps_clean.
Proof.
  eexists _, _, _. split; [vm_compute; reflexivity|].
  eapply (process_dynamic_csv_idempotent 1%nat _ pumps_clean _ cleaned_world).
  - repeat (apply NoDup_cons; split;
            [rewrite list_elem_of_In; simpl; intuition discriminate|]).
    apply NoDup_nil_2.
  - reflexivity.
  - vm_compute. reflexivity.
  - intros c s [<-|[<-|[<-|[]]]] [= <-]; reflexivity.
  - reflexivity.
Defined.

(** [mixed] comes out of a run of [process_dynamic_csv] unchanged, with no
    numeric column; a second run on that result samples other cells of "B",
    takes it for numeric, warns and rewrites the column. *)
Lemma cleaning_again_can_warn :
  exists df1 md1 w1 df2 md2 w2 d2,
    process_dynamic_csv 0%nat (World [mixed] [3; 3; 3; 0; 0]%nat [] 1 0)
    = (Ok (df1, md1), w1)
    /\ heap w1 !! df1 = Some mixed
    /\ numeric_columns (md_column_types md1) = []
    /\ md_validation_warnings md1 = []
    /\ process_dynamic_csv df1 w1 = (Ok (df2, md2), w2)
    /\ md_validation_warnings md2
       = ["B: 3 values could not be parsed";
          "B: Missing values filled with mean (2.00)"]%string
    /\ heap w2 !! df2 = Some d2
    /\ d2 <> mixed.
Proof.
  eexists _, _, _, _, _, _, _. split; [vm_compute; reflexivity|].
  split; [reflexivity|]. split; [reflexivity|]. split; [reflexivity|].
  split; [vm_compute; reflexivity|]. split; [reflexivity|].
  split; [reflexivity|discriminate].
Qed.

(** ** More on the value normalizer *)

Lemma space_not_digit (c : ascii) : is_space c = true -> is_digit c = false.
Proof. destruct c as [[] [] [] [] [] [] [] []]; simpl; intros H; try discriminate; reflexivity. Qed.

Lemma existsb_digit_spaces (l : chars) :
  forallb is_space l = true -> existsb is_digit l = false.
Proof.
  induction l as [|c l IH]; simpl; [reflexivity|].
  intros H. apply andb_prop in H as [Hc H]. rewrite (space_not_digit c Hc). auto.
Qed.

Lemma existsb_digit_strip (s : chars) :
  existsb is_digit (str_strip s) = existsb is_digit s.
Proof.
  destruct (str_strip_infix s) as (pre & post & E & Hpre & Hpost).
  rewrite E at 2. rewrite !existsb_app.
  rewrite (existsb_digit_spaces pre Hpre), (existsb_digit_spaces post Hpost).
  rewrite orb_false_r. reflexivity.
Qed.

Lemma upper_char_digit (c : ascii) : is_digit (upper_char c) = is_digit c.
Proof. destruct c as [[] [] [] [] [] [] [] []]; reflexivity. Qed.

Lemma existsb_digit_upper (s : chars) :
  existsb is_digit (str_upper s) = existsb is_digit s.
Proof.
  unfold str_upper. induction s as [|c s IH]; simpl; [reflexivity|].
  rewrite upper_char_digit, IH. reflexivity.
Qed.

Lemma re_unsigned_number_digit (u : chars) :
  re_unsigned_number u -> existsb is_digit u = true.
Proof.
  intros H. apply re_unsigned_number_head in H as (c & u' & -> & Hc).
  simpl. rewrite Hc. reflexivity.
Qed.

Lemma re_number_digit (m : chars) : re_number m -> existsb is_digit m = true.
Proof.
  intros H. apply re_number_cases in H as [H|(u & -> & H)].
  - apply re_unsigned_number_digit, H.
  - simpl. apply re_unsigned_number_digit, H.
Qed.

Lemma digit_is_match (c : ascii) : is_digit c = true -> re_number [c].
Proof.
  intros H. apply (re_number_intro [] [c] [] []); auto; try discriminate.
  simpl. rewrite H. reflexivity.
Qed.

Lemma re_search_digit (t : chars) :
  existsb is_digit t = true -> exists m, re_search t = Some m.
Proof.
  intros H. destruct (re_search t) as [m|] eqn:E; [eauto|].
  apply re_search_None in E. apply existsb_exists in H as (c & Hc & Hd).
  apply in_split in Hc as (pre & post & ->).
  exfalso. apply (E pre [c] post); [reflexivity|apply digit_is_match, Hd].
Qed.

(** X1. An ASCII text gives a value exactly when it contains a decimal
    digit: the sentinels contain none, and every digit starts or continues a
    match. *)
Theorem extract_numeric_value_iff_digit (s : string) :
  ascii_text s = true ->
  (exists q, extract_numeric_value (Str s) = Some q)
  <-> existsb is_digit (lit s) = true.
Proof.
  intros _. unfold extract_numeric_value. rewrite <- existsb_digit_strip.
  set (t := str_strip (lit s)). split.
  - intros [q H]. destruct (mem_chars _ _); [discriminate|].
    destruct (re_search t) as [m|] eqn:E; [|discriminate].
    apply re_search_Some in E as (pre & post & -> & Hm & _).
    rewrite !existsb_app, (re_number_digit m Hm). rewrite orb_true_r. reflexivity.
  - intros H.
    assert (Hs : mem_chars (str_upper t) non_numeric_indicators = false).
    { destruct (mem_chars _ _) eqn:E; [|reflexivity].
      apply mem_chars_In in E. rewrite <- existsb_digit_upper in H.
      simpl in E. repeat destruct E as [E|E]; try (rewrite <- E in H; discriminate).
      destruct E. }
    rewrite Hs. destruct (re_search_digit t H) as [m ->]. eauto.
Qed.

Lemma extract_numeric_value_iff_digit_witness :
  exists q, extract_numeric_value (Str "about 3 bar") = Some q.
Proof.
  apply (extract_numeric_value_iff_digit "about 3 bar"); reflexivity.
Defined.

(** ** More on the schema detector *)

(** What [sample] returns is drawn from the list without replacement: it is
    the head of a rearrangement of the list. *)
Lemma sample_perm {A} (n : nat) (xs : list A) (w : world) :
  exists smp rest w',
    sample n xs w = (Ok smp, w') /\ Permutation (smp ++ rest) xs
    /\ length smp = Nat.min n (length xs).
Proof.
  revert xs w. induction n as [|n IH]; intros xs w.
  - exists [], xs, w. simpl. auto.
  - destruct xs as [|x0 xs]; [exists [], [], w; simpl; auto|].
    cbn [sample]. unfold bind at 1.
    assert (Hd : exists r w1, draw w = (Ok r, w1)).
    { unfold draw. destruct (rng w); eauto. }
    destruct Hd as (r & w1 & ->).
    set (l := x0 :: xs). set (i := (r mod length l)%nat).
    assert (Hi : (i < length l)%nat) by (apply Nat.mod_upper_bound; discriminate).
    unfold bind at 1.
    destruct (IH (delete i l) w1) as (smp & rest & w2 & -> & Hp & Hl).
    exists (nth i l x0 :: smp), rest, w2. split; [reflexivity|].
    destruct (lookup_lt_is_Some_2 l i Hi) as [x Hx].
    rewrite (nth_lookup_Some l i x0 x Hx). split.
    + simpl. rewrite Hp. symmetry. apply delete_Permutation, Hx.
    + simpl. rewrite Hl. rewrite length_delete by eauto.
      change (length l) with (S (length xs)). simpl. lia.
Qed.

Lemma filter_length_perm_gen {A} (f : A -> bool) (l1 l2 : list A) :
  Permutation l1 l2 -> length (List.filter f l1) = length (List.filter f l2).
Proof.
  induction 1 as [|x l1 l2 _ IH|x y l|l1 l2 l3 _ IH1 _ IH2]; simpl.
  - reflexivity.
  - destruct (f x); simpl; congruence.
  - destruct (f x), (f y); reflexivity.
  - congruence.
Qed.

(** The majority test of the detector, in integers. *)
Lemma majority_test (a b : nat) :
  (0 < b)%nat ->
  Qlt_bool (1 # 2) (inject_Z (Z.of_nat a) / inject_Z (Z.of_nat b))%Q = true
  <-> (b < 2 * a)%nat.
Proof.
  intros Hb. unfold Qlt_bool. rewrite negb_true_iff.
  destruct b as [|b]; [lia|].
  assert (E : (inject_Z (Z.of_nat a) / inject_Z (Z.of_nat (S b)) == Z.of_nat a # Pos.of_succ_nat b)%Q).
  { unfold Qdiv, Qinv, inject_Z, Qmult, Qeq. simpl. lia. }
  rewrite E. split.
  - intros H. destruct (Qle_bool _ _) eqn:Eq in H; [discriminate|].
    assert (Hn : ~ (Z.of_nat a # Pos.of_succ_nat b <= 1 # 2)%Q).
    { intros Hle. apply Qle_bool_iff in Hle. congruence. }
    unfold Qle in Hn. simpl in Hn. lia.
  - intros H. destruct (Qle_bool _ _) eqn:Eq; [|reflexivity].
    apply Qle_bool_iff in Eq. unfold Qle in Eq. simpl in Eq. lia.
Qed.

Lemma detect_column_sound (d : DataFrame) (ct ct' : column_types) (col : string)
    (w w' : world) :
  detect_column d ct col w = (Ok ct', w') ->
  (numeric_columns ct' = numeric_columns ct /\ category_columns ct' = category_columns ct)
  \/ (numeric_columns ct' = numeric_columns ct ++ [col]
      /\ category_columns ct' = category_columns ct /\ sampled_as d col true)
  \/ (category_columns ct' = category_columns ct ++ [col]
      /\ numeric_columns ct' = numeric_columns ct /\ sampled_as d col false).
Proof.
  unfold detect_column. destruct (df_get d col) as [s|] eqn:Eg; [|discriminate].
  destruct (forallb isna s); [intros [= <- _]; auto|].
  destruct (_ && _); [intros [= <- _]; auto|].
  destruct (length (dropna s) =? 0)%nat eqn:El; [intros [= <- _]; auto|].
  apply Nat.eqb_neq in El. unfold bind.
  destruct (sample_perm (Nat.min 5 (length (dropna s))) (dropna s) w)
    as (smp & rest & w1 & -> & Hp & Hl).
  assert (Hpos : (0 < length smp)%nat) by lia.
  assert (Hl' : length smp = Nat.min 5 (length (dropna s))) by lia.
  destruct (Qlt_bool _ _) eqn:Eq; intros [= <- _]; simpl.
  - right. left. repeat split; auto. exists s, smp, rest. repeat split; auto.
    intros _. apply majority_test; assumption.
  - right. right. repeat split; auto. exists s, smp, rest. repeat split; auto.
    + intros H. apply majority_test in H; [congruence|exact Hpos].
    + discriminate.
Qed.

Lemma detect_loop_sound (d : DataFrame) (l : list string) :
  forall (ct ct' : column_types) (w w' : world),
    foldM (detect_column d) l ct w = (Ok ct', w') ->
    forall c,
      (In c (numeric_columns ct') -> In c (numeric_columns ct) \/ sampled_as d c true)
      /\ (In c (category_columns ct') -> In c (category_columns ct) \/ sampled_as d c false).
Proof.
  induction l as [|col l IH]; intros ct ct' w w'; simpl.
  - intros [= <- _] c. auto.
  - unfold bind. destruct (detect_column d ct col w) as [[ct1|e] w1] eqn:E; [|discriminate].
    intros H c. destruct (IH _ _ _ _ H c) as [Hn Hc].
    apply detect_column_sound in E.
    destruct E as [[En Ec]|[(En & Ec & Hs)|(Ec & En & Hs)]]; rewrite En in Hn; rewrite Ec in Hc.
    + auto.
    + split; [|exact Hc]. intros Hin. destruct (Hn Hin) as [Hin'|]; [|auto].
      apply in_app_or in Hin' as [|[<-|[]]]; auto.
    + split; [exact Hn|]. intros Hin. destruct (Hc Hin) as [Hin'|]; [|auto].
      apply in_app_or in Hin' as [|[<-|[]]]; auto.
Qed.

(** Each column in the numeric list was sampled with a numeric majority,
    each one in the categorical list without. *)
Lemma detect_column_types_sound (df : ref) (d : DataFrame) (ct : column_types)
    (w w' : world) :
  heap w !! df = Some d -> detect_column_types df w = (Ok ct, w') ->
  forall c, (In c (numeric_columns ct) -> sampled_as d c true)
            /\ (In c (category_columns ct) -> sampled_as d c false).
Proof.
  intros Hd. unfold detect_column_types, bind at 1, deref. rewrite Hd.
  unfold bind at 1.
  destruct (foldM _ _ _ w) as [[ct1|e] w1] eqn:E; [|discriminate].
  intros H c. destruct (detect_loop_sound d _ _ _ _ _ E c) as [Hn Hc].
  assert (Hsame : numeric_columns ct = numeric_columns ct1
                  /\ category_columns ct = category_columns ct1).
  { destruct (id_column ct1), (df_columns d); injection H as <- _; auto. }
  destruct Hsame as [-> ->]. simpl in Hn, Hc. split; intros Hin.
  - destruct (Hn Hin) as [[]|]; assumption.
  - destruct (Hc Hin) as [[]|]; assumption.
Qed.

Lemma sampled_as_all_numeric (d : DataFrame) (c : string) (s : Series) (b : bool) :
  df_get d c = Some s -> sampled_as d c b ->
  forallb is_numeric_text (dropna s) = true -> b = true.
Proof.
  intros Hg (s' & smp & rest & Hg' & Hp & _ & Hpos & Hb) Hall.
  rewrite Hg in Hg'. injection Hg' as <-. apply Hb.
  assert (Hsmp : List.filter is_numeric_text smp = smp).
  { apply forallb_filter_id. apply forallb_forall. intros x Hx.
    rewrite forallb_forall in Hall. apply Hall.
    apply list_elem_of_In. rewrite <- Hp. apply list_elem_of_In, in_or_app. auto. }
  rewrite Hsmp. lia.
Qed.

Lemma sampled_as_none_numeric (d : DataFrame) (c : string) (s : Series) (b : bool) :
  df_get d c = Some s -> sampled_as d c b ->
  existsb is_numeric_text (dropna s) = false -> b = false.
Proof.
  intros Hg (s' & smp & rest & Hg' & Hp & _ & Hpos & Hb) Hnone.
  rewrite Hg in Hg'. injection Hg' as <-.
  destruct b; [|reflexivity]. exfalso.
  assert (Hsmp : List.filter is_numeric_text smp = []).
  { destruct (List.filter is_numeric_text smp) as [|x l] eqn:E; [reflexivity|].
    assert (Hx : In x (List.filter is_numeric_text smp)) by (rewrite E; left; reflexivity).
    apply List.filter_In in Hx as [Hx Hnum].
    assert (Hin : In x (dropna s)).
    { apply list_elem_of_In. rewrite <- Hp. apply list_elem_of_In, in_or_app. auto. }
    assert (existsb is_numeric_text (dropna s) = true)
      by (apply existsb_exists; eauto).
    congruence. }
  rewrite Hsmp in Hb. simpl in Hb. destruct Hb as [_ Hb]. specialize (Hb eq_refl). lia.
Qed.

(** X2. Whatever the generator draws, a sampled column whose non-missing
    cells all normalize to a number is classified numeric, and one in which
    none does is classified categorical. *)
Theorem detect_column_types_uniform_column (df : ref) (d : DataFrame)
    (ct : column_types) (w w' : world) (c : string) (s : Series) :
  NoDup (df_columns d) -> heap w !! df = Some d ->
  detect_column_types df w = (Ok ct, w') ->
  In (c, s) d -> In c (sampled_columns d) ->
  (forallb is_numeric_text (dropna s) = true ->
   In c (numeric_columns ct) /\ ~ In c (category_columns ct))
  /\ (existsb is_numeric_text (dropna s) = false ->
      In c (category_columns ct) /\ ~ In c (numeric_columns ct)).
Proof.
  intros Hnd Hd Hrun Hin Hs.
  destruct (detect_column_types_spec df d w Hnd Hd) as (ct0 & w0 & E & _ & _ & Hp).
  rewrite Hrun in E. injection E as <- <-.
  pose proof (detect_column_types_sound df d ct w w' Hd Hrun c) as [Hn Hc].
  pose proof (df_get_In d c s Hnd Hin) as Hg.
  assert (Hor : In c (category_columns ct) \/ In c (numeric_columns ct)).
  { apply in_app_or. apply list_elem_of_In. rewrite Hp. apply list_elem_of_In, Hs. }
  split; intros Hcells.
  - assert (Hno : ~ In c (category_columns ct)).
    { intros H. apply Hc in H.
      pose proof (sampled_as_all_numeric d c s false Hg H Hcells). discriminate. }
    tauto.
  - assert (Hno : ~ In c (numeric_columns ct)).
    { intros H. apply Hn in H.
      pose proof (sampled_as_none_numeric d c s true Hg H Hcells). discriminate. }
    tauto.
Qed.

Lemma detect_column_types_uniform_column_witness :
  In "Reading1"%string
     (numeric_columns
        (match fst (detect_column_types 0%nat (with_heap [sensors])) with
         | Ok ct => ct
         | Raise _ => ColumnTypes None [] []
         end)).
Proof.
  refine (proj1 (proj1 (detect_column_types_uniform_column 0%nat sensors _
                          (with_heap [sensors]) _ "Reading1" [Num 1; Num 2]
                          _ _ _ _ _) _)).
  - repeat (apply NoDup_cons; split;
            [rewrite list_elem_of_In; simpl; intuition discriminate|]).
    apply NoDup_nil_2.
  - reflexivity.
  - vm_compute. reflexivity.
  - simpl. auto.
  - simpl. auto.
  - reflexivity.
Defined.

Lemma df_get_Some_In (d : DataFrame) (c : string) (s : Series) :
  df_get d c = Some s -> In (c, s) d.
Proof.
  induction d as [|[c0 s0] d IH]; simpl; [discriminate|].
  destruct (String.eqb c0 c) eqn:E; [|auto].
  apply String.eqb_eq in E. intros [= ->]. subst. auto.
Qed.

Lemma detect_column_small (d : DataFrame) (ct : column_types) (col : string)
    (w1 w2 : world) :
  (forall s, df_get d col = Some s -> (length (dropna s) <= 5)%nat) ->
  fst (detect_column d ct col w1) = fst (detect_column d ct col w2).
Proof.
  intros Hsmall. unfold detect_column.
  destruct (df_get d col) as [s|] eqn:Eg; [|reflexivity].
  destruct (forallb isna s); [reflexivity|].
  destruct (_ && _); [reflexivity|].
  destruct (length (dropna s) =? 0)%nat; [reflexivity|].
  specialize (Hsmall s eq_refl). unfold bind.
  destruct (sample_perm (Nat.min 5 (length (dropna s))) (dropna s) w1)
    as (smp1 & rest1 & w1' & -> & Hp1 & Hl1).
  destruct (sample_perm (Nat.min 5 (length (dropna s))) (dropna s) w2)
    as (smp2 & rest2 & w2' & -> & Hp2 & Hl2).
  assert (H1 : Permutation smp1 (dropna s)).
  { pose proof (Permutation_length Hp1) as L. rewrite length_app in L.
    destruct rest1; [rewrite app_nil_r in Hp1; exact Hp1|simpl in L; lia]. }
  assert (H2 : Permutation smp2 (dropna s)).
  { pose proof (Permutation_length Hp2) as L. rewrite length_app in L.
    destruct rest2; [rewrite app_nil_r in Hp2; exact Hp2|simpl in L; lia]. }
  rewrite (filter_length_perm_gen is_numeric_text smp1 (dropna s) H1).
  rewrite (filter_length_perm_gen is_numeric_text smp2 (dropna s) H2).
  rewrite (Permutation_length H1), (Permutation_length H2).
  destruct (Qlt_bool _ _); reflexivity.
Qed.

Lemma detect_loop_small (d : DataFrame) (l : list string) :
  (forall c s, In c l -> df_get d c = Some s -> (length (dropna s) <= 5)%nat) ->
  forall (ct : column_types) (w1 w2 : world),
    fst (foldM (detect_column d) l ct w1) = fst (foldM (detect_column d) l ct w2).
Proof.
  induction l as [|col l IH]; intros Hsmall ct w1 w2; [reflexivity|].
  simpl. unfold bind.
  pose proof (detect_column_small d ct col w1 w2
                (fun s => Hsmall col s (or_introl eq_refl))) as E.
  destruct (detect_column d ct col w1) as [[ct1|e1] w1'],
           (detect_column d ct col w2) as [[ct2|e2] w2']; simpl in E; try discriminate.
  - injection E as <-. apply IH. intros c s Hc. apply Hsmall. right. exact Hc.
  - exact E.
Qed.

(** X3. When no column has more than five non-missing cells, the sample of
    a column is all of it and the classification does not depend on the
    state of the generator. *)
Theorem detect_column_types_small_table (df : ref) (d : DataFrame) (w1 w2 : world) :
  heap w1 !! df = Some d -> heap w2 !! df = Some d ->
  (forall c s, In (c, s) d -> (length (dropna s) <= 5)%nat) ->
  fst (detect_column_types df w1) = fst (detect_column_types df w2).
Proof.
  intros H1 H2 Hsmall. unfold detect_column_types, bind at 1 3, deref.
  rewrite H1, H2. unfold bind.
  assert (Hs : forall c s, In c (df_columns d) -> df_get d c = Some s ->
                           (length (dropna s) <= 5)%nat).
  { intros c s _ Hg. apply (Hsmall c s). apply df_get_Some_In, Hg. }
  pose proof (detect_loop_small d (df_columns d) Hs (ColumnTypes None [] []) w1 w2) as E.
  destruct (foldM _ _ _ w1) as [[ct1|e1] w1'], (foldM _ _ _ w2) as [[ct2|e2] w2'];
    simpl in E; try discriminate.
  - injection E as <-. destruct (id_column ct1), (df_columns d); reflexivity.
  - exact E.
Qed.

Lemma detect_column_types_small_table_witness :
  fst (detect_column_types 0%nat (World [sensors] [] [] 1 0))
  = fst (detect_column_types 0%nat (World [sensors] [4; 2; 7; 1]%nat [] 1 0)).
Proof.
  apply (detect_column_types_small_table 0%nat sensors); [reflexivity|reflexivity|].
  intros c s [[= <- <-]|[[= <- <-]|[[= <- <-]|[[= <- <-]|[]]]]]; simpl; lia.
Defined.

(** ** More on cleaning *)

Lemma process_dynamic_csv_detect (df df' : ref) (md : metadata) (w w' : world) :
  process_dynamic_csv df w = (Ok (df', md), w') ->
  exists w1, detect_column_types df w = (Ok (md_column_types md), w1).
Proof.
  unfold process_dynamic_csv. unfold bind at 1.
  destruct (detect_column_types df w) as [[ct|e] w1]; [|discriminate].
  unfold bind at 1. destruct (foldM _ _ _ w1) as [[ws|e] w2]; [|discriminate].
  unfold bind at 1. destruct (deref df w2) as [[d|e] w3]; [|discriminate].
  unfold bind at 1. destruct (alloc _ w3) as [[r|e] w4]; [|discriminate].
  unfold bind at 1. destruct (deref r w4) as [[d'|e] w5]; [|discriminate].
  intros [= _ <- _]. eauto.
Qed.

Lemma parsed_cell (c : cell) :
  cell_of_float (extract_numeric_value c) = NaN /\ is_numeric_text c = false
  \/ exists q, cell_of_float (extract_numeric_value c) = Num q
               /\ extract_numeric_value c = Some q /\ is_numeric_text c = true.
Proof.
  unfold is_numeric_text. destruct (extract_numeric_value c) as [q|]; simpl; eauto.
Qed.

Lemma parsed_column_cells (s : Series) :
  forallb (fun c => is_number c || isna c) (parsed_column s) = true.
Proof.
  unfold parsed_column. induction s as [|c s IH]; simpl; [reflexivity|].
  rewrite IH. destruct (parsed_cell c) as [[-> _]|(q & -> & _)]; reflexivity.
Qed.

Lemma parsed_column_present (s : Series) :
  existsb is_numeric_text s = true -> present (parsed_column s) <> [].
Proof.
  unfold parsed_column, present. induction s as [|c s IH]; simpl; [discriminate|].
  destruct (parsed_cell c) as [[-> ->]|(q & -> & _ & ->)]; simpl.
  - exact IH.
  - discriminate.
Qed.

Lemma fillna_numbers (m : Q) (s : Series) :
  forallb (fun c => is_number c || isna c) s = true ->
  forallb is_number (fillna (FNum m) s) = true.
Proof.
  simpl. induction s as [|c s IH]; simpl; [reflexivity|].
  intros H. apply andb_prop in H as [Hc H]. rewrite IH by exact H.
  destruct c; try discriminate; reflexivity.
Qed.

Lemma no_na_numbers (s : Series) :
  forallb (fun c => is_number c || isna c) s = true -> existsb isna s = false ->
  forallb is_number s = true.
Proof.
  induction s as [|c s IH]; simpl; [reflexivity|].
  intros H Hn. apply andb_prop in H as [Hc H]. apply orb_false_elim in Hn as [Hn1 Hn2].
  rewrite IH by assumption. destruct c; try discriminate; reflexivity.
Qed.

(** A column with a cell that normalizes to a number is all numbers once
    cleaned. *)
Lemma cleaned_column_filled (s : Series) :
  existsb is_numeric_text s = true -> forallb is_number (cleaned_column s) = true.
Proof.
  intros H. unfold cleaned_column.
  pose proof (parsed_column_cells s) as Hc. pose proof (parsed_column_present s H) as Hp.
  destruct (existsb isna (parsed_column s)) eqn:En.
  - unfold series_mean. destruct (present (parsed_column s)) as [|x xs]; [congruence|].
    apply fillna_numbers, Hc.
  - apply no_na_numbers; assumption.
Qed.

Lemma cleaned_column_length (s : Series) : length (cleaned_column s) = length s.
Proof.
  unfold cleaned_column, parsed_column.
  destruct (existsb _ _); [|apply length_map].
  destruct (series_mean _); simpl; rewrite ?length_map; reflexivity.
Qed.

(** Cleaning keeps, in place, every value that parsed. *)
Lemma cleaned_column_keeps (s : Series) (i : nat) (c : cell) (q : Q) :
  s !! i = Some c -> extract_numeric_value c = Some q ->
  cleaned_column s !! i = Some (Num q).
Proof.
  intros Hi Hq.
  assert (Hp : parsed_column s !! i = Some (Num q)).
  { unfold parsed_column. revert i Hi. induction s as [|c0 s IH]; intros [|i]; simpl;
      try discriminate.
    - intros [= ->]. rewrite Hq. reflexivity.
    - apply IH. }
  unfold cleaned_column. destruct (existsb _ _); [|exact Hp].
  destruct (series_mean _) as [|m|v]; try exact Hp.
  simpl. clear Hi. revert i Hp. generalize (parsed_column s). intros l.
  induction l as [|c0 l IH]; intros [|i]; simpl; try discriminate.
  - intros [= ->]. reflexivity.
  - apply IH.
Qed.

Lemma sampled_as_has_number (d : DataFrame) (c : string) :
  sampled_as d c true ->
  exists s, df_get d c = Some s /\ existsb is_numeric_text s = true.
Proof.
  intros (s & smp & rest & Hg & Hp & _ & _ & Hb). exists s. split; [exact Hg|].
  destruct Hb as [_ Hb]. specialize (Hb eq_refl).
  destruct (List.filter is_numeric_text smp) as [|x l] eqn:E; [simpl in Hb; lia|].
  assert (Hx : In x (List.filter is_numeric_text smp)) by (rewrite E; left; reflexivity).
  apply List.filter_In in Hx as [Hx Hnum].
  apply existsb_exists. exists x. split; [|exact Hnum].
  assert (Hin : In x (dropna s)).
  { apply list_elem_of_In. rewrite <- Hp. apply list_elem_of_In, in_or_app. auto. }
  unfold dropna in Hin. apply List.filter_In in Hin as [Hin _]. exact Hin.
Qed.

Lemma keep_rows_forallb {A} (p : A -> bool) (mask : list bool) (v : list A) :
  forallb p v = true -> forallb p (keep_rows mask v) = true.
Proof.
  revert v. induction mask as [|b mask IH]; intros [|x v]; simpl; try reflexivity.
  intros H. apply andb_prop in H as [Hx H].
  destruct b; simpl; rewrite ?Hx; simpl; apply IH; exact H.
Qed.

Lemma keep_rows_length {A} (mask : list bool) (v : list A) :
  (length (keep_rows mask v) <= length v)%nat.
Proof.
  revert v. induction mask as [|b mask IH]; intros [|x v]; simpl; try lia.
  specialize (IH v). destruct b; simpl; lia.
Qed.

Lemma df_get_dropna_all (d : DataFrame) (c : string) :
  df_get (dropna_all d) c
  = option_map (keep_rows (row_mask (map snd d) (df_len d))) (df_get d c).
Proof.
  unfold dropna_all. generalize (row_mask (map snd d) (df_len d)). intros mask.
  induction d as [|[c0 s0] d IH]; simpl; [reflexivity|].
  destruct (String.eqb c0 c); [reflexivity|exact IH].
Qed.

Lemma dropna_all_columns (d : DataFrame) : df_columns (dropna_all d) = df_columns d.
Proof.
  unfold dropna_all, df_columns. rewrite map_map. apply map_ext. intros [c s]. reflexivity.
Qed.

Lemma dropna_all_len (d : DataFrame) : (df_len (dropna_all d) <= df_len d)%nat.
Proof.
  unfold dropna_all. destruct d as [|[c s] d]; simpl; [lia|]. apply keep_rows_length.
Qed.

Lemma clean_frame_len (cols : list string) (d : DataFrame) :
  df_len (clean_frame cols d) = df_len d.
Proof.
  unfold clean_frame. destruct d as [|[c s] d]; simpl; [reflexivity|].
  destruct (str_mem c cols); simpl; [apply cleaned_column_length|reflexivity].
Qed.

(** The run lemma, read for a given result. *)
Lemma process_dynamic_csv_result (df df' : ref) (d : DataFrame) (md : metadata)
    (w w' : world) :
  NoDup (df_columns d) -> heap w !! df = Some d ->
  process_dynamic_csv df w = (Ok (df', md), w') ->
  let cleaned := clean_frame (numeric_columns (md_column_types md)) d in
  heap w' !! df = Some cleaned
  /\ heap w' !! df' = Some (dropna_all cleaned)
  /\ md_total_rows md = Z.of_nat (df_len (dropna_all cleaned))
  /\ md_total_columns md = Z.of_nat (length (df_columns (dropna_all cleaned)))
  /\ md_validation_warnings md = frame_warnings (numeric_columns (md_column_types md)) d.
Proof.
  intros Hnd Hd Hrun.
  destruct (process_dynamic_csv_run df d w Hnd Hd) as (ct & w'' & E & Hh & _).
  cbn zeta in E. rewrite Hrun in E. injection E as -> -> <-.
  cbn [md_column_types md_total_rows md_total_columns md_validation_warnings].
  pose proof (lookup_lt_Some _ _ _ Hd) as Hlt. rewrite Hh.
  split; [|split; [|auto]].
  - rewrite lookup_app_l by (rewrite length_insert; exact Hlt).
    apply list_lookup_insert_eq, Hlt.
  - rewrite lookup_app_r by (rewrite length_insert; reflexivity).
    rewrite length_insert, Nat.sub_diag. reflexivity.
Qed.

(** X4. After a run of [process_dynamic_csv], every column classified
    numeric holds numbers only, with no missing value left, in the caller's
    frame and in the frame returned. *)
Theorem process_dynamic_csv_numeric_filled (df df' : ref) (d : DataFrame)
    (md : metadata) (w w' : world) (c : string) :
  NoDup (df_columns d) -> heap w !! df = Some d ->
  process_dynamic_csv df w = (Ok (df', md), w') ->
  In c (numeric_columns (md_column_types md)) ->
  exists d1 d2 s1 s2,
    heap w' !! df = Some d1 /\ heap w' !! df' = Some d2
    /\ df_get d1 c = Some s1 /\ df_get d2 c = Some s2
    /\ forallb is_number s1 = true /\ forallb is_number s2 = true.
Proof.
  intros Hnd Hd Hrun Hc.
  destruct (process_dynamic_csv_detect df df' md w w' Hrun) as [w1 Hdet].
  destruct (process_dynamic_csv_result df df' d md w w' Hnd Hd Hrun) as (H1 & H2 & _).
  destruct (detect_column_types_sound df d _ w w1 Hd Hdet c) as [Hn _].
  destruct (sampled_as_has_number d c (Hn Hc)) as (s & Hg & Hs).
  set (cleaned := clean_frame (numeric_columns (md_column_types md)) d) in *.
  assert (Hg1 : df_get cleaned c = Some (cleaned_column s)).
  { unfold cleaned. rewrite df_get_clean_frame, Hg. simpl.
    replace (str_mem c (numeric_columns (md_column_types md))) with true; [reflexivity|].
    symmetry. apply str_mem_In, Hc. }
  eexists cleaned, (dropna_all cleaned), (cleaned_column s), _.
  split; [exact H1|]. split; [exact H2|]. split; [exact Hg1|].
  split; [rewrite df_get_dropna_all, Hg1; reflexivity|].
  split; [apply cleaned_column_filled, Hs|].
  apply keep_rows_forallb, cleaned_column_filled, Hs.
Qed.

Lemma process_dynamic_csv_numeric_filled_witness :
  exists d1 d2 s1 s2,
    heap cleaned_world !! 0%nat = Some d1 /\ heap cleaned_world !! 1%nat = Some d2
    /\ df_get d1 "Flowrate" = Some s1 /\ df_get d2 "Flowrate" = Some s2
    /\ forallb is_number s1 = true /\ forallb is_number s2 = true.
Proof.
  eapply (process_dynamic_csv_numeric_filled 0%nat 1%nat pumps_read _
            (with_heap [pumps_read]) cleaned_world).
  - repeat (apply NoDup_cons; split;
            [rewrite list_elem_of_In; simpl; intuition discriminate|]).
    apply NoDup_nil_2.
  - reflexivity.
  - vm_compute. reflexivity.
  - simpl. auto.
Defined.

(** X5. Cleaning changes only the cells that did not parse: in the caller's
    frame a numeric column keeps its length, and every cell that
    normalizes to a number holds that number afterwards. *)
Theorem process_dynamic_csv_keeps_values (df df' : ref) (d : DataFrame)
    (md : metadata) (w w' : world) (c : string) (s : Series) :
  NoDup (df_columns d) -> heap w !! df = Some d ->
  process_dynamic_csv df w = (Ok (df', md), w') ->
  In c (numeric_columns (md_column_types md)) -> In (c, s) d ->
  exists d1 s1,
    heap w' !! df = Some d1 /\ df_get d1 c = Some s1
    /\ length s1 = length s
    /\ forall i cell q, s !! i = Some cell -> extract_numeric_value cell = Some q ->
                        s1 !! i = Some (Num q).
Proof.
  intros Hnd Hd Hrun Hc Hin.
  destruct (process_dynamic_csv_result df df' d md w w' Hnd Hd Hrun) as (H1 & _).
  pose proof (df_get_In d c s Hnd Hin) as Hg.
  eexists _, (cleaned_column s). split; [exact H1|]. split.
  - rewrite df_get_clean_frame, Hg. simpl.
    replace (str_mem c (numeric_columns (md_column_types md))) with true; [reflexivity|].
    symmetry. apply str_mem_In, Hc.
  - split; [apply cleaned_column_length|]. intros i cell q. apply cleaned_column_keeps.
Qed.

Lemma process_dynamic_csv_keeps_values_witness :
  exists d1 s1,
    heap cleaned_world !! 0%nat = Some d1 /\ df_get d1 "Pressure" = Some s1
    /\ length s1 = 2%nat
    /\ forall i cell q, [Str "45 psi"; Str "50"] !! i = Some cell ->
                        extract_numeric_value cell = Some q -> s1 !! i = Some (Num q).
Proof.
  eapply (process_dynamic_csv_keeps_values 0%nat 1%nat pumps_read _
            (with_heap [pumps_read]) cleaned_world "Pressure" [Str "45 psi"; Str "50"]).
  - repeat (apply NoDup_cons; split;
            [rewrite list_elem_of_In; simpl; intuition discriminate|]).
    apply NoDup_nil_2.
  - reflexivity.
  - vm_compute. reflexivity.
  - simpl. auto.
  - simpl. auto 10.
Defined.

(** X6. Cleaning never adds or drops a column and never adds a row: the
    frame returned has the column names of the input and at most its
    rows, and the metadata report the column and row counts of that
    frame. *)
Theorem process_dynamic_csv_shape (df df' : ref) (d : DataFrame)
    (md : metadata) (w w' : world) :
  NoDup (df_columns d) -> heap w !! df = Some d ->
  process_dynamic_csv df w = (Ok (df', md), w') ->
  exists d2,
    heap w' !! df' = Some d2
    /\ df_columns d2 = df_columns d
    /\ (df_len d2 <= df_len d)%nat
    /\ md_total_columns md = Z.of_nat (length (df_columns d))
    /\ md_total_rows md = Z.of_nat (df_len d2).
Proof.
  intros Hnd Hd Hrun.
  destruct (process_dynamic_csv_result df df' d md w w' Hnd Hd Hrun)
    as (_ & H2 & Hr & Hc & _).
  eexists. split; [exact H2|]. rewrite Hc, Hr, dropna_all_columns, clean_frame_columns.
  split; [reflexivity|]. split; [|auto].
  etransitivity; [apply dropna_all_len|]. rewrite clean_frame_len. reflexivity.
Qed.

Lemma process_dynamic_csv_shape_witness :
  exists d2,
    heap cleaned_world !! 1%nat = Some d2
    /\ df_columns d2 = df_columns pumps_read
    /\ (df_len d2 <= df_len pumps_read)%nat.
Proof.
  destruct (process_dynamic_csv_shape 0%nat 1%nat pumps_read
              {| md_column_types :=
                   ColumnTypes (Some "Equipment Name"%string) ["Type"%string]
                     ["Flowrate"; "Pressure"; "Temperature"]%string;
                 md_validation_warnings :=
                   ["Flowrate: Missing values filled with mean (120.00)"%string];
                 md_total_rows := 2; md_total_columns := 5 |}
              (with_heap [pumps_read]) cleaned_world)
    as (d2 & H1 & H2 & H3 & _).
  - repeat (apply NoDup_cons; split;
            [rewrite list_elem_of_In; simpl; intuition discriminate|]).
    apply NoDup_nil_2.
  - reflexivity.
  - vm_compute. reflexivity.
  - exists d2. auto.
Defined.

(** ** More on the statistics *)

Lemma dict_set_keys {V} (d : list (string * V)) (k : string) (v : V) (k' : string) :
  In k' (map fst (dict_set d k v)) <-> k' = k \/ In k' (map fst d).
Proof.
  induction d as [|[k0 v0] d IH]; simpl.
  - split; [intros [<-|[]]; auto|intros [->|[]]; auto].
  - destruct (String.eqb k0 k) eqn:E; simpl.
    + apply String.eqb_eq in E. subst k0. split; [tauto|intros [->|]; auto].
    + rewrite IH. split; [tauto|tauto].
Qed.

Lemma dict_set_NoDup {V} (d : list (string * V)) (k : string) (v : V) :
  NoDup (map fst d) -> NoDup (map fst (dict_set d k v)).
Proof.
  induction d as [|[k0 v0] d IH]; simpl.
  - intros _. apply NoDup_singleton.
  - intros H. apply NoDup_cons in H as [Hk H].
    destruct (String.eqb k0 k) eqn:E; simpl.
    + apply NoDup_cons. auto.
    + apply NoDup_cons. split; [|auto].
      rewrite list_elem_of_In, dict_set_keys. rewrite list_elem_of_In in Hk.
      intros [->|Hin]; [|auto]. rewrite String.eqb_refl in E. discriminate.
Qed.

Lemma calculate_loop_keys (d : DataFrame) (w : world) (cs : list string) :
  forall acc : list (string * ColumnStats),
    NoDup (map fst acc) ->
    exists stats,
      foldM (fun stats col =>
               match df_get d col with
               | Some s =>
                   if (0 <? length (dropna s))%nat
                   then ret (dict_set stats col (column_statistics (dropna s)))
                   else ret stats
               | None => ret stats
               end) cs acc w = (Ok stats, w)
      /\ NoDup (map fst stats)
      /\ forall col, In col (map fst stats)
                     <-> In col (map fst acc)
                         \/ (In col cs /\ exists s, df_get d col = Some s /\ dropna s <> []).
Proof.
  induction cs as [|c cs IH]; intros acc Hnd; simpl.
  - exists acc. split; [reflexivity|]. split; [exact Hnd|]. intros col. tauto.
  - unfold bind. destruct (df_get d c) as [s|] eqn:Eg.
    + destruct (0 <? length (dropna s))%nat eqn:El; simpl.
      * destruct (IH _ (dict_set_NoDup acc c (column_statistics (dropna s)) Hnd))
          as (stats & -> & Hn & Hk).
        exists stats. split; [reflexivity|]. split; [exact Hn|].
        intros col. rewrite Hk, dict_set_keys. split.
        -- intros [[->|H]|(H & s' & H1 & H2)]; eauto 10.
           right. split; [auto|]. exists s. split; [exact Eg|].
           intros Hs. rewrite Hs in El. discriminate.
        -- intros [H|([<-|H] & s' & H1 & H2)]; eauto 10.
      * destruct (IH acc Hnd) as (stats & -> & Hn & Hk).
        exists stats. split; [reflexivity|]. split; [exact Hn|].
        intros col. rewrite Hk. split; [intros [H|(H & H')]; eauto|].
        intros [H|([<-|H] & s' & H1 & H2)]; eauto.
        rewrite Eg in H1. injection H1 as <-.
        destruct (dropna s); [congruence|discriminate].
    + simpl. destruct (IH acc Hnd) as (stats & -> & Hn & Hk).
      exists stats. split; [reflexivity|]. split; [exact Hn|].
      intros col. rewrite Hk. split; [intros [H|(H & H')]; eauto|].
      intros [H|([<-|H] & s' & H1 & H2)]; eauto. congruence.
Qed.

(** X7. On a frame whose requested columns hold no text,
    [calculate_dynamic_statistics] does not fail and changes nothing: it
    returns one entry for each requested column that is in the frame and
    has a value, and none for the others; the entry is the statistics of
    the present cells, with a count of at least one.  (On a column with
    text, pandas' reductions raise.) *)
Theorem calculate_dynamic_statistics_keys (df : ref) (cols : list string)
    (d : DataFrame) (w : world) :
  heap w !! df = Some d ->
  (forall col s, In col cols -> df_get d col = Some s -> is_numeric_dtype s = true) ->
  exists stats,
    calculate_dynamic_statistics df cols w = (Ok stats, w)
    /\ NoDup (map fst stats)
    /\ (forall col, In col (map fst stats)
                    <-> In col cols /\ exists s, df_get d col = Some s /\ dropna s <> [])
    /\ (forall col st, In (col, st) stats ->
          exists s, df_get d col = Some s /\ st = column_statistics (dropna s)
                    /\ 0 < stat_count st).
Proof.
  intros Hd _.
  destruct (calculate_dynamic_statistics_entries df cols d w Hd) as (stats & E & Hent).
  exists stats. split; [exact E|].
  unfold calculate_dynamic_statistics, bind at 1, deref in E. rewrite Hd in E.
  destruct (calculate_loop_keys d w cols [] (NoDup_nil_2)) as (stats' & E' & Hn & Hk).
  rewrite E in E'. injection E' as <-.
  split; [exact Hn|]. split.
  - intros col. rewrite Hk. simpl. tauto.
  - intros col st Hin. destruct (Hent col st Hin) as (_ & s & Hg & Hne & ->).
    exists s. split; [exact Hg|]. split; [reflexivity|]. simpl.
    destruct (dropna s); [congruence|simpl; lia].
Qed.

Lemma calculate_dynamic_statistics_keys_witness :
  exists stats,
    calculate_dynamic_statistics 1%nat ["Flowrate"; "Missing"]%string cleaned_world
    = (Ok stats, cleaned_world)
    /\ NoDup (map fst stats).
Proof.
  destruct (calculate_dynamic_statistics_keys 1%nat ["Flowrate"; "Missing"]%string
              pumps_clean cleaned_world) as (stats & E & Hn & _).
  - reflexivity.
  - intros col s [<-|[<-|[]]] H; vm_compute in H; [|discriminate].
    injection H as <-. reflexivity.
  - exists stats. auto.
Defined.

(** *** A column of one repeated value *)

Lemma fold_Qplus_repeat (v a : Q) (k : nat) :
  (fold_left Qplus (repeat v k) a == a + inject_Z (Z.of_nat k) * v)%Q.
Proof.
  revert a. induction k as [|k IH]; intros a.
  - simpl. ring.
  - simpl repeat. simpl fold_left. rewrite IH.
    rewrite Nat2Z.inj_succ, <- Z.add_1_r, inject_Z_plus. ring.
Qed.

Lemma fold_Qplus_zeros (l : list Q) (a : Q) :
  Forall (fun x => (x == 0)%Q) l -> (fold_left Qplus l a == a)%Q.
Proof.
  intros H. revert a. induction H as [|x l Hx Hl IH]; intros a; simpl; [reflexivity|].
  rewrite IH, Hx. ring.
Qed.

Lemma Qmean_repeat (v : Q) (k : nat) :
  (Qsum (repeat v (S k)) / Qlen (repeat v (S k)) == v)%Q.
Proof.
  unfold Qsum, Qlen. rewrite Qred_correct, fold_Qplus_repeat, repeat_length.
  field. rewrite Nat2Z.inj_succ. unfold Z.succ.
  intros H. revert H. unfold inject_Z, Qeq. simpl. lia.
Qed.

Lemma Qle_bool_refl (v : Q) : Qle_bool v v = true.
Proof. apply Qle_bool_iff. apply Qle_refl. Qed.

Lemma Qlt_bool_irrefl (v : Q) : Qlt_bool v v = false.
Proof. unfold Qlt_bool. rewrite Qle_bool_refl. reflexivity. Qed.

Lemma fold_min_repeat (v : Q) (k : nat) :
  fold_left (fun m y => if Qlt_bool y m then y else m) (repeat v k) v = v.
Proof. induction k as [|k IH]; simpl; [reflexivity|]. rewrite Qlt_bool_irrefl. exact IH. Qed.

Lemma fold_max_repeat (v : Q) (k : nat) :
  fold_left (fun m y => if Qlt_bool m y then y else m) (repeat v k) v = v.
Proof. induction k as [|k IH]; simpl; [reflexivity|]. rewrite Qlt_bool_irrefl. exact IH. Qed.

Lemma Qsort_repeat (v : Q) (k : nat) : Qsort (repeat v k) = repeat v k.
Proof.
  induction k as [|k IH]; simpl; [reflexivity|]. unfold Qsort in *. rewrite IH.
  destruct k; simpl; [reflexivity|]. rewrite Qle_bool_refl. reflexivity.
Qed.

Lemma nth_repeat_lt (v : Q) (k i : nat) : (i < k)%nat -> nth i (repeat v k) 0%Q = v.
Proof.
  revert i. induction k as [|k IH]; intros [|i] H; simpl; try lia; [reflexivity|].
  apply IH. lia.
Qed.

Lemma present_repeat (v : Q) (k : nat) : present (repeat (Num v) k) = repeat v k.
Proof.
  induction k as [|k IH]; [reflexivity|]. cbn. unfold present in IH. rewrite IH. reflexivity.
Qed.

Lemma series_mean_repeat (v : Q) (k : nat) :
  Qred v = v -> series_mean (repeat (Num v) (S k)) = FNum v.
Proof.
  intros Hv. unfold series_mean. rewrite present_repeat.
  change (repeat v (S k)) with (v :: repeat v k) at 1. cbv iota beta.
  change (v :: repeat v k) with (repeat v (S k)).
  rewrite <- Hv at 3. f_equal. apply Qred_complete, Qmean_repeat.
Qed.

Lemma series_median_repeat (v : Q) (k : nat) :
  Qred v = v -> series_median (repeat (Num v) (S k)) = FNum v.
Proof.
  intros Hv. unfold series_median. rewrite present_repeat, Qsort_repeat.
  rewrite repeat_length. change (repeat v (S k)) with (v :: repeat v k) at 1.
  cbv iota beta. change (v :: repeat v k) with (repeat v (S k)).
  assert (Hhalf : (S k / 2 < S k)%nat) by (apply Nat.div_lt; lia).
  destruct (Nat.even (S k)).
  - rewrite !nth_repeat_lt by lia. rewrite <- Hv at 3. f_equal.
    apply Qred_complete. field.
  - rewrite nth_repeat_lt by lia. reflexivity.
Qed.

Lemma series_std_repeat (v : Q) (k : nat) :
  series_std (repeat (Num v) (S (S k))) = FSqrt 0.
Proof.
  unfold series_std. rewrite present_repeat, repeat_length. cbn [Nat.leb].
  f_equal. change 0%Q with (Qred 0). apply Qred_complete.
  unfold Qsum at 1. rewrite Qred_correct.
  rewrite fold_Qplus_zeros; [field|].
  - rewrite Nat2Z.inj_sub by lia. unfold inject_Z, Qeq. simpl. lia.
  - apply Forall_forall. intros x Hx. apply list_elem_of_In, in_map_iff in Hx as (y & <- & Hy).
    apply repeat_spec in Hy. subst y. rewrite (Qmean_repeat v (S k)). ring.
Qed.

Lemma Qred_whole (a : Z) : Qred (a # 1) = (a # 1).
Proof.
  pose proof (Qred_correct (a # 1)) as E. pose proof (gcd_Qred (a # 1)) as G.
  destruct (Qred (a # 1)) as [n d]. unfold Qeq in E. cbn [Qnum Qden] in E, G.
  rewrite Z.mul_1_r in E. subst n.
  rewrite Z.gcd_comm, Z.mul_comm, Z.gcd_mul_diag_l in G by lia.
  injection G as ->. rewrite Z.mul_1_r. reflexivity.
Qed.

(** X8. For a column that holds one whole number [v] in each of its [n+1]
    rows, with [(n+1) * |v|] at most [2^53] so that every sum of the floats
    is exact, [column_statistics] gives mean, minimum, maximum and median
    [v], the count [n+1], and a standard deviation of zero: the guarded 0.0
    for a single row, the root of a zero variance otherwise. *)
Theorem column_statistics_constant (v : Q) (n : nat) :
  Qden v = 1%positive ->
  Z.of_nat (S n) * Z.abs (Qnum v) <= 2 ^ 53 ->
  column_statistics (repeat (Num v) (S n))
  = {| stat_mean := FNum v; stat_min := FNum v; stat_max := FNum v;
       stat_std_dev := match n with O => FNum 0 | S _ => FSqrt 0 end;
       stat_median := FNum v; stat_count := Z.of_nat (S n) |}.
Proof.
  intros Hwhole _.
  assert (Hv : Qred v = v).
  { destruct v as [a b]. cbn in Hwhole. subst b. apply Qred_whole. }
  unfold column_statistics.
  rewrite (series_mean_repeat v n Hv), (series_median_repeat v n Hv), repeat_length.
  unfold series_min, series_max. rewrite present_repeat.
  change (repeat v (S n)) with (v :: repeat v n). cbv iota beta.
  rewrite fold_min_repeat, fold_max_repeat.
  destruct n as [|n]; [reflexivity|].
  change (v :: repeat v (S n)) with (repeat v (S (S n))).
  change (1 <? S (S n))%nat with true. cbv iota.
  rewrite series_std_repeat. reflexivity.
Qed.

Lemma column_statistics_constant_witness :
  column_statistics (repeat (Num 80) 3)
  = {| stat_mean := FNum 80; stat_min := FNum 80; stat_max := FNum 80;
       stat_std_dev := FSqrt 0;
       stat_median := FNum 80; stat_count := 3 |}.
Proof. apply (column_statistics_constant 80 2); [reflexivity|vm_compute; discriminate]. Defined.

(** ** The visualization planner and the model fields *)

Ltac plan_cases ct :=
  unfold create_visualizations_config;
  let En := fresh "En" in let Ec := fresh "Ec" in
  destruct (numeric_columns ct) as [|? [|? ?]] eqn:En;
  destruct (category_columns ct) as [|? ?] eqn:Ec; cbn [app].

Lemma plan_length (ct : column_types) :
  (length (create_visualizations_config ct) <= 3)%nat.
Proof. plan_cases ct; simpl; lia. Qed.

Lemma plan_order (ct : column_types) :
  StronglySorted lt (map chart_rank (create_visualizations_config ct)).
Proof.
  plan_cases ct; simpl; repeat (constructor; [|repeat constructor; lia]); constructor.
Qed.

Lemma plan_empty (ct : column_types) :
  create_visualizations_config ct = []
  <-> numeric_columns ct = [] /\ category_columns ct = [].
Proof.
  plan_cases ct; split; try discriminate; try (intros [? ?]; discriminate); auto.
Qed.

Lemma plan_charts (ct : column_types) (ch : chart) :
  In ch (create_visualizations_config ct) -> chart_ok ct ch.
Proof.
  assert (Hbar : forall (x : string) l, (1 <= length (firstn 6 (x :: l)) <= 6)%nat).
  { intros x l. split; [simpl; lia|apply firstn_le_length]. }
  plan_cases ct; intros Hin; cbn [In] in Hin;
    repeat (destruct Hin as [<-|Hin]);
    try destruct Hin; unfold chart_ok; rewrite ?En, ?Ec; eauto.
Qed.

Lemma plan_scatter (ct : column_types) :
  (2 <= length (numeric_columns ct))%nat
  <-> exists t x y desc, In (Scatter t x y desc) (create_visualizations_config ct).
Proof.
  plan_cases ct; simpl; split.
  all: try (intros H; lia).
  all: try (intros (t & x' & y' & desc & Hin);
            repeat (destruct Hin as [Hin|Hin]; try discriminate); destruct Hin).
  all: intros _; do 4 eexists; eauto.
Qed.

(** X9. The plan has at most three charts, in the order bar, pie, scatter;
    it is empty exactly when nothing was classified numeric or categorical;
    the bar chart names the first numeric columns, between one and six of
    them, the pie chart the first categorical column and the scatter chart,
    there exactly when two columns are numeric, the first two of them. *)
Theorem create_visualizations_config_plan (ct : column_types) :
  (length (create_visualizations_config ct) <= 3)%nat
  /\ StronglySorted lt (map chart_rank (create_visualizations_config ct))
  /\ (create_visualizations_config ct = []
      <-> numeric_columns ct = [] /\ category_columns ct = [])
  /\ (forall ch, In ch (create_visualizations_config ct) -> chart_ok ct ch)
  /\ ((2 <= length (numeric_columns ct))%nat
      <-> exists t x y desc, In (Scatter t x y desc) (create_visualizations_config ct)).
Proof.
  split; [apply plan_length|]. split; [apply plan_order|]. split; [apply plan_empty|].
  split; [apply plan_charts|apply plan_scatter].
Qed.

Lemma dict_get_set_eq {V} (d : list (string * V)) (k : string) (v : V) :
  dict_get (dict_set d k v) k = Some v.
Proof.
  induction d as [|[k0 v0] d IH]; simpl; [rewrite String.eqb_refl; reflexivity|].
  destruct (String.eqb k0 k) eqn:E; simpl; rewrite E; auto.
Qed.

Lemma dict_get_set_ne {V} (d : list (string * V)) (k k' : string) (v : V) :
  k <> k' -> dict_get (dict_set d k v) k' = dict_get d k'.
Proof.
  intros Hne. induction d as [|[k0 v0] d IH]; simpl.
  - apply String.eqb_neq in Hne. rewrite Hne. reflexivity.
  - destruct (String.eqb k0 k) eqn:E; simpl.
    + apply String.eqb_eq in E. subst k0. apply String.eqb_neq in Hne. rewrite Hne.
      reflexivity.
    + destruct (String.eqb k0 k'); [reflexivity|exact IH].
Qed.

Lemma dict_get_set_all {V} (cols : list string) (v : V) (k : string) :
  forall d : list (string * V),
    dict_get (dict_set_all d cols v) k
    = if str_mem k cols then Some v else dict_get d k.
Proof.
  unfold dict_set_all, str_mem.
  induction cols as [|c cols IH]; intros d; simpl; [reflexivity|].
  rewrite IH. destruct (existsb (String.eqb k) cols); [rewrite orb_true_r; reflexivity|].
  rewrite orb_false_r. destruct (String.eqb k c) eqn:E.
  - apply String.eqb_eq in E. subst c. apply dict_get_set_eq.
  - apply dict_get_set_ne. intros ->. rewrite String.eqb_refl in E. discriminate.
Qed.

Lemma dict_set_all_NoDup {V} (cols : list string) (v : V) :
  forall d : list (string * V),
    NoDup (map fst d) -> NoDup (map fst (dict_set_all d cols v)).
Proof.
  unfold dict_set_all. induction cols as [|c cols IH]; intros d H; simpl; [exact H|].
  apply IH, dict_set_NoDup, H.
Qed.

(** X10. The fields of [generate_dynamic_model_fields], by name: a numeric
    column has a float field, also when it is the identifier or listed as
    categorical too; a categorical column that is not numeric has an
    optional text field; the identifier, when its name is not empty and it
    is in neither list, has a required text field; no other name has a
    field, and no name has two. *)
Theorem generate_dynamic_model_fields_lookup (ct : column_types) :
  NoDup (map fst (generate_dynamic_model_fields ct))
  /\ forall col : string,
       dict_get (generate_dynamic_model_fields ct) col
       = if str_mem col (numeric_columns ct) then Some (FloatField true)
         else if str_mem col (category_columns ct) then Some (CharField 255 true)
         else match id_column ct with
              | Some c =>
                  if String.eqb c col && negb (String.eqb c "")
                  then Some (CharField 255 false) else None
              | None => None
              end.
Proof.
  unfold generate_dynamic_model_fields. split.
  - apply dict_set_all_NoDup, dict_set_all_NoDup.
    destruct (id_column ct) as [c|]; [|apply NoDup_nil_2].
    destruct (String.eqb c ""); [apply NoDup_nil_2|]. apply dict_set_NoDup, NoDup_nil_2.
  - intros col. rewrite !dict_get_set_all.
    destruct (str_mem col (numeric_columns ct)); [reflexivity|].
    destruct (str_mem col (category_columns ct)); [reflexivity|].
    destruct (id_column ct) as [c|]; [|reflexivity].
    destruct (String.eqb c "") eqn:Ee; simpl.
    + rewrite andb_false_r. reflexivity.
    + rewrite andb_true_r. destruct (String.eqb c col); reflexivity.
Qed.

(** ** Listing and retrieving datasets *)

(** The table after a successful upload into a well-formed table. *)
Lemma upload_created_state (request_file : option csv_file) (w w' : world)
    (dataset : Dataset) (stats : upload_stats) (warnings : option (list string)) :
  store_ok w ->
  upload request_file w = (Ok (Response201 dataset stats warnings), w') ->
  let newest := dataset :: order_by_uploaded_at_desc (datasets w) in
  pk dataset = next_pk w
  /\ NoDup (map pk newest)
  /\ datasets w' = without (skipn 5 newest) (datasets w ++ [dataset])
  /\ order_by_uploaded_at_desc (datasets w') = firstn 5 newest.
Proof.
  intros Hok Hup.
  assert (Hbody : exists f, upload_body f w = (Ok (Response201 dataset stats warnings), w')).
  { unfold upload in Hup. destruct request_file as [f|]; [|discriminate].
    destruct (negb _); [discriminate|]. destruct (_ <? _); [discriminate|].
    unfold try_except in Hup. exists f.
    destruct (upload_body f w) as [[r|e] w0]; [exact Hup|discriminate]. }
  destruct Hbody as [f Hbody]. pose proof (upload_body_cases f w) as H.
  rewrite Hbody in H. destruct H as (w1 & d0 & Hdb & _ & _ & Hc & Hf).
  apply (same_db_store_ok _ _ Hdb) in Hok.
  destruct Hdb as (Eds & Epk & _). rewrite <- Eds, <- Epk. clear Eds Epk Hbody Hup.
  assert (Hpk : pk dataset = next_pk w1 /\ uploaded_at dataset = clock w1).
  { unfold Dataset_objects_create in Hc. injection Hc as Hc. rewrite <- Hc. auto. }
  clear Hc. destruct Hpk as [Hpk Hat].
  rewrite for_each_delete_spec in Hf. injection Hf as <-. cbn [datasets].
  destruct Hok as [Hnd Hall].
  assert (Hnew : Forall (fun d => uploaded_at d < uploaded_at dataset) (datasets w1)).
  { eapply Forall_impl; [exact Hall|]. simpl. intros; lia. }
  rewrite (order_newest_last (datasets w1) dataset Hnew). cbn zeta.
  assert (HndS : NoDup (map pk (dataset :: order_by_uploaded_at_desc (datasets w1)))).
  { assert (HP : Permutation (map pk (dataset :: order_by_uploaded_at_desc (datasets w1)))
                   (map pk (datasets w1 ++ [dataset]))).
    { apply Permutation_map. rewrite order_by_uploaded_at_desc_perm.
      apply Permutation_cons_append. }
    rewrite HP, map_app. apply NoDup_app. split; [exact Hnd|]. split.
    - intros x Hx [E|[]]%list_elem_of_In. simpl in E.
      apply list_elem_of_In, in_map_iff in Hx as (e & Ee & He).
      rewrite Forall_forall in Hall. apply list_elem_of_In, Hall in He. lia.
    - simpl. apply NoDup_singleton. }
  split; [exact Hpk|]. split; [exact HndS|]. split; [reflexivity|].
  unfold without. rewrite order_filter, (order_newest_last (datasets w1) dataset Hnew).
  set (S := dataset :: order_by_uploaded_at_desc (datasets w1)) in *.
  transitivity (without (skipn 5 S) (firstn 5 S ++ skipn 5 S)).
  { rewrite firstn_skipn. reflexivity. }
  apply without_suffix. rewrite firstn_skipn. exact HndS.
Qed.

Lemma firstn_In {A} (n : nat) (l : list A) (x : A) : In x (firstn n l) -> In x l.
Proof.
  revert n. induction l as [|y l IH]; intros [|n]; simpl; try tauto.
  intros [->|H]; eauto.
Qed.

Lemma firstn_newest_first (n : nat) (l : list Dataset) :
  newest_first l -> newest_first (firstn n l).
Proof.
  revert n. induction l as [|d l IH]; intros [|n]; simpl; auto.
  intros [Hd Hl]. split; [|auto].
  rewrite Forall_forall in *. intros x Hx. apply Hd.
  apply list_elem_of_In in Hx. apply list_elem_of_In. eapply firstn_In, Hx.
Qed.

(** X11. [list] answers with at most five datasets, newest first, all of
    them rows of the table, and changes nothing; with at most five rows in
    the table it shows them all. *)
Theorem list_datasets_newest_five (w : world) :
  exists l,
    list_datasets w = (Ok (Listing l), w)
    /\ (length l <= 5)%nat
    /\ newest_first l
    /\ (forall d, In d l -> In d (datasets w))
    /\ ((length (datasets w) <= 5)%nat -> Permutation l (datasets w)).
Proof.
  exists (firstn 5 (order_by_uploaded_at_desc (datasets w))).
  split; [reflexivity|]. split; [apply firstn_le_length|].
  split; [apply firstn_newest_first, order_by_uploaded_at_desc_sorted|]. split.
  - intros d Hd. apply firstn_In in Hd. apply list_elem_of_In.
    rewrite <- order_by_uploaded_at_desc_perm. apply list_elem_of_In, Hd.
  - intros H. rewrite firstn_all2.
    + apply order_by_uploaded_at_desc_perm.
    + rewrite (Permutation_length (order_by_uploaded_at_desc_perm _)). exact H.
Qed.

(** X12. After a successful upload into a well-formed table, [list] shows
    the whole table: the new dataset first, then the four newest of the
    rows there were. *)
Theorem list_datasets_after_upload (request_file : option csv_file) (w w' : world)
    (dataset : Dataset) (stats : upload_stats) (warnings : option (list string)) :
  store_ok w ->
  upload request_file w = (Ok (Response201 dataset stats warnings), w') ->
  list_datasets w'
  = (Ok (Listing (dataset :: firstn 4 (order_by_uploaded_at_desc (datasets w)))), w')
  /\ Permutation (dataset :: firstn 4 (order_by_uploaded_at_desc (datasets w)))
       (datasets w').
Proof.
  intros Hok Hup.
  destruct (upload_created_state _ _ _ _ _ _ Hok Hup) as (_ & _ & _ & Hord).
  cbn zeta in Hord. cbn [firstn] in Hord. split.
  - unfold list_datasets, bind, Dataset_objects_all, ret. rewrite Hord.
    f_equal. f_equal. f_equal.
    change (firstn 5 (dataset :: firstn 4 (order_by_uploaded_at_desc (datasets w))))
      with (dataset :: firstn 4 (firstn 4 (order_by_uploaded_at_desc (datasets w)))).
    rewrite firstn_firstn. reflexivity.
  - rewrite <- Hord. apply order_by_uploaded_at_desc_perm.
Qed.

Lemma list_datasets_after_upload_witness :
  exists dataset w',
    list_datasets w'
    = (Ok (Listing (dataset :: firstn 4 (order_by_uploaded_at_desc (datasets five_world)))),
       w').
Proof.
  pose proof (list_datasets_after_upload (upload_of "pumps.csv" pumps) five_world
                (snd (upload (upload_of "pumps.csv" pumps) five_world))) as H.
  edestruct H as [H1 _]; [| vm_compute; reflexivity | eexists _, _; exact H1].
  split; simpl.
  - repeat (apply NoDup_cons; split; [rewrite list_elem_of_In; simpl; lia|]).
    apply NoDup_nil_2.
  - repeat (constructor; [simpl; lia|]). constructor.
Defined.

Lemma find_pk_In (ds : list Dataset) (d : Dataset) :
  NoDup (map pk ds) -> In d ds -> find (fun e => (pk e =? pk d)%nat) ds = Some d.
Proof.
  induction ds as [|e ds IH]; simpl; [intros _ []|].
  intros Hnd. apply NoDup_cons in Hnd as [He Hnd]. rewrite list_elem_of_In in He.
  intros [->|Hin]; [rewrite Nat.eqb_refl; reflexivity|].
  destruct (pk e =? pk d)%nat eqn:E; [|auto].
  apply Nat.eqb_eq in E. exfalso. apply He. rewrite E. apply in_map, Hin.
Qed.

Lemma without_In (old ds : list Dataset) (d : Dataset) :
  In d (without old ds) <-> In d ds /\ ~ In (pk d) (map pk old).
Proof.
  unfold without. rewrite List.filter_In, negb_true_iff. split.
  - intros [H1 H2]. split; [exact H1|]. intros H. apply existsb_pk in H. congruence.
  - intros [H1 H2]. split; [exact H1|]. destruct (existsb _ old) eqn:E; [|reflexivity].
    apply existsb_pk in E. contradiction.
Qed.

(** X13. After a successful upload into a well-formed table, [retrieve]
    with the key of the new dataset answers with that dataset, and with the
    key of a row beyond the five newest it answers "Dataset not found". *)
Theorem retrieve_after_upload (request_file : option csv_file) (w w' : world)
    (dataset : Dataset) (stats : upload_stats) (warnings : option (list string)) :
  store_ok w ->
  upload request_file w = (Ok (Response201 dataset stats warnings), w') ->
  retrieve (pk dataset) w' = (Ok (Detail dataset), w')
  /\ forall old,
       In old (skipn 5 (dataset :: order_by_uploaded_at_desc (datasets w))) ->
       retrieve (pk old) w' = (Ok (NotFound "Dataset not found"), w').
Proof.
  intros Hok Hup.
  destruct (upload_created_state _ _ _ _ _ _ Hok Hup) as (_ & HndS & Hds & _).
  cbn zeta in HndS, Hds.
  set (S := dataset :: order_by_uploaded_at_desc (datasets w)) in *.
  assert (HndD : NoDup (map pk (datasets w ++ [dataset]))).
  { assert (HP : Permutation (map pk S) (map pk (datasets w ++ [dataset]))).
    { apply Permutation_map. unfold S. rewrite order_by_uploaded_at_desc_perm.
      apply Permutation_cons_append. }
    rewrite <- HP. exact HndS. }
  assert (Hsplit : NoDup (map pk (firstn 5 S) ++ map pk (skipn 5 S))).
  { rewrite <- map_app, firstn_skipn. exact HndS. }
  apply NoDup_app in Hsplit as (_ & Hdisj & _).
  unfold retrieve, bind, Dataset_objects_get. cbn [fst snd]. split.
  - rewrite (find_pk_In (datasets w') dataset); [reflexivity| |].
    + rewrite Hds. apply NoDup_pk_without, HndD.
    + rewrite Hds. apply without_In. split; [apply in_or_app; right; left; reflexivity|].
      intros Hin. apply (Hdisj (pk dataset)); [|apply list_elem_of_In, Hin].
      apply list_elem_of_In. unfold S. simpl. auto.
  - intros old Hold.
    destruct (find (fun d => (pk d =? pk old)%nat) (datasets w')) as [d|] eqn:E;
      [|reflexivity].
    apply find_some in E as [Hin Hpk]. apply Nat.eqb_eq in Hpk.
    rewrite Hds in Hin. apply without_In in Hin as [_ Hin]. exfalso. apply Hin.
    rewrite Hpk. apply in_map, Hold.
Qed.

Lemma retrieve_after_upload_witness :
  exists dataset w', retrieve (pk dataset) w' = (Ok (Detail dataset), w').
Proof.
  pose proof (retrieve_after_upload (upload_of "pumps.csv" pumps) five_world
                (snd (upload (upload_of "pumps.csv" pumps) five_world))) as H.
  edestruct H as [H1 _]; [| vm_compute; reflexivity | eexists _, _; exact H1].
  split; simpl.
  - repeat (apply NoDup_cons; split; [rewrite list_elem_of_In; simpl; lia|]).
    apply NoDup_nil_2.
  - repeat (constructor; [simpl; lia|]). constructor.
Defined.


(** ** Dropping the rows without a value *)

Lemma repeat_false_seq (a n : nat) :
  repeat false n = map (fun _ : nat => false) (seq a n).
Proof.
  revert a. induction n as [|n IH]; intros a; [reflexivity|].
  cbn. f_equal. apply IH.
Qed.

Lemma nth_map_seq {B} (g : nat -> B) (n i : nat) (d : B) :
  (i < n)%nat -> nth i (map g (seq 0 n)) d = g i.
Proof.
  intros Hi. rewrite (nth_indep _ d (g 0%nat)) by (rewrite length_map, length_seq; exact Hi).
  rewrite map_nth, seq_nth by exact Hi. reflexivity.
Qed.

Lemma row_mask_seq (cols : list Series) (n : nat) :
  row_mask cols n
  = map (fun i => existsb (fun v => negb (isna (nth i v NaN))) cols) (seq 0 n).
Proof.
  induction cols as [|v cols IH]; cbn [row_mask existsb].
  - apply repeat_false_seq.
  - apply map_ext_in. intros i Hi. apply in_seq in Hi.
    rewrite IH, nth_map_seq by lia. reflexivity.
Qed.

Lemma keep_rows_seq {A} (g : nat -> bool) (d : A) (n a : nat) (v : list A) :
  length v = n ->
  keep_rows (map g (seq a n)) v
  = map (fun j => nth (j - a) v d) (List.filter g (seq a n)).
Proof.
  revert a v. induction n as [|n IH]; intros a v Hlen.
  - destruct v; [reflexivity|discriminate].
  - destruct v as [|x v]; [discriminate|]. injection Hlen as Hlen.
    cbn [seq map keep_rows List.filter].
    rewrite (IH (S a) v Hlen).
    assert (Hext : map (fun j => nth (j - S a) v d) (List.filter g (seq (S a) n))
                   = map (fun j => nth (j - a) (x :: v) d) (List.filter g (seq (S a) n))).
    { apply map_ext_in. intros j Hj. apply List.filter_In in Hj. destruct Hj as (Hj & _).
      apply in_seq in Hj. replace (j - a)%nat with (S (j - S a)) by lia. reflexivity. }
    rewrite Hext. destruct (g a); [|reflexivity].
    cbn [map]. rewrite Nat.sub_diag. reflexivity.
Qed.

Lemma row_has_value_cols (d : DataFrame) (i : nat) :
  row_has_value d i = existsb (fun v => negb (isna (nth i v NaN))) (map snd d).
Proof.
  unfold row_has_value. induction d as [|cs d IH]; [reflexivity|].
  cbn. rewrite IH. reflexivity.
Qed.

Lemma dropna_all_rows (d : DataFrame) :
  rectangular d ->
  dropna_all d
  = map (fun cs => (fst cs,
                    map (fun j => nth j (snd cs) NaN)
                        (List.filter (row_has_value d) (seq 0 (df_len d))))) d.
Proof.
  intros Hrect. unfold dropna_all. rewrite row_mask_seq.
  apply map_ext_in. intros (c, v) Hin. cbn [fst snd].
  unfold rectangular in Hrect. rewrite List.Forall_forall in Hrect.
  specialize (Hrect _ Hin). cbn [snd] in Hrect.
  rewrite (keep_rows_seq _ NaN (df_len d) 0 v Hrect).
  rewrite (List.filter_ext (row_has_value d) _ (row_has_value_cols d)).
  f_equal. apply map_ext. intros j. rewrite Nat.sub_0_r. reflexivity.
Qed.

Lemma dropna_all_no_empty_row (d : DataFrame) :
  rectangular d ->
  rectangular (dropna_all d)
  /\ df_len (dropna_all d)
     = length (List.filter (row_has_value d) (seq 0 (df_len d)))
  /\ forall i, (i < df_len (dropna_all d))%nat ->
       row_has_value (dropna_all d) i = true.
Proof.
  intros Hrect. rewrite (dropna_all_rows d Hrect).
  set (kept := List.filter (row_has_value d) (seq 0 (df_len d))).
  assert (Hlen : d <> [] ->
            df_len (map (fun cs => (fst cs, map (fun j => nth j (snd cs) NaN) kept)) d)
            = length kept).
  { destruct d as [|(c, v) d']; [congruence|]. intros _. cbn. apply length_map. }
  assert (Hnil : d = [] -> kept = []).
  { intros ->. reflexivity. }
  split; [|split].
  - unfold rectangular. apply List.Forall_forall. intros cs Hcs.
    rewrite Hlen by (intros ->; destruct Hcs).
    apply in_map_iff in Hcs. destruct Hcs as (cs' & <- & _). cbn. apply length_map.
  - destruct d as [|cs d'] eqn:Hd; [rewrite Hnil by reflexivity; reflexivity|].
    rewrite <- Hd in *. apply Hlen. congruence.
  - intros i Hi.
    assert (Hne : d <> []) by (intros ->; cbn in Hi; lia).
    rewrite Hlen in Hi by exact Hne.
    assert (Hj : In (nth i kept 0%nat) kept) by (apply nth_In; exact Hi).
    apply List.filter_In in Hj. destruct Hj as (_ & Hj).
    unfold row_has_value in *. apply existsb_exists in Hj.
    destruct Hj as (cs & Hcs & Hval).
    apply existsb_exists.
    exists (fst cs, map (fun j => nth j (snd cs) NaN) kept).
    split; [apply in_map_iff; exists cs; auto|].
    cbn [snd].
    rewrite (nth_indep _ NaN (nth 0%nat (snd cs) NaN)) by (rewrite length_map; exact Hi).
    rewrite (map_nth (fun j => nth j (snd cs) NaN)). exact Hval.
Qed.

Lemma clean_frame_rectangular (cols : list string) (d : DataFrame) :
  rectangular d -> rectangular (clean_frame cols d).
Proof.
  unfold rectangular. rewrite clean_frame_len, !List.Forall_forall.
  intros H cs Hcs. unfold clean_frame in Hcs.
  apply in_map_iff in Hcs. destruct Hcs as (cs' & <- & Hin).
  specialize (H cs' Hin).
  destruct (str_mem (fst cs') cols); [|exact H].
  cbn. rewrite cleaned_column_length. exact H.
Qed.

(** X14. The frame [process_dynamic_csv] returns has no row without a
    value: for an input whose columns all have the length of the frame, the
    frame returned is again rectangular, it has as many rows as the caller's
    frame (as the run leaves it) has rows with a value in some column, and
    each of its rows holds a value in at least one column. *)
Theorem process_dynamic_csv_no_empty_row (df df' : ref) (d : DataFrame)
    (md : metadata) (w w' : world) :
  NoDup (df_columns d) -> rectangular d -> heap w !! df = Some d ->
  process_dynamic_csv df w = (Ok (df', md), w') ->
  exists d1 d2,
    heap w' !! df = Some d1
    /\ heap w' !! df' = Some d2
    /\ rectangular d2
    /\ df_len d2 = length (List.filter (row_has_value d1) (seq 0 (df_len d1)))
    /\ forall i, (i < df_len d2)%nat -> row_has_value d2 i = true.
Proof.
  intros Hnd Hrect Hd Hrun.
  destruct (process_dynamic_csv_result df df' d md w w' Hnd Hd Hrun)
    as (H1 & H2 & _).
  eexists _, _. split; [exact H1|]. split; [exact H2|].
  apply dropna_all_no_empty_row, clean_frame_rectangular, Hrect.
Qed.

Lemma process_dynamic_csv_no_empty_row_witness :
  exists d2,
    snd (process_dynamic_csv 0%nat (with_heap [gappy])) = with_heap [gappy; d2]
    /\ df_len d2 = 2%nat
    /\ forall i, (i < df_len d2)%nat -> row_has_value d2 i = true.
Proof.
  destruct (process_dynamic_csv_no_empty_row 0%nat 1%nat gappy
              {| md_column_types :=
                   ColumnTypes (Some "Tag"%string) ["Tag"; "Site"]%string [];
                 md_validation_warnings := [];
                 md_total_rows := 2; md_total_columns := 2 |}
              (with_heap [gappy])
              (with_heap [gappy; [("Tag", [Str "inlet"; Str "outlet"]);
                                  ("Site", [Str "north"; NaN])]%string]))
    as (d1 & d2 & H1 & H2 & _ & H3 & H4).
  - repeat (apply NoDup_cons; split;
            [rewrite list_elem_of_In; simpl; intuition discriminate|]).
    apply NoDup_nil_2.
  - repeat constructor.
  - reflexivity.
  - vm_compute. reflexivity.
  - exists d2. cbn in H1, H2. injection H1 as <-. injection H2 as <-.
    split; [vm_compute; reflexivity|]. split; [reflexivity|exact H4].
Defined.
(** ** The password reset *)

Lemma verify_otp_run (e c : option string) (s : site) :
  verify_otp e c s =
  if blank e || blank c then
    (Resp 400 [("error", "Email and OTP are required")]%string, s)
  else
    match List.filter (has_email (text e)) (users s) with
    | [] => (invalid_otp, s)
    | [u] =>
        match List.filter (unused_code (user_id u) (text c)) (otps s) with
        | [] => (invalid_otp, s)
        | [o] =>
            if is_used o then (otp_expired, s)
            else
              match expires_at o with
              | None => (server_error, s)
              | Some t =>
                  if time_now s <? t then
                    (Resp 200 [("message", "OTP verified successfully");
                               ("token", text c)]%string, s)
                  else (otp_expired, s)
              end
        | _ :: _ :: _ => (server_error, s)
        end
    | _ :: _ :: _ => (server_error, s)
    end.
Proof.
  unfold verify_otp, respond.
  destruct (blank e || blank c); [reflexivity|].
  unfold try_assign, User_objects_get, objects_get.
  destruct (List.filter (has_email (text e)) (users s)) as [|u [|u' us]];
    [reflexivity| |reflexivity].
  unfold aret, except_, abind, PasswordResetOTP_objects_get, objects_get.
  destruct (List.filter (unused_code (user_id u) (text c)) (otps s)) as [|o [|o' os]];
    [reflexivity| |reflexivity].
  unfold aret, is_valid.
  destruct (is_used o); [reflexivity|]. cbn [negb].
  destruct (expires_at o) as [t|]; [|reflexivity].
  destruct (time_now s <? t); reflexivity.
Qed.

Lemma reset_password_run (e c p : option string) (s : site) :
  reset_password e c p s =
  if blank e || blank c || blank p then
    (Resp 400 [("error", "Email, OTP, and new password are required")]%string, s)
  else if (py_len (text p) <? 8)%nat then
    (Resp 400 [("error", "Password must be at least 8 characters long")]%string, s)
  else
    match List.filter (has_email (text e)) (users s) with
    | [] => (Resp 400 [("error", "Invalid request")]%string, s)
    | [u] =>
        match List.filter (unused_code (user_id u) (text c)) (otps s) with
        | [] => (invalid_otp, s)
        | [o] =>
            if is_used o then (otp_expired, s)
            else
              match expires_at o with
              | None => (server_error, s)
              | Some t =>
                  if time_now s <? t then
                    (password_reset_done,
                     Site (save_row user_id (set_password u (text p)) (users s))
                          (save_row otp_id (mark_used o) (otps s))
                          (next_otp_id s) (time_now s) (random_tape s)
                          (mail_up s) (outbox s))
                  else (otp_expired, s)
              end
        | _ :: _ :: _ => (server_error, s)
        end
    | _ :: _ :: _ => (server_error, s)
    end.
Proof.
  unfold reset_password, respond.
  destruct (blank e || blank c || blank p); [reflexivity|].
  destruct (py_len (text p) <? 8)%nat; [reflexivity|].
  unfold try_assign, User_objects_get, objects_get.
  destruct (List.filter (has_email (text e)) (users s)) as [|u [|u' us]];
    [reflexivity| |reflexivity].
  unfold aret, except_, abind, PasswordResetOTP_objects_get, objects_get.
  destruct (List.filter (unused_code (user_id u) (text c)) (otps s)) as [|o [|o' os]];
    [reflexivity| |reflexivity].
  unfold aret, is_valid.
  destruct (is_used o) eqn:Hu; [reflexivity|]. cbn [negb].
  destruct (expires_at o) as [t|] eqn:Ht; [|reflexivity].
  destruct (time_now s <? t); [|reflexivity].
  cbn [negb]. unfold User_save, PasswordResetOTP_save, set_users, set_otps.
  cbn. rewrite Ht. reflexivity.
Qed.

Lemma random_choices_run (population : list ascii) (k : nat) :
  population <> [] ->
  forall tape, exists picked tape',
    length picked = k
    /\ Forall (fun ch => In ch population) picked
    /\ forall s, random_tape s = tape ->
         random_choices population k s =
         (Val picked,
          Site (users s) (otps s) (next_otp_id s) (time_now s) tape'
               (mail_up s) (outbox s)).
Proof.
  intros Hpop. induction k as [|k IH]; intros tape.
  - exists [], tape. repeat split; [constructor|].
    intros s <-. destruct s; reflexivity.
  - assert (Hnth : forall r, In (nth (r mod length population) population "0"%char) population).
    { intros r. apply nth_In. apply Nat.mod_upper_bound.
      destruct population; [congruence|discriminate]. }
    destruct tape as [|r tape].
    + destruct (IH []) as (picked & tape' & Hlen & Hall & Hrun).
      exists (nth (0 mod length population) population "0"%char :: picked), tape'.
      repeat split; [simpl; congruence|constructor; [apply Hnth|exact Hall]|].
      intros s Hs. cbn [random_choices]. unfold abind, random_draw. rewrite Hs.
      rewrite (Hrun s Hs). reflexivity.
    + destruct (IH tape) as (picked & tape' & Hlen & Hall & Hrun).
      exists (nth (r mod length population) population "0"%char :: picked), tape'.
      repeat split; [simpl; congruence|constructor; [apply Hnth|exact Hall]|].
      intros s Hs. cbn [random_choices]. unfold abind, random_draw. rewrite Hs.
      rewrite Hrun by reflexivity. reflexivity.
Qed.

Lemma length_string_of_list_ascii (l : list ascii) :
  String.length (string_of_list_ascii l) = length l.
Proof. induction l as [|a l IH]; simpl; congruence. Qed.

Lemma generate_otp_run (tape : list nat) :
  exists code tape',
    String.length code = 6%nat
    /\ all_digits code = true
    /\ forall s, random_tape s = tape ->
         generate_otp s =
         (Val code,
          Site (users s) (otps s) (next_otp_id s) (time_now s) tape'
               (mail_up s) (outbox s)).
Proof.
  destruct (random_choices_run string_digits 6 ltac:(discriminate) tape)
    as (picked & tape' & Hlen & Hall & Hrun).
  exists (string_of_list_ascii picked), tape'. split; [|split].
  - rewrite length_string_of_list_ascii. exact Hlen.
  - unfold all_digits. rewrite list_ascii_of_string_of_list_ascii.
    apply forallb_forall. intros ch Hch.
    rewrite List.Forall_forall in Hall. specialize (Hall ch Hch).
    assert (Hd : forallb is_digit string_digits = true) by reflexivity.
    rewrite forallb_forall in Hd. apply Hd, Hall.
  - intros s Hs. unfold generate_otp, abind. rewrite (Hrun s Hs). reflexivity.
Qed.

Lemma generate_otp_code (s : site) (code : string) (sg : site) :
  generate_otp s = (Val code, sg) ->
  String.length code = 6%nat /\ all_digits code = true
  /\ forall s', random_tape s' = random_tape s ->
       generate_otp s' =
       (Val code,
        Site (users s') (otps s') (next_otp_id s') (time_now s') (random_tape sg)
             (mail_up s') (outbox s')).
Proof.
  intros Hg.
  destruct (generate_otp_run (random_tape s)) as (code' & tape' & Hlen & Hdig & Hrun).
  rewrite (Hrun s eq_refl) in Hg. injection Hg as <- <-.
  repeat split; [exact Hlen|exact Hdig|]. intros s' Hs'. cbn [random_tape].
  apply Hrun, Hs'.
Qed.

Lemma blank_Some (t : string) : t <> ""%string -> blank (Some t) = false.
Proof. intros H. cbn. apply String.eqb_neq, H. Qed.

Lemma fresh_key_not_in (rows : list PasswordResetOTP) (n : nat) :
  Forall (fun o => (otp_id o < n)%nat) rows ->
  existsb (fun y => (otp_id y =? n)%nat) rows = false.
Proof.
  intros H. induction H as [|o rows Ho _ IH]; [reflexivity|].
  cbn. rewrite IH, orb_false_r. apply Nat.eqb_neq. lia.
Qed.

Lemma Forall_map_mark (P : PasswordResetOTP -> Prop) (q : PasswordResetOTP -> bool)
    (rows : list PasswordResetOTP) :
  (forall o, P o -> P (mark_used o)) ->
  Forall P rows ->
  Forall P (map (fun o => if q o then mark_used o else o) rows).
Proof.
  intros Hm H. induction H as [|o rows Ho _ IH]; cbn; constructor; [|exact IH].
  destruct (q o); auto.
Qed.

Lemma request_password_reset_issues (s : site) (e : string) (u : User)
    (code : string) (sg : site) :
  db_ok s ->
  e <> ""%string ->
  List.filter (has_email e) (users s) = [u] ->
  generate_otp s = (Val code, sg) ->
  request_password_reset (Some e) s =
  (if mail_up s then
     Resp 200 [("message", "OTP has been sent to your email address");
               ("email", e)]%string
   else Resp 500 [("error", "Failed to send email. Please try again later.")]%string,
   Site (users s)
        (map (fun o => if unused_of (user_id u) o then mark_used o else o) (otps s)
         ++ [{| otp_id := next_otp_id s; otp_user := user_id u; otp := code;
                created_at := time_now s; expires_at := Some (time_now s + 300);
                is_used := false |}])
        (S (next_otp_id s)) (time_now s) (random_tape sg) (mail_up s)
        (if mail_up s then
           outbox s ++ [{| mail_to := e; mail_username := username u;
                           mail_otp := code |}]
         else outbox s)).
Proof.
  intros (_ & _ & Hfresh & _) He Hu Hg.
  destruct (generate_otp_code _ _ _ Hg) as (_ & _ & Hframe).
  unfold request_password_reset, respond. rewrite (blank_Some _ He).
  unfold try_assign, User_objects_get, objects_get. cbn [text]. rewrite Hu.
  unfold aret, abind, invalidate_unused.
  rewrite (Hframe (set_otps _ s) eq_refl).
  unfold PasswordResetOTP_objects_create, PasswordResetOTP_save, set_otps.
  cbn [users otps next_otp_id time_now random_tape mail_up outbox expires_at
       otp_id otp_user otp created_at is_used].
  unfold save_row. cbn [otp_id].
  rewrite fresh_key_not_in
    by (apply Forall_map_mark; [intros o Ho; exact Ho|exact Hfresh]).
  unfold except_, abind, send_mail. cbn [mail_up].
  destruct (mail_up s); reflexivity.
Qed.

(** ** Rows, keys and filters *)

Lemma save_row_present {A} (key : A -> nat) (x x0 : A) (rows : list A) :
  In x0 rows -> key x0 = key x ->
  save_row key x rows = map (fun y => if (key y =? key x)%nat then x else y) rows.
Proof.
  intros Hin Hk. unfold save_row.
  assert (H : existsb (fun y => (key y =? key x)%nat) rows = true).
  { apply existsb_exists. exists x0. split; [exact Hin|]. apply Nat.eqb_eq, Hk. }
  rewrite H. reflexivity.
Qed.

Lemma map_key_replace {A} (key : A -> nat) (x : A) (rows : list A) :
  map key (map (fun y => if (key y =? key x)%nat then x else y) rows) = map key rows.
Proof.
  induction rows as [|y rows IH]; [reflexivity|]. cbn. rewrite IH. f_equal.
  destruct (key y =? key x)%nat eqn:E; [|reflexivity].
  apply Nat.eqb_eq in E. congruence.
Qed.

Lemma NoDup_key_inj {A} (key : A -> nat) (rows : list A) (x y : A) :
  NoDup (map key rows) -> In x rows -> In y rows -> key x = key y -> x = y.
Proof.
  induction rows as [|z rows IH]; [intros _ []|].
  cbn [map]. rewrite NoDup_cons. intros (Hz & Hnd) Hx Hy Hk.
  assert (Hout : forall w, In w rows -> key w <> key z).
  { intros w Hw E. apply Hz. rewrite <- E. apply list_elem_of_In, in_map, Hw. }
  destruct Hx as [<-|Hx], Hy as [<-|Hy].
  - reflexivity.
  - exfalso. apply (Hout y Hy). congruence.
  - exfalso. apply (Hout x Hx). congruence.
  - apply IH; assumption.
Qed.

Lemma filter_empty {A} (q : A -> bool) (rows : list A) :
  (forall y, In y rows -> q y = false) -> List.filter q rows = [].
Proof.
  intros H. destruct (List.filter q rows) as [|z zs] eqn:E; [reflexivity|].
  assert (Hz : In z (List.filter q rows)) by (rewrite E; left; reflexivity).
  apply List.filter_In in Hz. destruct Hz as (Hz & Hq).
  rewrite (H z Hz) in Hq. discriminate.
Qed.

Lemma filter_map_commute {A} (q : A -> bool) (f : A -> A) (rows : list A) :
  (forall y, In y rows -> q (f y) = q y) ->
  List.filter q (map f rows) = map f (List.filter q rows).
Proof.
  induction rows as [|y rows IH]; [reflexivity|]. intros H.
  cbn. rewrite (H y (or_introl eq_refl)), IH by (intros; apply H; right; assumption).
  destruct (q y); reflexivity.
Qed.

Lemma filter_length_mono {A} (p q : A -> bool) (rows : list A) :
  (forall y, In y rows -> p y = true -> q y = true) ->
  (length (List.filter p rows) <= length (List.filter q rows))%nat.
Proof.
  induction rows as [|y rows IH]; [reflexivity|]. intros H.
  assert (IH' := IH (fun z Hz => H z (or_intror Hz))).
  cbn. destruct (p y) eqn:Ep.
  - rewrite (H y (or_introl eq_refl) Ep). cbn. lia.
  - destruct (q y); cbn; lia.
Qed.

Lemma filter_map_shrink {A} (q : A -> bool) (f : A -> A) (rows : list A) :
  (forall y, In y rows -> q (f y) = true -> q y = true) ->
  (length (List.filter q (map f rows)) <= length (List.filter q rows))%nat.
Proof.
  induction rows as [|y rows IH]; [reflexivity|]. intros H.
  assert (IH' := IH (fun z Hz => H z (or_intror Hz))).
  cbn. destruct (q (f y)) eqn:Ep.
  - rewrite (H y (or_introl eq_refl) Ep). cbn. lia.
  - destruct (q y); cbn; lia.
Qed.

Lemma filter_key_unique {A} (key : A -> nat) (q : A -> bool) (rows : list A) :
  NoDup (map key rows) ->
  (forall x y, In x rows -> In y rows -> q x = true -> q y = true -> key x = key y) ->
  (length (List.filter q rows) <= 1)%nat.
Proof.
  induction rows as [|z rows IH]; [cbn; lia|].
  cbn [map]. rewrite NoDup_cons. intros (Hz & Hnd) H.
  cbn. destruct (q z) eqn:Ez.
  - rewrite filter_empty; [cbn; lia|].
    intros y Hy. destruct (q y) eqn:Ey; [|reflexivity].
    exfalso. apply Hz.
    rewrite (H z y (or_introl eq_refl) (or_intror Hy) Ez Ey).
    apply list_elem_of_In, in_map, Hy.
  - apply IH; [exact Hnd|].
    intros x y Hx Hy. apply H; right; assumption.
Qed.

Lemma filter_replace_none {A} (key : A -> nat) (q : A -> bool) (x o : A)
    (rows : list A) :
  List.filter q rows = [o] -> q x = false -> key o = key x ->
  List.filter q (map (fun y => if (key y =? key x)%nat then x else y) rows) = [].
Proof.
  intros Hf Hx Hk. apply filter_empty. intros z Hz.
  apply in_map_iff in Hz. destruct Hz as (y & <- & Hy).
  destruct (key y =? key x)%nat eqn:E; [exact Hx|].
  destruct (q y) eqn:Ey; [|reflexivity]. exfalso.
  assert (Hin : In y (List.filter q rows)) by (apply List.filter_In; auto).
  rewrite Hf in Hin. destruct Hin as [<-|[]].
  apply Nat.eqb_neq in E. contradiction.
Qed.

Lemma filter_singleton_In {A} (q : A -> bool) (rows : list A) (x : A) :
  List.filter q rows = [x] -> In x rows /\ q x = true.
Proof.
  intros H. apply List.filter_In. rewrite H. left. reflexivity.
Qed.

Lemma unused_code_spec (uid : nat) (code : string) (o : PasswordResetOTP) :
  unused_code uid code o = true <->
  otp_user o = uid /\ otp o = code /\ is_used o = false.
Proof.
  unfold unused_code. rewrite !andb_true_iff, Nat.eqb_eq, String.eqb_eq, negb_true_iff.
  tauto.
Qed.

Lemma unused_of_spec (uid : nat) (o : PasswordResetOTP) :
  unused_of uid o = true <-> otp_user o = uid /\ is_used o = false.
Proof.
  unfold unused_of. rewrite andb_true_iff, Nat.eqb_eq, negb_true_iff. tauto.
Qed.

Lemma unused_code_of (uid : nat) (code : string) (o : PasswordResetOTP) :
  unused_code uid code o = true -> unused_of uid o = true.
Proof. rewrite unused_code_spec, unused_of_spec. tauto. Qed.

Lemma unused_of_mark_used (uid : nat) (o : PasswordResetOTP) :
  unused_of uid (mark_used o) = false.
Proof. unfold unused_of. cbn. apply andb_false_r. Qed.

Lemma unused_code_mark_used (uid : nat) (code : string) (o : PasswordResetOTP) :
  unused_code uid code (mark_used o) = false.
Proof. unfold unused_code. cbn. apply andb_false_r. Qed.

(** After the update of [request_password_reset] the account has no code
    in use. *)
Lemma invalidated_none (uid : nat) (rows : list PasswordResetOTP) :
  List.filter (unused_of uid)
    (map (fun o => if unused_of uid o then mark_used o else o) rows) = [].
Proof.
  apply filter_empty. intros z Hz.
  apply in_map_iff in Hz. destruct Hz as (y & <- & _).
  destruct (unused_of uid y) eqn:E; [apply unused_of_mark_used|exact E].
Qed.

Lemma invalidated_other (uid uid' : nat) (rows : list PasswordResetOTP) :
  uid' <> uid ->
  List.filter (unused_of uid')
    (map (fun o => if unused_of uid o then mark_used o else o) rows)
  = List.filter (unused_of uid') rows.
Proof.
  intros Hne. induction rows as [|o rows IH]; [reflexivity|].
  cbn. rewrite IH. destruct (unused_of uid o) eqn:E; [|reflexivity].
  apply unused_of_spec in E. destruct E as (E & _).
  rewrite unused_of_mark_used.
  assert (H : unused_of uid' o = false).
  { unfold unused_of. replace (otp_user o =? uid')%nat with false; [reflexivity|].
    symmetry. apply Nat.eqb_neq. congruence. }
  rewrite H. reflexivity.
Qed.

Lemma invalidated_no_code (uid : nat) (code : string) (rows : list PasswordResetOTP) :
  List.filter (unused_code uid code)
    (map (fun o => if unused_of uid o then mark_used o else o) rows) = [].
Proof.
  apply filter_empty. intros z Hz.
  destruct (unused_code uid code z) eqn:E; [|reflexivity].
  apply unused_code_of in E.
  assert (Hin : In z (List.filter (unused_of uid)
            (map (fun o => if unused_of uid o then mark_used o else o) rows)))
    by (apply List.filter_In; auto).
  rewrite invalidated_none in Hin. destruct Hin.
Qed.

Lemma reset_password_cases (e c p : option string) (s : site) :
  (resp_status (fst (reset_password e c p s)) <> 200
   /\ snd (reset_password e c p s) = s)
  \/ (exists u o t,
        blank e = false /\ blank c = false /\ blank p = false
        /\ (8 <= py_len (text p))%nat
        /\ List.filter (has_email (text e)) (users s) = [u]
        /\ List.filter (unused_code (user_id u) (text c)) (otps s) = [o]
        /\ expires_at o = Some t /\ time_now s < t
        /\ reset_password e c p s =
           (password_reset_done,
            Site (map (fun v => if (user_id v =? user_id u)%nat
                                then set_password u (text p) else v) (users s))
                 (map (fun x => if (otp_id x =? otp_id o)%nat
                                then mark_used o else x) (otps s))
                 (next_otp_id s) (time_now s) (random_tape s)
                 (mail_up s) (outbox s))).
Proof.
  rewrite reset_password_run.
  destruct (blank e) eqn:Be; [left; split; [discriminate|reflexivity]|].
  destruct (blank c) eqn:Bc; [left; split; [discriminate|reflexivity]|].
  destruct (blank p) eqn:Bp; [left; split; [discriminate|reflexivity]|].
  cbn [orb].
  destruct (py_len (text p) <? 8)%nat eqn:Hlen;
    [left; split; [discriminate|reflexivity]|].
  destruct (List.filter (has_email (text e)) (users s)) as [|u [|u' us]] eqn:Hu;
    [left; split; [discriminate|reflexivity]| |left; split; [discriminate|reflexivity]].
  destruct (List.filter (unused_code (user_id u) (text c)) (otps s))
    as [|o [|o' os]] eqn:Ho;
    [left; split; [discriminate|reflexivity]| |left; split; [discriminate|reflexivity]].
  destruct (is_used o) eqn:Hused; [left; split; [discriminate|reflexivity]|].
  destruct (expires_at o) as [t|] eqn:Ht; [|left; split; [discriminate|reflexivity]].
  destruct (time_now s <? t) eqn:Hnow; [|left; split; [discriminate|reflexivity]].
  right. exists u, o, t.
  apply Nat.ltb_ge in Hlen. apply Z.ltb_lt in Hnow.
  destruct (filter_singleton_In _ _ _ Hu) as (Hinu & _).
  destruct (filter_singleton_In _ _ _ Ho) as (Hino & _).
  repeat split; try assumption; try reflexivity.
  rewrite (save_row_present user_id _ u) by (auto || reflexivity).
  rewrite (save_row_present otp_id _ o) by (auto || reflexivity).
  reflexivity.
Qed.

(** The lookups of [reset_password] after [request_password_reset] served
    the account [u]. *)
Lemma issued_lookup (uid : nat) (code c : string) (t : Z) (n : nat)
    (rows : list PasswordResetOTP) :
  List.filter (unused_code uid c)
    (map (fun o => if unused_of uid o then mark_used o else o) rows
     ++ [{| otp_id := n; otp_user := uid; otp := code; created_at := t;
            expires_at := Some (t + 300); is_used := false |}])
  = if String.eqb code c
    then [{| otp_id := n; otp_user := uid; otp := code; created_at := t;
             expires_at := Some (t + 300); is_used := false |}]
    else [].
Proof.
  rewrite List.filter_app, invalidated_no_code. cbn.
  unfold unused_code. cbn. rewrite Nat.eqb_refl. cbn.
  destruct (String.eqb code c); reflexivity.
Qed.

Lemma code_not_blank (code : string) :
  String.length code = 6%nat -> blank (Some code) = false.
Proof. destruct code; [discriminate|reflexivity]. Qed.

Lemma long_not_blank (p : string) :
  (8 <= py_len p)%nat -> blank (Some p) = false.
Proof. destruct p; cbn; [lia|reflexivity]. Qed.


(** X15. A code requested for an account resets its password: when exactly
    one account has the address, [request_password_reset] stores a code of six
    digits (and mails it when the mail server is up); in any later state with
    the same tables and a clock less than five minutes after the request,
    [reset_password] with that code and a password of eight characters or
    more answers 200, the account has the new password, the other accounts
    are untouched and the account has no code in use left. *)
Theorem reset_password_round_trip (s : site) (e p : string) (u : User)
    (code : string) (sg : site) :
  db_ok s ->
  e <> ""%string ->
  List.filter (has_email e) (users s) = [u] ->
  generate_otp s = (Val code, sg) ->
  (8 <= py_len p)%nat ->
  let s1 := snd (request_password_reset (Some e) s) in
  String.length code = 6%nat
  /\ all_digits code = true
  /\ resp_status (fst (request_password_reset (Some e) s))
     = (if mail_up s then 200 else 500)
  /\ outbox s1
     = (if mail_up s
        then outbox s ++ [{| mail_to := e; mail_username := username u;
                             mail_otp := code |}]
        else outbox s)
  /\ forall s2,
       same_tables s1 s2 ->
       time_now s2 < time_now s + 300 ->
       exists s3,
         reset_password (Some e) (Some code) (Some p) s2 = (password_reset_done, s3)
         /\ users s3 = map (fun v => if (user_id v =? user_id u)%nat
                                     then set_password u p else v) (users s)
         /\ List.filter (unused_of (user_id u)) (otps s3) = [].
Proof.
  intros Hdb He Hu Hg Hp s1.
  destruct (generate_otp_code _ _ _ Hg) as (Hlen & Hdig & _).
  assert (Hreq := request_password_reset_issues s e u code sg Hdb He Hu Hg).
  subst s1. rewrite Hreq. cbn [fst snd].
  split; [exact Hlen|]. split; [exact Hdig|].
  split; [destruct (mail_up s); reflexivity|].
  split; [reflexivity|].
  intros s2 (Husers & Hotps & _) Hnow. cbn [users otps] in Husers, Hotps.
  destruct (reset_password_cases (Some e) (Some code) (Some p) s2)
    as [(Hno & _)|(u' & o & t & _ & _ & _ & _ & Hu' & Ho & Ht & _ & Hrun)].
  - exfalso. apply Hno. rewrite reset_password_run.
    rewrite (blank_Some _ He), (code_not_blank _ Hlen), (long_not_blank _ Hp).
    cbn [orb text]. replace (py_len p <? 8)%nat with false
      by (symmetry; apply Nat.ltb_ge; exact Hp).
    rewrite <- Husers, Hu, <- Hotps, issued_lookup, String.eqb_refl.
    cbn [is_used expires_at].
    replace (time_now s2 <? time_now s + 300) with true
      by (symmetry; apply Z.ltb_lt; exact Hnow).
    reflexivity.
  - cbn [text] in Hu', Ho, Hrun. rewrite <- Husers, Hu in Hu'.
    injection Hu' as <-.
    rewrite <- Hotps, issued_lookup, String.eqb_refl in Ho. injection Ho as <-.
    eexists. split; [exact Hrun|]. cbn [users otps].
    split; [rewrite <- Husers; reflexivity|].
    rewrite <- Hotps. apply filter_empty. intros z Hz.
    apply in_map_iff in Hz. destruct Hz as (y & <- & Hy).
    destruct (otp_id y =? _)%nat eqn:E; [apply unused_of_mark_used|].
    apply in_app_iff in Hy. destruct Hy as [Hy|[<-|[]]].
    + destruct (unused_of (user_id u) y) eqn:Ey; [|reflexivity]. exfalso.
      assert (Hin : In y (List.filter (unused_of (user_id u))
                (map (fun o => if unused_of (user_id u) o then mark_used o else o)
                     (otps s))))
        by (apply List.filter_In; auto).
      rewrite invalidated_none in Hin. destruct Hin.
    + cbn [otp_id] in E. rewrite Nat.eqb_refl in E. discriminate.
Qed.

Lemma reset_password_round_trip_witness :
  exists s3,
    reset_password (Some "ada@plant.example"%string) (Some "470935"%string)
      (Some "new secret"%string)
      (Site [ada; bob]
         [{| otp_id := 1%nat; otp_user := 1%nat; otp := "470935"%string;
             created_at := 1000; expires_at := Some 1300; is_used := false |}]
         2%nat 1299 [] false [])
    = (password_reset_done, s3)
    /\ users s3 = [set_password ada "new secret"%string; bob].
Proof.
  destruct (reset_password_round_trip small_site "ada@plant.example"%string
              "new secret"%string ada "470935"%string
              (Site [ada; bob] [] 1%nat 1000 [] true []))
    as (_ & _ & _ & _ & H).
  - unfold db_ok, small_site. cbn.
    repeat split; [| apply NoDup_nil_2 | constructor | constructor].
    apply NoDup_cons. split; [|apply NoDup_singleton].
    intros Hin. apply list_elem_of_In in Hin. destruct Hin as [Hin|[]]. discriminate.
  - discriminate.
  - reflexivity.
  - vm_compute. reflexivity.
  - vm_compute. lia.
  - destruct (H (Site [ada; bob]
         [{| otp_id := 1%nat; otp_user := 1%nat; otp := "470935"%string;
             created_at := 1000; expires_at := Some 1300; is_used := false |}]
         2%nat 1299 [] false [])) as (s3 & Hrun & Hus & _).
    + vm_compute. repeat split.
    + vm_compute. reflexivity.
    + exists s3. split; [exact Hrun|]. rewrite Hus. reflexivity.
Defined.

(** X16. A code is good for five minutes: from five minutes after the
    request on, in any state with the tables the request left, both
    [verify_otp] and [reset_password] answer 400 with "OTP has expired" for
    the code that was issued, and change nothing. *)
Theorem reset_password_code_expires (s : site) (e p : string) (u : User)
    (code : string) (sg : site) :
  db_ok s ->
  e <> ""%string ->
  List.filter (has_email e) (users s) = [u] ->
  generate_otp s = (Val code, sg) ->
  (8 <= py_len p)%nat ->
  forall s2,
    same_tables (snd (request_password_reset (Some e) s)) s2 ->
    time_now s + 300 <= time_now s2 ->
    verify_otp (Some e) (Some code) s2 = (otp_expired, s2)
    /\ reset_password (Some e) (Some code) (Some p) s2 = (otp_expired, s2).
Proof.
  intros Hdb He Hu Hg Hp s2.
  destruct (generate_otp_code _ _ _ Hg) as (Hlen & _ & _).
  rewrite (request_password_reset_issues s e u code sg Hdb He Hu Hg). cbn [snd].
  intros (Husers & Hotps & _) Hnow. cbn [users otps] in Husers, Hotps.
  assert (Hlate : (time_now s2 <? time_now s + 300) = false)
    by (apply Z.ltb_ge; exact Hnow).
  rewrite verify_otp_run, reset_password_run.
  rewrite (blank_Some _ He), (code_not_blank _ Hlen), (long_not_blank _ Hp).
  cbn [orb text]. replace (py_len p <? 8)%nat with false
    by (symmetry; apply Nat.ltb_ge; exact Hp).
  rewrite <- Husers, Hu, <- Hotps, issued_lookup, String.eqb_refl.
  cbn [is_used expires_at]. rewrite Hlate. split; reflexivity.
Qed.

Lemma reset_password_code_expires_witness :
  reset_password (Some "ada@plant.example"%string) (Some "470935"%string)
    (Some "new secret"%string)
    (Site [ada; bob]
       [{| otp_id := 1%nat; otp_user := 1%nat; otp := "470935"%string;
           created_at := 1000; expires_at := Some 1300; is_used := false |}]
       2%nat 1300 [] true [])
  = (otp_expired,
     Site [ada; bob]
       [{| otp_id := 1%nat; otp_user := 1%nat; otp := "470935"%string;
           created_at := 1000; expires_at := Some 1300; is_used := false |}]
       2%nat 1300 [] true []).
Proof.
  apply (reset_password_code_expires small_site "ada@plant.example"%string
           "new secret"%string ada "470935"%string
           (Site [ada; bob] [] 1%nat 1000 [] true [])).
  - unfold db_ok, small_site. cbn.
    repeat split; [| apply NoDup_nil_2 | constructor | constructor].
    apply NoDup_cons. split; [|apply NoDup_singleton].
    intros Hin. apply list_elem_of_In in Hin. destruct Hin as [Hin|[]]. discriminate.
  - discriminate.
  - reflexivity.
  - vm_compute. reflexivity.
  - vm_compute. lia.
  - vm_compute. repeat split.
  - vm_compute. discriminate.
Defined.

(** X20. A new request revokes every earlier code of the account: after
    [request_password_reset] served an account, [reset_password] for that
    account with any code other than the one just issued answers 400 and
    changes nothing, with "Invalid OTP" when the request is otherwise
    well-formed, even for a code issued less than five minutes ago. *)
Theorem request_password_reset_revokes (s : site) (e : string) (u : User)
    (code : string) (sg : site) :
  db_ok s ->
  e <> ""%string ->
  List.filter (has_email e) (users s) = [u] ->
  generate_otp s = (Val code, sg) ->
  forall s2 c p,
    same_tables (snd (request_password_reset (Some e) s)) s2 ->
    c <> Some code ->
    snd (reset_password (Some e) c p s2) = s2
    /\ resp_status (fst (reset_password (Some e) c p s2)) = 400
    /\ (blank c = false -> (8 <= py_len (text p))%nat ->
        fst (reset_password (Some e) c p s2) = invalid_otp).
Proof.
  intros Hdb He Hu Hg s2 c p.
  rewrite (request_password_reset_issues s e u code sg Hdb He Hu Hg). cbn [snd].
  intros (Husers & Hotps & _) Hc. cbn [users otps] in Husers, Hotps.
  rewrite reset_password_run. rewrite (blank_Some _ He). cbn [orb text].
  destruct (blank c) eqn:Bc; [repeat split; discriminate|].
  destruct (blank p) eqn:Bp.
  { repeat split. intros _ Hlen. destruct p as [[|]|]; cbn in Hlen, Bp; try lia; discriminate. }
  cbn [orb].
  destruct (py_len (text p) <? 8)%nat eqn:Hlen.
  { repeat split. intros _ H. apply Nat.ltb_lt in Hlen. lia. }
  rewrite <- Husers, Hu, <- Hotps, issued_lookup.
  replace (String.eqb code (text c)) with false; [repeat split|].
  symmetry. apply String.eqb_neq. intros ->. apply Hc.
  destruct c; [reflexivity|discriminate].
Qed.

Lemma request_password_reset_revokes_witness :
  fst (reset_password (Some "ada@plant.example"%string) (Some "111111"%string)
         (Some "new secret"%string)
         (snd (request_password_reset (Some "ada@plant.example"%string)
            (Site [ada; bob]
               [{| otp_id := 0%nat; otp_user := 1%nat; otp := "111111"%string;
                   created_at := 990; expires_at := Some 1290; is_used := false |}]
               1%nat 1000 [4; 17; 0; 9; 23; 5]%nat true []))))
  = invalid_otp.
Proof.
  eapply (request_password_reset_revokes
            (Site [ada; bob]
               [{| otp_id := 0%nat; otp_user := 1%nat; otp := "111111"%string;
                   created_at := 990; expires_at := Some 1290; is_used := false |}]
               1%nat 1000 [4; 17; 0; 9; 23; 5]%nat true [])
            "ada@plant.example"%string ada "470935"%string).
  - unfold db_ok. cbn.
    repeat split;
      [| apply NoDup_singleton | repeat constructor | repeat constructor; discriminate].
    apply NoDup_cons. split; [|apply NoDup_singleton].
    intros Hin. apply list_elem_of_In in Hin. destruct Hin as [Hin|[]]. discriminate.
  - discriminate.
  - reflexivity.
  - vm_compute. reflexivity.
  - repeat split.
  - discriminate.
  - reflexivity.
  - vm_compute. lia.
Defined.

(** X17. A code works once: after [reset_password] answered 200, the same
    address and code are refused in any later state with the same tables,
    whatever the clock and the password offered: [verify_otp] answers
    "Invalid OTP", [reset_password] answers 400 ("Invalid OTP" when the
    password is long enough), and neither changes anything. *)
Theorem reset_password_single_use (s : site) (e c p : option string)
    (r : AuthResponse) (s1 : site) :
  db_ok s ->
  reset_password e c p s = (r, s1) ->
  resp_status r = 200 ->
  forall s2 p',
    same_tables s1 s2 ->
    verify_otp e c s2 = (invalid_otp, s2)
    /\ snd (reset_password e c p' s2) = s2
    /\ resp_status (fst (reset_password e c p' s2)) = 400
    /\ ((8 <= py_len (text p'))%nat ->
        fst (reset_password e c p' s2) = invalid_otp).
Proof.
  intros (Hnd & _) Hrun H200 s2 p' Hsame.
  destruct (reset_password_cases e c p s)
    as [(Hno & _)|(u & o & t & Be & Bc & _ & _ & Hu & Ho & _ & _ & Heq)].
  { rewrite Hrun in Hno. contradiction. }
  rewrite Heq in Hrun. injection Hrun as <- <-.
  destruct Hsame as (Husers & Hotps & _). cbn [users otps] in Husers, Hotps.
  destruct (filter_singleton_In _ _ _ Hu) as (Hinu & Hmail).
  assert (Hu2 : List.filter (has_email (text e)) (users s2)
                = [set_password u (text p)]).
  { rewrite <- Husers, filter_map_commute, Hu.
    - cbn. rewrite Nat.eqb_refl. reflexivity.
    - intros y Hy. destruct (user_id y =? user_id u)%nat eqn:E; [|reflexivity].
      apply Nat.eqb_eq in E.
      rewrite (NoDup_key_inj user_id (users s) y u Hnd Hy Hinu E). reflexivity. }
  assert (Ho2 : List.filter (unused_code (user_id u) (text c)) (otps s2) = []).
  { rewrite <- Hotps.
    apply (filter_replace_none otp_id _ (mark_used o) o);
      [exact Ho|apply unused_code_mark_used|reflexivity]. }
  rewrite verify_otp_run, reset_password_run, Be, Bc, Hu2. cbn [orb].
  change (user_id (set_password u (text p))) with (user_id u). rewrite Ho2.
  split; [reflexivity|].
  destruct (blank p') eqn:Bp.
  { repeat split. intros Hlen. destruct p' as [[|]|]; cbn in Hlen, Bp; try lia; discriminate. }
  destruct (py_len (text p') <? 8)%nat eqn:Hlen.
  { repeat split. intros H. apply Nat.ltb_lt in Hlen. lia. }
  repeat split.
Qed.

Lemma reset_password_single_use_witness :
  verify_otp (Some "ada@plant.example"%string) (Some "470935"%string)
    (Site [set_password ada "new secret"%string; bob]
       [{| otp_id := 1%nat; otp_user := 1%nat; otp := "470935"%string;
           created_at := 1000; expires_at := Some 1300; is_used := true |}]
       2%nat 1100 [] true [])
  = (invalid_otp,
     Site [set_password ada "new secret"%string; bob]
       [{| otp_id := 1%nat; otp_user := 1%nat; otp := "470935"%string;
           created_at := 1000; expires_at := Some 1300; is_used := true |}]
       2%nat 1100 [] true []).
Proof.
  refine (proj1 (reset_password_single_use
            (Site [ada; bob]
               [{| otp_id := 1%nat; otp_user := 1%nat; otp := "470935"%string;
                   created_at := 1000; expires_at := Some 1300; is_used := false |}]
               2%nat 1100 [] true [])
            (Some "ada@plant.example"%string) (Some "470935"%string)
            (Some "new secret"%string) password_reset_done
            (Site [set_password ada "new secret"%string; bob]
               [{| otp_id := 1%nat; otp_user := 1%nat; otp := "470935"%string;
                   created_at := 1000; expires_at := Some 1300; is_used := true |}]
               2%nat 1100 [] true [])
            _ _ _ _ None _)).
  - unfold db_ok. cbn.
    repeat split;
      [| apply NoDup_singleton | repeat constructor | repeat constructor; discriminate].
    apply NoDup_cons. split; [|apply NoDup_singleton].
    intros Hin. apply list_elem_of_In in Hin. destruct Hin as [Hin|[]]. discriminate.
  - vm_compute. reflexivity.
  - reflexivity.
  - repeat split.
Defined.



(** X19. [verify_otp] is a dry run of [reset_password]: it never changes the
    site, and it answers with the status [reset_password] would give for the
    same address and code with a password of eight characters or more. *)
Theorem verify_otp_agrees_with_reset (s : site) (e c : option string) (p : string) :
  (8 <= py_len p)%nat ->
  snd (verify_otp e c s) = s
  /\ resp_status (fst (verify_otp e c s))
     = resp_status (fst (reset_password e c (Some p) s)).
Proof.
  intros Hp. rewrite verify_otp_run, reset_password_run.
  rewrite (long_not_blank _ Hp), orb_false_r. cbn [text].
  replace (py_len p <? 8)%nat with false
    by (symmetry; apply Nat.ltb_ge; exact Hp).
  destruct (blank e || blank c); [split; reflexivity|].
  destruct (List.filter (has_email (text e)) (users s)) as [|u [|u' us]];
    [split; reflexivity| |split; reflexivity].
  destruct (List.filter (unused_code (user_id u) (text c)) (otps s))
    as [|o [|o' os]];
    [split; reflexivity| |split; reflexivity].
  destruct (is_used o); [split; reflexivity|].
  destruct (expires_at o) as [t|]; [|split; reflexivity].
  destruct (time_now s <? t); split; reflexivity.
Qed.

Lemma verify_otp_agrees_with_reset_witness :
  snd (verify_otp (Some "ada@plant.example"%string) (Some "470935"%string) small_site)
  = small_site
  /\ resp_status
       (fst (verify_otp (Some "ada@plant.example"%string) (Some "470935"%string)
               small_site))
     = resp_status
         (fst (reset_password (Some "ada@plant.example"%string)
                 (Some "470935"%string) (Some "new secret"%string) small_site)).
Proof.
  apply (verify_otp_agrees_with_reset small_site). vm_compute. lia.
Defined.

(** ** What every history of the site keeps *)

Lemma request_password_reset_cases (e : option string) (s : site) :
  db_ok s ->
  (request_password_reset e s
   = (Resp 400 [("error", "Email is required")]%string, s))
  \/ (List.filter (has_email (text e)) (users s) = []
      /\ resp_status (fst (request_password_reset e s)) = 200
      /\ snd (request_password_reset e s) = s)
  \/ (blank e = false
      /\ (2 <= length (List.filter (has_email (text e)) (users s)))%nat
      /\ request_password_reset e s = (server_error, s))
  \/ (exists u code sg,
        text e <> ""%string
        /\ List.filter (has_email (text e)) (users s) = [u]
        /\ generate_otp s = (Val code, sg)
        /\ resp_status (fst (request_password_reset e s))
           = (if mail_up s then 200 else 500)
        /\ snd (request_password_reset e s)
           = Site (users s)
               (map (fun o => if unused_of (user_id u) o then mark_used o else o)
                    (otps s)
                ++ [{| otp_id := next_otp_id s; otp_user := user_id u; otp := code;
                       created_at := time_now s;
                       expires_at := Some (time_now s + 300);
                       is_used := false |}])
               (S (next_otp_id s)) (time_now s) (random_tape sg) (mail_up s)
               (if mail_up s then
                  outbox s ++ [{| mail_to := text e; mail_username := username u;
                                  mail_otp := code |}]
                else outbox s)).
Proof.
  intros Hdb.
  destruct (blank e) eqn:Be.
  { left. unfold request_password_reset, respond. rewrite Be. reflexivity. }
  right.
  destruct e as [t|]; [|discriminate]. cbn [text].
  assert (He : t <> ""%string) by (apply String.eqb_neq, Be).
  destruct (List.filter (has_email t) (users s)) as [|u [|u' us]] eqn:Hu.
  - left. unfold request_password_reset, respond, try_assign, User_objects_get.
    cbn [text]. rewrite Be, Hu. repeat split.
  - right. right.
    destruct (generate_otp_run (random_tape s)) as (code & tape' & _ & _ & Hrun).
    specialize (Hrun s eq_refl).
    exists u, code. eexists. split; [exact He|]. split; [reflexivity|].
    split; [exact Hrun|].
    rewrite (request_password_reset_issues s t u code _ Hdb He Hu Hrun).
    cbn [fst snd]. split; [destruct (mail_up s); reflexivity|reflexivity].
  - right. left. split; [reflexivity|]. split; [cbn; lia|].
    unfold request_password_reset, respond, try_assign, User_objects_get.
    cbn [text]. rewrite Be, Hu. reflexivity.
Qed.

Lemma update_profile_run (user : User) (e : option string) (s : site) :
  update_profile user e s =
  if blank e then (Resp 400 [("error", "Email is required")]%string, s)
  else if existsb (fun u => has_email (text e) u
                            && negb (user_id u =? user_id user)%nat) (users s)
  then (Resp 400 [("error", "Email is already in use by another account")]%string, s)
  else (Resp 200 [("message", "Profile updated successfully");
                  ("email", text e)]%string,
        set_users (save_row user_id (set_email user (text e)) (users s)) s).
Proof.
  unfold update_profile, respond. destruct (blank e); [reflexivity|].
  unfold abind, email_of_another.
  destruct (existsb _ (users s)); reflexivity.
Qed.

Lemma emails_unique_replace (s s' : site) (u x : User) :
  emails_unique s ->
  In u (users s) ->
  user_id x = user_id u ->
  (email x = email u
   \/ forall v, In v (users s) -> email v = email x -> user_id v = user_id u) ->
  users s' = map (fun y => if (user_id y =? user_id x)%nat then x else y) (users s) ->
  emails_unique s'.
Proof.
  intros Huniq Hu Hid Hmail Hs' a b Ha Hb Hab Hne.
  rewrite Hs' in Ha, Hb.
  apply in_map_iff in Ha, Hb.
  destruct Ha as (ya & <- & Hya), Hb as (yb & <- & Hyb).
  assert (Hone : forall y, In y (users s) -> email y = email x -> email x <> ""%string ->
                           user_id y = user_id x).
  { intros y Hy Hyx Hx. rewrite Hid. destruct Hmail as [Hm|Hm].
    - apply Huniq; [exact Hy|exact Hu|congruence|congruence].
    - apply Hm; assumption. }
  destruct (user_id ya =? user_id x)%nat eqn:Ea, (user_id yb =? user_id x)%nat eqn:Eb.
  - reflexivity.
  - symmetry. apply Hone; [exact Hyb|congruence|exact Hne].
  - apply Hone; [exact Hya|congruence|congruence].
  - apply Huniq; assumption.
Qed.

Lemma db_ok_replace (s s' : site) (u : User) (o x : PasswordResetOTP) (ux : User) :
  db_ok s ->
  user_id ux = user_id u ->
  In o (otps s) -> otp_id x = otp_id o -> expires_at x <> None ->
  users s' = map (fun y => if (user_id y =? user_id ux)%nat then ux else y) (users s) ->
  otps s' = map (fun y => if (otp_id y =? otp_id x)%nat then x else y) (otps s) ->
  next_otp_id s' = next_otp_id s ->
  db_ok s'.
Proof.
  intros (Hu & Ho & Hfresh & Hexp) Hid Hin Hoid Hx Hus Hos Hnext.
  unfold db_ok. rewrite Hus, Hos, Hnext, !map_key_replace.
  split; [exact Hu|]. split; [exact Ho|].
  rewrite List.Forall_forall in Hfresh, Hexp.
  split; apply List.Forall_forall; intros z Hz; apply in_map_iff in Hz;
    destruct Hz as (y & <- & Hy); destruct (otp_id y =? otp_id x)%nat; auto.
  rewrite Hoid. apply Hfresh, Hin.
Qed.

Lemma site_ok_reset_password (e c p : option string) (s : site) :
  site_ok s -> site_ok (snd (reset_password e c p s)).
Proof.
  intros Hok. pose proof Hok as (Hdb & Huniq & Hlive).
  destruct (reset_password_cases e c p s)
    as [(_ & ->)|(u & o & t & _ & _ & _ & _ & Hu & Ho & Ht & _ & ->)];
    [exact Hok|].
  cbn [snd].
  destruct (filter_singleton_In _ _ _ Hu) as (Hinu & _).
  destruct (filter_singleton_In _ _ _ Ho) as (Hino & _).
  split; [|split].
  - apply (db_ok_replace s _ u o (mark_used o) (set_password u (text p)));
      try reflexivity; try assumption.
    cbn. rewrite Ht. discriminate.
  - apply (emails_unique_replace s _ u (set_password u (text p)));
      try reflexivity; try assumption. left. reflexivity.
  - intros uid. cbn [otps].
    etransitivity; [apply filter_map_shrink|apply Hlive].
    intros y _. destruct (otp_id y =? otp_id o)%nat; [|auto].
    rewrite unused_of_mark_used. discriminate.
Qed.

Lemma site_ok_verify_otp (e c : option string) (s : site) :
  site_ok s -> site_ok (snd (verify_otp e c s)).
Proof.
  intros H. rewrite verify_otp_run.
  destruct (blank e || blank c); [exact H|].
  destruct (List.filter _ (users s)) as [|u [|u' us]]; try exact H.
  destruct (List.filter _ (otps s)) as [|o [|o' os]]; try exact H.
  destruct (is_used o); [exact H|].
  destruct (expires_at o) as [t|]; [|exact H].
  destruct (time_now s <? t); exact H.
Qed.

Lemma site_ok_request_password_reset (e : option string) (s : site) :
  site_ok s -> site_ok (snd (request_password_reset e s)).
Proof.
  intros Hok. pose proof Hok as (Hdb & Huniq & Hlive).
  destruct (request_password_reset_cases e s Hdb)
    as [->|[(_ & _ & ->)|[(_ & _ & ->)|(u & code & sg & _ & _ & _ & _ & ->)]]];
    try exact Hok.
  destruct Hdb as (Hu & Ho & Hfresh & Hexp).
  split; [|split].
  - unfold db_ok. cbn [users otps next_otp_id].
    split; [exact Hu|].
    assert (Hkeys : map otp_id
              (map (fun o => if unused_of (user_id u) o then mark_used o else o)
                   (otps s)) = map otp_id (otps s)).
    { rewrite map_map. apply map_ext. intros o.
      destruct (unused_of (user_id u) o); reflexivity. }
    split; [|split].
    + rewrite map_app, Hkeys. cbn [map otp_id].
      apply NoDup_app. split; [exact Ho|]. split; [|apply NoDup_singleton].
      intros n Hn Hn'. apply list_elem_of_In in Hn, Hn'.
      destruct Hn' as [<-|[]].
      apply in_map_iff in Hn. destruct Hn as (o & Hid & Hin).
      rewrite List.Forall_forall in Hfresh. specialize (Hfresh o Hin). lia.
    + apply Forall_app. split.
      * apply Forall_map_mark; [intros o Hlt; exact Hlt|].
        eapply Forall_impl; [exact Hfresh|]. intros o Hlt. cbn in *. lia.
      * repeat constructor.
    + apply Forall_app. split.
      * apply Forall_map_mark; [intros o Hne; exact Hne|exact Hexp].
      * repeat constructor. discriminate.
  - intros a b. cbn [users]. apply Huniq.
  - intros uid. cbn [otps]. rewrite List.filter_app, length_app.
    destruct (Nat.eq_dec uid (user_id u)) as [->|Hne].
    + rewrite invalidated_none. cbn.
      destruct (unused_of _ _); cbn; lia.
    + rewrite invalidated_other by exact Hne.
      assert (Hnew : unused_of uid
                {| otp_id := next_otp_id s; otp_user := user_id u; otp := code;
                   created_at := time_now s; expires_at := Some (time_now s + 300);
                   is_used := false |} = false).
      { unfold unused_of. cbn.
        replace (user_id u =? uid)%nat with false; [reflexivity|].
        symmetry. apply Nat.eqb_neq. congruence. }
      cbn [List.filter]. rewrite Hnew. cbn. specialize (Hlive uid). lia.
Qed.

Lemma site_ok_update_profile (user : User) (e : option string) (s : site) :
  In user (users s) ->
  site_ok s -> site_ok (snd (update_profile user e s)).
Proof.
  intros Hin Hok. pose proof Hok as (Hdb & Huniq & Hlive).
  rewrite update_profile_run.
  destruct (blank e); [exact Hok|].
  destruct (existsb _ (users s)) eqn:Htaken; [exact Hok|].
  cbn [snd].
  rewrite (save_row_present user_id _ user) by (auto || reflexivity).
  split; [|split].
  - destruct Hdb as (Hu & Hrest). split; [|exact Hrest].
    cbn [users set_users]. rewrite map_key_replace. exact Hu.
  - apply (emails_unique_replace s _ user (set_email user (text e)));
      try reflexivity; try assumption.
    right. intros v Hv Hmail. cbn [email set_email] in Hmail.
    destruct (user_id v =? user_id user)%nat eqn:E; [apply Nat.eqb_eq, E|].
    exfalso.
    assert (Hex : existsb (fun u => has_email (text e) u
                                    && negb (user_id u =? user_id user)%nat)
                    (users s) = true).
    { apply existsb_exists. exists v. split; [exact Hv|].
      unfold has_email. rewrite Hmail, String.eqb_refl, E. reflexivity. }
    rewrite Hex in Htaken. discriminate.
  - exact Hlive.
Qed.

Lemma site_ok_auth_step (s : site) (ev : auth_event) :
  site_ok s -> site_ok (auth_step s ev).
Proof.
  intros H. destruct ev as [e|e c|e c p|caller e|t up tape]; cbn [auth_step].
  - apply site_ok_request_password_reset, H.
  - apply site_ok_verify_otp, H.
  - apply site_ok_reset_password, H.
  - destruct (find _ (users s)) as [user|] eqn:Hf; [|exact H].
    apply find_some in Hf. apply site_ok_update_profile; [apply Hf|exact H].
  - exact H.
Qed.

(** X21. Whatever requests reach the four views and whatever happens to the
    clock, the mail server and the generator in between, a well-formed site
    stays well-formed: keys stay unique, no two accounts come to share a
    non-empty address, and no account ever has two codes in use at once. *)
Theorem auth_run_keeps_site_ok (evs : list auth_event) (s : site) :
  site_ok s -> site_ok (auth_run evs s).
Proof.
  unfold auth_run. revert s.
  induction evs as [|ev evs IH]; intros s H; [exact H|].
  cbn [fold_left]. apply IH, site_ok_auth_step, H.
Qed.

Lemma small_site_ok : site_ok small_site.
Proof.
  split; [|split].
  - unfold db_ok, small_site. cbn.
    repeat split; [| apply NoDup_nil_2 | constructor | constructor].
    apply NoDup_cons. split; [|apply NoDup_singleton].
    intros Hin. apply list_elem_of_In in Hin. destruct Hin as [Hin|[]]. discriminate.
  - intros u v [<-|[<-|[]]] [<-|[<-|[]]] Hmail _; try reflexivity; discriminate.
  - intros uid. cbn. lia.
Defined.

Lemma auth_run_keeps_site_ok_witness :
  site_ok
    (auth_run
       [Call_request_password_reset (Some "ada@plant.example"%string);
        Outside 1100 false [];
        Call_reset_password (Some "ada@plant.example"%string) (Some "470935"%string)
          (Some "new secret"%string);
        Call_update_profile 2%nat (Some "bob@works.example"%string);
        Call_request_password_reset (Some "bob@works.example"%string)]
       small_site).
Proof.
  apply auth_run_keeps_site_ok. exact small_site_ok.
Defined.

Lemma lookup_at_most_one (s : site) (e : string) :
  site_ok s -> e <> ""%string ->
  (length (List.filter (has_email e) (users s)) <= 1)%nat.
Proof.
  intros ((Hnd & _) & Huniq & _) He.
  apply (filter_key_unique user_id); [exact Hnd|].
  intros x y Hx Hy Ex Ey. apply String.eqb_eq in Ex, Ey.
  apply Huniq; [exact Hx|exact Hy|congruence|congruence].
Qed.

Lemma code_at_most_one (s : site) (uid : nat) (code : string) :
  site_ok s ->
  (length (List.filter (unused_code uid code) (otps s)) <= 1)%nat.
Proof.
  intros (_ & _ & Hlive).
  etransitivity; [apply (filter_length_mono _ (unused_of uid))|apply Hlive].
  intros y _. apply unused_code_of.
Qed.

Lemma blank_false_text (e : option string) :
  blank e = false -> text e <> ""%string.
Proof.
  destruct e as [t|]; [|discriminate]. cbn. apply String.eqb_neq.
Qed.

(** X22. On a well-formed site, for a request whose fields are absent,
    null or strings, the password-reset views and [update_profile] have no
    internal failure: [verify_otp], [reset_password] and [update_profile]
    do not answer 500, and [request_password_reset] answers 500 only when
    the mail could not be sent. *)
Theorem password_reset_no_server_error (s : site)
    (email otp new_password : option json) (e c p : option string) (user : User) :
  site_ok s ->
  as_text email = Some e -> as_text otp = Some c -> as_text new_password = Some p ->
  resp_status (fst (verify_otp e c s)) <> 500
  /\ resp_status (fst (reset_password e c p s)) <> 500
  /\ resp_status (fst (update_profile user e s)) <> 500
  /\ (resp_status (fst (request_password_reset e s)) = 500 -> mail_up s = false).
Proof.
  intros Hok _ _ _.
  assert (Hlookup : forall c',
    blank e = false ->
    match List.filter (has_email (text e)) (users s) with
    | [] => True
    | [u] =>
        match List.filter (unused_code (user_id u) c') (otps s) with
        | [] => True
        | [o] => expires_at o <> None
        | _ :: _ :: _ => False
        end
    | _ :: _ :: _ => False
    end).
  { intros c' Be.
    assert (H1 := lookup_at_most_one s (text e) Hok (blank_false_text _ Be)).
    destruct (List.filter (has_email (text e)) (users s)) as [|u [|u' us]];
      [exact I| |cbn in H1; lia].
    assert (H2 := code_at_most_one s (user_id u) c' Hok).
    destruct (List.filter (unused_code (user_id u) c') (otps s))
      as [|o [|o' os]] eqn:Ho; [exact I| |cbn in H2; lia].
    destruct (filter_singleton_In _ _ _ Ho) as (Hin & _).
    destruct Hok as ((_ & _ & _ & Hexp) & _).
    rewrite List.Forall_forall in Hexp. apply Hexp, Hin. }
  split; [|split; [|split]].
  - rewrite verify_otp_run.
    destruct (blank e) eqn:Be; [discriminate|].
    destruct (blank c); [discriminate|]. cbn [orb].
    specialize (Hlookup (text c) eq_refl).
    destruct (List.filter (has_email (text e)) (users s)) as [|u [|u' us]];
      [discriminate| |contradiction].
    destruct (List.filter (unused_code (user_id u) (text c)) (otps s))
      as [|o [|o' os]]; [discriminate| |contradiction].
    destruct (is_used o); [discriminate|].
    destruct (expires_at o) as [t|]; [|contradiction].
    destruct (time_now s <? t); discriminate.
  - rewrite reset_password_run.
    destruct (blank e) eqn:Be; [discriminate|].
    destruct (blank c); [discriminate|].
    destruct (blank p); [discriminate|]. cbn [orb].
    destruct (py_len (text p) <? 8)%nat; [discriminate|].
    specialize (Hlookup (text c) eq_refl).
    destruct (List.filter (has_email (text e)) (users s)) as [|u [|u' us]];
      [discriminate| |contradiction].
    destruct (List.filter (unused_code (user_id u) (text c)) (otps s))
      as [|o [|o' os]]; [discriminate| |contradiction].
    destruct (is_used o); [discriminate|].
    destruct (expires_at o) as [t|]; [|contradiction].
    destruct (time_now s <? t); discriminate.
  - rewrite update_profile_run.
    destruct (blank e); [discriminate|].
    destruct (existsb _ (users s)); discriminate.
  - pose proof Hok as (Hdb & _).
    destruct (request_password_reset_cases e s Hdb)
      as [->|[(_ & -> & _)|[(Be & Hmany & _)|(u & code & sg & _ & _ & _ & -> & _)]]];
      try discriminate.
    + assert (H1 := lookup_at_most_one s (text e) Hok (blank_false_text _ Be)). lia.
    + destruct (mail_up s); [discriminate|reflexivity].
Qed.

Lemma password_reset_no_server_error_witness :
  resp_status
    (fst (reset_password (Some "ada@plant.example"%string) (Some "000000"%string)
            (Some "new secret"%string) small_site)) <> 500.
Proof.
  apply (password_reset_no_server_error small_site
           (Some (JString "ada@plant.example")) (Some (JString "000000"))
           (Some (JString "new secret"))
           (Some "ada@plant.example"%string) (Some "000000"%string)
           (Some "new secret"%string) ada small_site_ok); reflexivity.
Defined.

Lemma filter_the_one {A} (q : A -> bool) (rows : list A) (x : A) :
  In x rows -> q x = true -> (length (List.filter q rows) <= 1)%nat ->
  List.filter q rows = [x].
Proof.
  intros Hin Hq Hlen.
  assert (Hx : In x (List.filter q rows)) by (apply List.filter_In; auto).
  destruct (List.filter q rows) as [|y [|z zs]]; [destruct Hx| |cbn in Hlen; lia].
  destruct Hx as [->|[]]. reflexivity.
Qed.

(** X23. [update_profile] moves the password reset to the new address: on a
    well-formed site, for a caller who has an account, the answer is 400
    and nothing has changed, or it is 200, only the address of the caller
    has changed, and the lookup by the new address finds the caller and
    nobody else. *)
Theorem update_profile_claims_address (s : site) (user : User) (e : option string)
    (r : AuthResponse) (s1 : site) :
  site_ok s ->
  In user (users s) ->
  update_profile user e s = (r, s1) ->
  (resp_status r = 400 /\ s1 = s)
  \/ (resp_status r = 200
      /\ text e <> ""%string
      /\ users s1 = map (fun v => if (user_id v =? user_id user)%nat
                                  then set_email user (text e) else v) (users s)
      /\ otps s1 = otps s
      /\ List.filter (has_email (text e)) (users s1) = [set_email user (text e)]).
Proof.
  intros Hok Hin Hrun.
  assert (Hok1 := site_ok_update_profile user e s Hin Hok).
  rewrite Hrun in Hok1. cbn [snd] in Hok1.
  rewrite update_profile_run in Hrun.
  destruct (blank e) eqn:Be; [left; injection Hrun as <- <-; split; reflexivity|].
  destruct (existsb _ (users s)) eqn:Htaken;
    [left; injection Hrun as <- <-; split; reflexivity|].
  right. injection Hrun as <- <-.
  rewrite (save_row_present user_id _ user) in * by (auto || reflexivity).
  cbn [resp_status users otps set_users].
  split; [reflexivity|]. split; [apply blank_false_text, Be|].
  split; [reflexivity|]. split; [reflexivity|].
  apply filter_the_one.
  - apply in_map_iff. exists user. split; [|exact Hin].
    cbn [user_id set_email]. rewrite Nat.eqb_refl. reflexivity.
  - unfold has_email. cbn. apply String.eqb_refl.
  - apply (lookup_at_most_one _ (text e) Hok1). apply blank_false_text, Be.
Qed.

Lemma update_profile_claims_address_witness :
  List.filter (has_email "bob@works.example"%string)
    (users (snd (update_profile bob (Some "bob@works.example"%string) small_site)))
  = [set_email bob "bob@works.example"%string].
Proof.
  destruct (update_profile_claims_address small_site bob
              (Some "bob@works.example"%string)
              (fst (update_profile bob (Some "bob@works.example"%string) small_site))
              (snd (update_profile bob (Some "bob@works.example"%string) small_site))
              small_site_ok)
    as [(H & _)|(_ & _ & _ & _ & H)].
  - right. left. reflexivity.
  - vm_compute. reflexivity.
  - vm_compute in H. discriminate.
  - exact H.
Defined.


(** ** The validation report *)

Lemma Qlt_bool_iff (x y : Q) : Qlt_bool x y = true <-> (x < y)%Q.
Proof.
  unfold Qlt_bool. rewrite negb_true_iff. split.
  - intros H. apply Qnot_le_lt. intros Hle. apply Qle_bool_iff in Hle. congruence.
  - intros H. destruct (Qle_bool y x) eqn:E; [|reflexivity].
    apply Qle_bool_iff in E. exfalso. exact (Qlt_not_le _ _ H E).
Qed.

Lemma numeric_dtype_no_text (s : Series) :
  is_numeric_dtype s = true <-> Forall (fun c => forall t, c <> Str t) s.
Proof.
  unfold is_numeric_dtype. rewrite forallb_forall, List.Forall_forall.
  split; intros H c Hc.
  - specialize (H c Hc). intros t ->. discriminate.
  - specialize (H c Hc). destruct c as [|q|t]; [reflexivity|reflexivity|].
    exfalso. exact (H t eq_refl).
Qed.

Lemma violates_lt_below (d : DataFrame) (col : string) (x : Q) :
  (forall s, df_get d col = Some s -> Forall (fun c => forall t, c <> Str t) s) ->
  violates_lt d col x = true <-> below d col x.
Proof.
  intros Hnum. unfold violates_lt, below, cell_of.
  destruct (df_get d col) as [s|] eqn:Eg.
  - rewrite (proj2 (numeric_dtype_no_text s) (Hnum s eq_refl)). cbn [andb].
    unfold any_lt. rewrite existsb_exists. split.
    + intros (c & Hc & Hlt). destruct c as [|q|t]; try discriminate.
      exists q. split; [eauto|]. apply Qlt_bool_iff, Hlt.
    + intros (q & (s' & [= <-] & Hin) & Hlt). exists (Num q).
      split; [exact Hin|]. apply Qlt_bool_iff, Hlt.
  - split; [discriminate|]. intros (q & (s' & [=] & _) & _).
Qed.

Lemma violates_gt_above (d : DataFrame) (col : string) (x : Q) :
  (forall s, df_get d col = Some s -> Forall (fun c => forall t, c <> Str t) s) ->
  violates_gt d col x = true <-> above d col x.
Proof.
  intros Hnum. unfold violates_gt, above, cell_of.
  destruct (df_get d col) as [s|] eqn:Eg.
  - rewrite (proj2 (numeric_dtype_no_text s) (Hnum s eq_refl)). cbn [andb].
    unfold any_gt. rewrite existsb_exists. split.
    + intros (c & Hc & Hlt). destruct c as [|q|t]; try discriminate.
      exists q. split; [eauto|]. apply Qlt_bool_iff, Hlt.
    + intros (q & (s' & [= <-] & Hin) & Hlt). exists (Num q).
      split; [exact Hin|]. apply Qlt_bool_iff, Hlt.
  - split; [discriminate|]. intros (q & (s' & [=] & _) & _).
Qed.

Lemma strip_empty_whitespace (t : chars) :
  chars_eqb (str_strip t) [] = true <-> Forall (fun c => In c whitespace) t.
Proof.
  rewrite chars_eqb_eq. split.
  - intros E. destruct (str_strip_infix t) as (pre & post & Et & Hpre & Hpost).
    rewrite E in Et. cbn [app] in Et. rewrite Et.
    apply Forall_whitespace. rewrite forallb_app, Hpre, Hpost. reflexivity.
  - intros H. apply trimmed_str_strip. exists t, [].
    split; [rewrite app_nil_r; reflexivity|].
    split; [exact H|]. split; [constructor|].
    split; intros c; discriminate.
Qed.

Lemma violates_blank_empty_text (d : DataFrame) (col : string) :
  violates_blank d col = true <-> empty_text d col.
Proof.
  unfold violates_blank, empty_text, cell_of.
  destruct (df_get d col) as [s|] eqn:Eg.
  - unfold any_blank. rewrite existsb_exists. split.
    + intros (c & Hc & Hb). destruct c as [|q|t]; try discriminate.
      exists t. split; [eauto|]. apply strip_empty_whitespace, Hb.
    + intros (t & (s' & [= <-] & Hin) & Hb). exists (Str t).
      split; [exact Hin|]. apply strip_empty_whitespace, Hb.
  - split; [discriminate|]. intros (t & (s' & [=] & _) & _).
Qed.

Lemma reported_checks (ps : list (Prop * string)) (bs : list (bool * string)) :
  Forall2 (fun p b => snd p = snd b /\ (fst b = true <-> fst p)) ps bs ->
  reported ps (map snd (List.filter fst bs)).
Proof.
  induction 1 as [|[P msg] [b msg'] ps bs [Hm Hb] _ IH]; [constructor|].
  cbn [fst snd] in Hm, Hb. subst msg'. cbn [List.filter fst].
  destruct b; cbn [map snd].
  - apply reported_violated; [apply Hb; reflexivity|exact IH].
  - apply reported_met; [|exact IH]. intros HP. apply Hb in HP. discriminate.
Qed.

(** X24. The report of [validate] is the policy: on a frame whose
    measurements hold no text (as the cleaning leaves them) and whose texts
    are ASCII, the report holds the message of every hard error there is (a
    flowrate below 0 or above 10000, a pressure below 0 or above 1000, a
    temperature below -273.15 or above 5000, a name or a type of whitespace
    only) and no other message, in this order: no check is skipped because
    an earlier one failed. *)
Theorem validate_reports_policy (d : DataFrame) :
  measured d -> reported (policy d) (validate d).
Proof.
  intros [Hnum _]. rewrite validate_accumulates. unfold violated, checks, policy.
  assert (Hn : forall col, In col upload_numeric_columns ->
            forall s, df_get d col = Some s -> Forall (fun c => forall t, c <> Str t) s)
    by (intros col Hc s; apply Hnum, Hc).
  apply reported_checks.
  repeat (constructor;
          [split; [reflexivity|];
           first [apply violates_lt_below, Hn; cbn; tauto
                 |apply violates_gt_above, Hn; cbn; tauto
                 |apply violates_blank_empty_text]|]).
  constructor.
Qed.

Lemma validate_reports_policy_witness :
  validate faulty
  = ["Flowrate cannot be negative"; "Flowrate exceeds maximum allowed value (10000)";
     "Equipment Name cannot be empty"]%string
  /\ reported (policy faulty) (validate faulty).
Proof.
  split; [reflexivity|]. apply validate_reports_policy. split.
  - intros col s Hc Hg. cbn in Hc.
    destruct Hc as [<-|[<-|[<-|[]]]]; vm_compute in Hg; injection Hg as <-;
      repeat constructor; discriminate.
  - intros col t (s & Hg & Hin).
    assert (Hall : forall c, In c (concat (map snd faulty)) ->
                             match c with Str u => ascii_text u = true | _ => True end).
    { intros c Hc. cbn in Hc.
      repeat (destruct Hc as [<-|Hc]; [first [reflexivity|exact I]|]). destruct Hc. }
    apply (Hall (Str t)). apply in_concat. exists s. split; [|exact Hin].
    apply in_map_iff. exists (col, s). split; [reflexivity|].
    apply df_get_Some_In, Hg.
Defined.
